(** * Primetrade backend: trade lifecycle and portfolio aggregation

    A shallow embedding of the trade model ([app/models/trade.py]), the
    request schemas ([app/schemas/trade.py]), the service layer
    ([app/services/trade_service.py]) and the routers
    ([app/routers/trades.py], [portfolio.py], [admin.py]).

    - Python [int] is [Z]; timestamps are [Z] (an abstract clock value
      handed to every operation that reads [datetime.utcnow()]).
    - Python [Decimal] is a finite decimal [coef * 10 ^ dexp] together with
      the arithmetic of the default context (28 significant digits,
      ROUND_HALF_EVEN, Emax 999999, Emin -999999, traps on
      InvalidOperation and Overflow).
    - Python [float] is IEEE-754 binary64 ([PrimFloat.float]).
    - The [trades] table is the list of its rows in insertion order; the
      primary key on [id] is the predicate [db_wf].  What a commit makes
      of the value of a [Numeric(18, 8)] column is the database's and is
      a parameter ([Engine]); PostgreSQL and SQLite, the two databases of
      [app/database.py], are given as engines. *)

From Stdlib Require Import ZArith QArith Qabs Qpower Bool List Lia Permutation Sorted.
From Stdlib Require Import Ascii String.
From Stdlib Require Import Floats Uint63.
Import ListNotations.

Local Open Scope Z_scope.

(** ** Results of fallible code *)

(** Exceptions that the modelled code can raise. *)
Inductive Error : Type :=
| InvalidOperation          (* decimal.InvalidOperation *)
| Overflow                  (* decimal.Overflow *)
| ValidationError           (* pydantic.ValidationError *)
| TradeNotFoundError (trade_id : Z)
| TradeAlreadyClosedError (trade_id : Z)
| MultipleResultsFound      (* sqlalchemy.exc.MultipleResultsFound *)
| Forbidden                 (* HTTPException(403) *)
| DBAPIError.               (* sqlalchemy.exc.DBAPIError: a commit was refused *)

Inductive result (A : Type) : Type :=
| Ok (a : A)
| Err (e : Error).
Arguments Ok {A} a.
Arguments Err {A} e.

Definition bind {A B : Type} (r : result A) (k : A -> result B) : result B :=
  match r with
  | Ok a => k a
  | Err e => Err e
  end.

Notation "'let*' x ':=' r 'in' k" := (bind r (fun x => k))
  (at level 10, x name, r at level 100, k at level 200).

(** ** Python's [decimal.Decimal] under the default context *)

Module Dec.

(** A finite decimal.  The sign is the sign of [coef]; the sign of a
    zero is not tracked (nothing below depends on it), and NaN and the
    infinities are not values of this type: the request schemas reject
    them before any arithmetic. *)
Record Decimal : Type := mkDecimal { coef : Z; dexp : Z }.

(** [decimal.getcontext()] as the interpreter starts it. *)
Definition prec : Z := 28.
Definition Emax : Z := 999999.
Definition Emin : Z := -999999.
Definition Etiny : Z := Emin - prec + 1.
Definition Etop : Z := Emax - prec + 1.

(** [len(self._int)]: the number of decimal digits of the coefficient
    (one for a zero). *)
Fixpoint ndigits_fuel (fuel : nat) (n : Z) : Z :=
  match fuel with
  | O => 1
  | S f => if n <? 10 then 1 else 1 + ndigits_fuel f (n / 10)
  end.

Definition ndigits (c : Z) : Z :=
  ndigits_fuel (Z.to_nat (Z.log2 (Z.abs c))) (Z.abs c).

(** [self.adjusted()]: the exponent of the leading digit. *)
Definition adjusted (d : Decimal) : Z := ndigits (coef d) + dexp d - 1.

(** ROUND_HALF_EVEN on a magnitude [m] that loses its last [k] digits. *)
Definition round_half_even (m k : Z) : Z :=
  let p := 10 ^ k in
  let q := m / p in
  let r := m mod p in
  if (2 * r >? p) || ((2 * r =? p) && Z.odd q) then q + 1 else q.

(** [Decimal._fix]: round to the context precision, keep the exponent
    within the context's range, trap on overflow. *)
Definition fix_ (d : Decimal) : result Decimal :=
  let c := coef d in
  let e := dexp d in
  if c =? 0 then Ok (mkDecimal 0 (Z.min (Z.max e Etiny) Emax))
  else
    let exp_min0 := ndigits c + e - prec in
    if exp_min0 >? Etop then Err Overflow
    else
      let exp_min := Z.max exp_min0 Etiny in
      if e <? exp_min then
        let coeff := round_half_even (Z.abs c) (exp_min - e) in
        let '(coeff, exp_min) :=
          if ndigits coeff >? prec then (coeff / 10, exp_min + 1)
          else (coeff, exp_min) in
        if exp_min >? Etop then Err Overflow
        else Ok (mkDecimal (Z.sgn c * coeff) exp_min)
      else Ok d.

Definition neg (a : Decimal) : Decimal := mkDecimal (- coef a) (dexp a).

(** The operands brought to their common (smaller) exponent. *)
Definition align (a : Decimal) (e : Z) : Z := coef a * 10 ^ (dexp a - e).

(** The sum, difference and product before the context rounds them. *)
Definition exact_add (a b : Decimal) : Decimal :=
  let e := Z.min (dexp a) (dexp b) in
  mkDecimal (align a e + align b e) e.

Definition exact_sub (a b : Decimal) : Decimal := exact_add a (neg b).

Definition exact_mul (a b : Decimal) : Decimal :=
  mkDecimal (coef a * coef b) (dexp a + dexp b).

(** [Decimal.__add__], [__sub__], [__mul__]: the exact result, then
    [_fix]. *)
Definition add (a b : Decimal) : result Decimal := fix_ (exact_add a b).
Definition sub (a b : Decimal) : result Decimal := fix_ (exact_sub a b).
Definition mul (a b : Decimal) : result Decimal := fix_ (exact_mul a b).

(** Comparison by value ([Decimal.__lt__], [__gt__], [__eq__]). *)
Definition cmp (a b : Decimal) : comparison :=
  let e := Z.min (dexp a) (dexp b) in
  Z.compare (align a e) (align b e).

Definition ltb (a b : Decimal) : bool :=
  match cmp a b with Lt => true | _ => false end.
Definition gtb (a b : Decimal) : bool := ltb b a.
Definition eqb (a b : Decimal) : bool :=
  match cmp a b with Eq => true | _ => false end.

(** [Decimal.__bool__]. *)
Definition truthy (a : Decimal) : bool := negb (coef a =? 0).

Definition zero : Decimal := mkDecimal 0 0.      (* Decimal("0") *)

(** [Decimal._rescale(exp, ROUND_HALF_EVEN)]. *)
Definition rescale (d : Decimal) (e : Z) : Decimal :=
  if coef d =? 0 then mkDecimal 0 e
  else if dexp d >=? e then mkDecimal (align d e) e
  else mkDecimal (Z.sgn (coef d) * round_half_even (Z.abs (coef d)) (e - dexp d)) e.

(** [Decimal.quantize(Decimal((0, (1,), e)))] for a target exponent
    inside the context's range. *)
Definition quantize (d : Decimal) (e : Z) : result Decimal :=
  if coef d =? 0 then fix_ (mkDecimal 0 e)
  else if adjusted d >? Emax then Err InvalidOperation
  else if adjusted d - e + 1 >? prec then Err InvalidOperation
  else
    let ans := rescale d e in
    if adjusted ans >? Emax then Err InvalidOperation
    else if ndigits (coef ans) >? prec then Err InvalidOperation
    else fix_ ans.

(** [round(v, n)], that is [Decimal.__round__(n)]. *)
Definition round_ (v : Decimal) (n : Z) : result Decimal := quantize v (- n).

(** The value denoted by a decimal. *)
Definition to_Q (d : Decimal) : Q := inject_Z (coef d) * Qpower 10 (dexp d).

(** A decimal the context holds without rounding. *)
Definition within_context (d : Decimal) : Prop :=
  Z.abs (coef d) < 10 ^ prec /\ Etiny <= dexp d <= Etop.

End Dec.

(** ** Python's [float] and [str] *)

Module PyFloat.

(** [float(z)], exact for [0 <= z < 2 ^ 53]. *)
Definition of_int (z : Z) : float := PrimFloat.of_uint63 (Uint63.of_Z z).

(** [a / b] on two [int]s: the correctly rounded quotient. *)
Definition true_div (a b : Z) : float := PrimFloat.div (of_int a) (of_int b).

(** The integer nearest to [n / d], ties to even. *)
Definition half_even_div (n d : Z) : Z :=
  let q := n / d in
  let r := n mod d in
  if (2 * r >? d) || ((2 * r =? d) && Z.odd q) then q + 1 else q.

(** [round(x, 2)]: the exact binary value of [x] is rounded to the
    nearest hundredth (ties to even) and that decimal is read back as
    the nearest binary64 value. *)
Definition round2 (x : float) : float :=
  match Prim2SF x with
  | S754_finite s m e =>
      let num := 100 * Z.pos m in
      let k := if 0 <=? e then num * 2 ^ e else half_even_div num (2 ^ (- e)) in
      let r := PrimFloat.div (of_int k) (of_int 100) in
      if s then PrimFloat.opp r else r
  | _ => x
  end.

End PyFloat.

Module Str.

Definition code (c : ascii) : N := N_of_ascii c.

(** The model reads a [string] as ASCII text. *)
Definition is_ascii (s : string) : Prop :=
  Forall (fun c => (code c < 128)%N) (list_ascii_of_string s).

(** [str.isspace], [str.isalpha] and [str.upper] on one ASCII
    character. *)
Definition isspace_char (c : ascii) : bool :=
  let n := code c in
  ((9 <=? n) && (n <=? 13) || (28 <=? n) && (n <=? 32))%N.

Definition isalpha_char (c : ascii) : bool :=
  let n := code c in
  ((65 <=? n) && (n <=? 90) || (97 <=? n) && (n <=? 122))%N.

Definition upper_char (c : ascii) : ascii :=
  let n := code c in
  if ((97 <=? n) && (n <=? 122))%N then ascii_of_N (n - 32) else c.

Fixpoint upper (s : string) : string :=
  match s with
  | EmptyString => EmptyString
  | String c r => String (upper_char c) (upper r)
  end.

Fixpoint lstrip (s : string) : string :=
  match s with
  | EmptyString => EmptyString
  | String c r => if isspace_char c then lstrip r else s
  end.

Fixpoint rstrip (s : string) : string :=
  match s with
  | EmptyString => EmptyString
  | String c r =>
      match rstrip r with
      | EmptyString => if isspace_char c then EmptyString else String c EmptyString
      | r' => String c r'
      end
  end.

Definition strip (s : string) : string := rstrip (lstrip s).

(** [sep in s] for a one-character [sep]. *)
Fixpoint contains (sep : ascii) (s : string) : bool :=
  match s with
  | EmptyString => false
  | String c r => Ascii.eqb c sep || contains sep r
  end.

(** [s.split(sep)] for a one-character [sep]. *)
Fixpoint split (sep : ascii) (s : string) : list string :=
  match s with
  | EmptyString => [EmptyString]
  | String c r =>
      if Ascii.eqb c sep then EmptyString :: split sep r
      else match split sep r with
           | h :: t => String c h :: t
           | [] => [String c EmptyString]
           end
  end.

Fixpoint all_alpha (s : string) : bool :=
  match s with
  | EmptyString => true
  | String c r => isalpha_char c && all_alpha r
  end.

(** [s.isalpha()]: at least one character, all of them letters. *)
Definition isalpha (s : string) : bool :=
  match s with
  | EmptyString => false
  | _ => all_alpha s
  end.

Definition len (s : string) : Z := Z.of_nat (String.length s).

End Str.

Import Dec.

(** ** [app/models]: the [User] and [Trade] rows *)

Module User.
Record t : Type := mk { id : Z; username : string; is_admin : bool }.
End User.

Inductive TradeType : Type := BUY | SELL.
Inductive TradeStatus : Type := OPEN | CLOSED.

Definition TradeType_eqb (a b : TradeType) : bool :=
  match a, b with
  | BUY, BUY | SELL, SELL => true
  | _, _ => false
  end.

Definition TradeStatus_eqb (a b : TradeStatus) : bool :=
  match a, b with
  | OPEN, OPEN | CLOSED, CLOSED => true
  | _, _ => false
  end.

Record Trade : Type := mkTrade {
  id : Z;
  user_id : Z;
  symbol : string;
  entry_price : Decimal;
  quantity : Decimal;
  trade_type : TradeType;
  status : TradeStatus;
  exit_price : option Decimal;
  realized_pnl : option Decimal;
  created_at : Z;
  closed_at : option Z
}.

(** [Trade.calculate_pnl]. *)
Definition calculate_pnl (self : Trade) (exit_price : Decimal) : result Decimal :=
  match trade_type self with
  | BUY =>
      let* d := Dec.sub exit_price (entry_price self) in
      Dec.mul d (quantity self)
  | SELL =>
      let* d := Dec.sub (entry_price self) exit_price in
      Dec.mul d (quantity self)
  end.

(** ** [app/schemas/trade.py] *)

(** A pydantic field validates to a value or contributes a line to the
    model's [ValidationError] ([None]); an exception that is neither a
    [ValueError] nor an [AssertionError] leaves the validation at once. *)
Definition decimal_field_gt0 (validator : Decimal -> result Decimal) (v : Decimal)
  : result (option Decimal) :=
  if Dec.gtb v Dec.zero then
    let* r := validator v in Ok (Some r)
  else Ok None.

Module TradeCreate.

Record t : Type := mk {
  symbol : string;
  entry_price : Decimal;
  quantity : Decimal;
  trade_type : TradeType
}.

(** The validator of [symbol]; [None] is its [ValueError]. *)
Definition validate_symbol_format (v : string) : option string :=
  let symbol := Str.strip (Str.upper v) in
  if negb (Str.contains "/" symbol) then None
  else
    let parts := Str.split "/" symbol in
    if negb (Nat.eqb (List.length parts) 2) || negb (forallb Str.isalpha parts)
    then None
    else Some symbol.

(** The validator of [entry_price] and [quantity]. *)
Definition validate_precision (v : Decimal) : result Decimal := Dec.round_ v 8.

(** [Field(..., min_length=3, max_length=20)], then the validator. *)
Definition symbol_field (v : string) : option string :=
  if (3 <=? Str.len v) && (Str.len v <=? 20) then validate_symbol_format v
  else None.

(** Building the model from a request body: the fields are validated in
    the order of their declaration. *)
Definition validate (body : t) : result t :=
  let s := symbol_field (symbol body) in
  let* e := decimal_field_gt0 validate_precision (entry_price body) in
  let* q := decimal_field_gt0 validate_precision (quantity body) in
  match s, e, q with
  | Some s, Some e, Some q => Ok (mk s e q (trade_type body))
  | _, _, _ => Err ValidationError
  end.

End TradeCreate.

Module TradeClose.

Record t : Type := mk { exit_price : Decimal }.

Definition validate_precision (v : Decimal) : result Decimal := Dec.round_ v 8.

Definition validate (body : t) : result t :=
  let* x := decimal_field_gt0 validate_precision (exit_price body) in
  match x with
  | Some x => Ok (mk x)
  | None => Err ValidationError
  end.

End TradeClose.

Record PortfolioSummary : Type := mkPortfolioSummary {
  total_realized_pnl : Decimal;
  open_positions : Z;
  closed_positions : Z;
  winning_trades : Z;
  losing_trades : Z;
  win_rate : float
}.

(** ** The [trades] table *)

Definition Db : Type := list Trade.

(** The primary key: no two rows share an [id]. *)
Definition db_wf (db : Db) : Prop := NoDup (map id db).

(** The key an INSERT assigns. *)
Definition next_id (db : Db) : Z := 1 + fold_right Z.max 0 (map id db).

(** The UPDATE that a commit flushes for a loaded row. *)
Definition commit_row (db : Db) (trade : Trade) : Db :=
  map (fun r => if id r =? id trade then trade else r) db.

(** [ORDER BY created_at DESC]; rows with equal timestamps keep the
    order of the table (SQL leaves their order open). *)
Fixpoint insert_desc (t : Trade) (l : list Trade) : list Trade :=
  match l with
  | [] => [t]
  | x :: r => if created_at x <=? created_at t then t :: l else x :: insert_desc t r
  end.

Definition order_by_created_at_desc (l : list Trade) : list Trade :=
  fold_right insert_desc [] l.

(** [Result.scalar_one_or_none]. *)
Definition scalar_one_or_none (rows : list Trade) : result (option Trade) :=
  match rows with
  | [] => Ok None
  | [t] => Ok (Some t)
  | _ => Err MultipleResultsFound
  end.

(** ** The database behind the session

    The prices, the quantity and the profit of a trade are
    [Numeric(precision=18, scale=8)] columns.  A commit hands their
    values to the database of [settings.DATABASE_URL] and the [refresh]
    that follows reads them back: what comes back is that database's
    doing (PostgreSQL in production, SQLite under the tests), so it is a
    parameter here.  [numeric_18_8 engine d] is the decimal read back
    after [d] was committed to such a column, [None] when the database
    refuses the value and the commit raises. *)
Record Engine : Type := mkEngine {
  numeric_18_8 : Decimal -> option Decimal
}.

(** One [Numeric(18, 8)] value through [commit] and [refresh]. *)
Definition commit_numeric (engine : Engine) (v : Decimal) : result Decimal :=
  match numeric_18_8 engine v with
  | Some stored => Ok stored
  | None => Err DBAPIError
  end.

(** ** [app/services/trade_service.py] *)

Module TradeService.

(** The row is built, committed and refreshed: the table and the
    caller get the entry price and the quantity as the database stored
    them; a refused commit raises and adds nothing. *)
Definition create_trade (engine : Engine) (db : Db) (now : Z) (user_id : Z)
    (trade_data : TradeCreate.t) : result (Db * Trade) :=
  let* entry_price := commit_numeric engine (TradeCreate.entry_price trade_data) in
  let* quantity := commit_numeric engine (TradeCreate.quantity trade_data) in
  let trade :=
    mkTrade (next_id db) user_id
      (TradeCreate.symbol trade_data)
      entry_price
      quantity
      (TradeCreate.trade_type trade_data)
      OPEN None None now None in
  Ok (db ++ [trade], trade).

Definition get_user_trades (db : Db) (uid : Z) (st : option TradeStatus) : list Trade :=
  let query := filter (fun t => user_id t =? uid) db in
  let query :=
    match st with
    | Some s => filter (fun t => TradeStatus_eqb (status t) s) query
    | None => query
    end in
  order_by_created_at_desc query.

Definition get_all_trades (db : Db) : list Trade := order_by_created_at_desc db.

Definition get_trade_by_id (db : Db) (trade_id : Z) (uid : Z) : result (option Trade) :=
  scalar_one_or_none
    (filter (fun t => (id t =? trade_id) && (user_id t =? uid)) db).

(** The profit is computed from the given exit price; then the exit
    price and the profit are committed and refreshed, so that the table
    and the caller get them as the database stored them; a refused
    commit raises and changes nothing. *)
Definition close_trade (engine : Engine) (db : Db) (now : Z) (trade : Trade)
    (exit_price : Decimal) : result (Db * Trade) :=
  let* realized_pnl := calculate_pnl trade exit_price in
  let* exit_price := commit_numeric engine exit_price in
  let* realized_pnl := commit_numeric engine realized_pnl in
  let trade :=
    mkTrade (id trade) (user_id trade) (symbol trade) (entry_price trade)
      (quantity trade) (trade_type trade)
      CLOSED (Some exit_price) (Some realized_pnl) (created_at trade) (Some now) in
  Ok (commit_row db trade, trade).

(** One turn of the loop over the closed trades; the state is
    [(total_pnl, winning_trades, losing_trades)]. *)
Definition summary_step (acc : Decimal * Z * Z) (trade : Trade)
  : result (Decimal * Z * Z) :=
  let '(total_pnl, winning, losing) := acc in
  match realized_pnl trade with
  | Some p =>
      if Dec.truthy p then
        let* total_pnl := Dec.add total_pnl p in
        if Dec.gtb p Dec.zero then Ok (total_pnl, winning + 1, losing)
        else if Dec.ltb p Dec.zero then Ok (total_pnl, winning, losing + 1)
        else Ok (total_pnl, winning, losing)
      else Ok acc
  | None => Ok acc
  end.

Fixpoint summary_loop (closed_trades : list Trade) (acc : Decimal * Z * Z)
  : result (Decimal * Z * Z) :=
  match closed_trades with
  | [] => Ok acc
  | trade :: rest =>
      let* acc := summary_step acc trade in
      summary_loop rest acc
  end.

Definition get_portfolio_summary (db : Db) (uid : Z) : result PortfolioSummary :=
  let open_positions :=
    Z.of_nat (List.length
      (filter (fun t => (user_id t =? uid) && TradeStatus_eqb (status t) OPEN) db)) in
  let closed_trades :=
    filter (fun t => (user_id t =? uid) && TradeStatus_eqb (status t) CLOSED) db in
  let* acc := summary_loop closed_trades (Dec.zero, 0, 0) in
  let '(total_pnl, winning_trades, losing_trades) := acc in
  let closed_positions := Z.of_nat (List.length closed_trades) in
  let win_rate :=
    if closed_positions >? 0
    then PrimFloat.mul (PyFloat.true_div winning_trades closed_positions)
                       (PyFloat.of_int 100)
    else PrimFloat.zero in
  Ok (mkPortfolioSummary total_pnl open_positions closed_positions
        winning_trades losing_trades (PyFloat.round2 win_rate)).

End TradeService.

(** ** [app/routers] *)

Module trades.

Definition create_trade (engine : Engine) (db : Db) (now : Z)
    (trade_data : TradeCreate.t) (current_user : User.t) : result (Db * Trade) :=
  TradeService.create_trade engine db now (User.id current_user) trade_data.

Definition get_trades (db : Db) (st : option TradeStatus) (current_user : User.t)
  : list Trade :=
  TradeService.get_user_trades db (User.id current_user) st.

Definition close_trade (engine : Engine) (db : Db) (now : Z) (trade_id : Z)
    (close_data : TradeClose.t) (current_user : User.t) : result (Db * Trade) :=
  let* trade := TradeService.get_trade_by_id db trade_id (User.id current_user) in
  match trade with
  | None => Err (TradeNotFoundError trade_id)
  | Some trade =>
      if TradeStatus_eqb (status trade) CLOSED
      then Err (TradeAlreadyClosedError trade_id)
      else TradeService.close_trade engine db now trade
             (TradeClose.exit_price close_data)
  end.

End trades.

Module portfolio.

Definition get_portfolio_summary (db : Db) (current_user : User.t)
  : result PortfolioSummary :=
  TradeService.get_portfolio_summary db (User.id current_user).

End portfolio.

Module admin.

(** [get_current_admin_user], then the route. *)
Definition get_all_trades (db : Db) (current_user : User.t) : result (list Trade) :=
  if negb (User.is_admin current_user) then Err Forbidden
  else Ok (TradeService.get_all_trades db).

End admin.

(** ** The application: one authenticated request against the table

    The request body is validated against its schema before the route
    function runs; a request that raises leaves the table as it was. *)

Inductive Request : Type :=
| POST_trades (body : TradeCreate.t)
| GET_trades (st : option TradeStatus)
| PATCH_trades_close (trade_id : Z) (body : TradeClose.t)
| GET_portfolio_summary
| GET_admin_trades.

Inductive Response : Type :=
| RTrade (t : Trade)
| RTrades (l : list Trade)
| RSummary (s : PortfolioSummary).

Definition post_trades (engine : Engine) (db : Db) (now : Z) (current_user : User.t)
    (body : TradeCreate.t) : result (Db * Trade) :=
  let* trade_data := TradeCreate.validate body in
  trades.create_trade engine db now trade_data current_user.

Definition patch_trades_close (engine : Engine) (db : Db) (now : Z)
    (current_user : User.t) (trade_id : Z) (body : TradeClose.t)
  : result (Db * Trade) :=
  let* close_data := TradeClose.validate body in
  trades.close_trade engine db now trade_id close_data current_user.

Definition handle (engine : Engine) (db : Db) (now : Z) (current_user : User.t)
    (req : Request) : Db * result Response :=
  match req with
  | POST_trades body =>
      match post_trades engine db now current_user body with
      | Ok (db', t) => (db', Ok (RTrade t))
      | Err e => (db, Err e)
      end
  | GET_trades st => (db, Ok (RTrades (trades.get_trades db st current_user)))
  | PATCH_trades_close trade_id body =>
      match patch_trades_close engine db now current_user trade_id body with
      | Ok (db', t) => (db', Ok (RTrade t))
      | Err e => (db, Err e)
      end
  | GET_portfolio_summary =>
      match portfolio.get_portfolio_summary db current_user with
      | Ok s => (db, Ok (RSummary s))
      | Err e => (db, Err e)
      end
  | GET_admin_trades =>
      match admin.get_all_trades db current_user with
      | Ok l => (db, Ok (RTrades l))
      | Err e => (db, Err e)
      end
  end.

(** The table after a sequence of requests, each with its clock reading
    and its caller. *)
Fixpoint run (engine : Engine) (db : Db) (requests : list (Z * User.t * Request))
  : Db :=
  match requests with
  | [] => db
  | (now, current_user, req) :: rest =>
      run engine (fst (handle engine db now current_user req)) rest
  end.

(** ** The two databases of [app/database.py]

    Neither is code of this repository; they are modelled from what the
    databases do with a [Numeric(18, 8)] column, to have engines to run
    the requests on. *)

(** PostgreSQL: a [numeric(18,8)] value is rounded to eight places, a
    tie away from zero, and refused ("numeric field overflow") unless
    the rounded magnitude is below [10 ^ 10]; it is read back with its
    eight places. *)
Module PostgreSQL.

Definition round_half_away (m k : Z) : Z :=
  let p := 10 ^ k in
  let q := m / p in
  let r := m mod p in
  if 2 * r >=? p then q + 1 else q.

Definition numeric_18_8 (d : Decimal) : option Decimal :=
  let c :=
    if dexp d >=? -8 then align d (-8)
    else Z.sgn (coef d) * round_half_away (Z.abs (coef d)) (-8 - dexp d) in
  if Z.abs c <? 10 ^ 10 * 10 ^ 8 then Some (mkDecimal c (-8)) else None.

Definition engine : Engine := mkEngine numeric_18_8.

End PostgreSQL.

(** SQLite, as the ORM drives it: the dialect has no decimals of its
    own, so the value is bound as [float(d)], kept as that binary64
    number, and read back as [Decimal("%.8f" % value)].  Nothing is
    refused. *)
Module SQLite.

(** The binary64 number nearest to [n / d] (ties to even) for positive
    [n] and [d], as mantissa and exponent; [None] beyond the largest
    one, where [float] gives infinity, which is no value of [Decimal]
    here. *)
Definition nearest_binary64 (n d : Z) : option (Z * Z) :=
  let e1 := Z.log2 n - Z.log2 d - 52 in
  let q := if e1 <? 0 then (n * 2 ^ (- e1)) / d else n / (d * 2 ^ e1) in
  let e := Z.max (if q <? 2 ^ 52 then e1 - 1 else e1) (-1074) in
  let m :=
    if e <? 0 then PyFloat.half_even_div (n * 2 ^ (- e)) d
    else PyFloat.half_even_div n (d * 2 ^ e) in
  let '(m, e) := if m =? 2 ^ 53 then (2 ^ 52, e + 1) else (m, e) in
  if e >? 971 then None else Some (m, e).

(** ["%.8f" % x] for [x = m * 2 ^ e], in units of [10 ^ -8]: the exact
    value, rounded half-even. *)
Definition format_8f (m e : Z) : Z :=
  if 0 <=? e then m * 2 ^ e * 10 ^ 8
  else PyFloat.half_even_div (m * 10 ^ 8) (2 ^ (- e)).

Definition numeric_18_8 (d : Decimal) : option Decimal :=
  if coef d =? 0 then Some (mkDecimal 0 (-8))
  else
    let x :=
      if 0 <=? dexp d then nearest_binary64 (Z.abs (coef d) * 10 ^ dexp d) 1
      else nearest_binary64 (Z.abs (coef d)) (10 ^ (- dexp d)) in
    match x with
    | Some (m, e) => Some (mkDecimal (Z.sgn (coef d) * format_8f m e) (-8))
    | None => None
    end.

Definition engine : Engine := mkEngine numeric_18_8.

End SQLite.

(** ** Vocabulary of the statements *)

(** A price or quantity as [round(v, 8)] leaves it: not negative, eight
    digits after the point, at most 28 digits in all. *)
Definition places8 (d : Decimal) : Prop :=
  dexp d = -8 /\ 0 <= coef d < 10 ^ 28.

(** The largest such decimal, 99999999999999999999.99999999. *)
Definition max8 : Decimal := mkDecimal (10 ^ 28 - 1) (-8).

(** [a <= b] on decimals, by value. *)
Definition Dec_leb (a b : Decimal) : bool := negb (Dec.ltb b a).

(** In the words of the spec (section 4.1): the rule on exact values,
    [(exit - entry) * quantity] for a long position and
    [(entry - exit) * quantity] for a short one. *)
Definition pnl_value (t : Trade) (x : Decimal) : Q :=
  match trade_type t with
  | BUY => (to_Q x - to_Q (entry_price t)) * to_Q (quantity t)
  | SELL => (to_Q (entry_price t) - to_Q x) * to_Q (quantity t)
  end.

(** The difference and the product of [calculate_pnl] before the context
    rounds them. *)
Definition exact_difference (t : Trade) (x : Decimal) : Decimal :=
  match trade_type t with
  | BUY => exact_sub x (entry_price t)
  | SELL => exact_sub (entry_price t) x
  end.

Definition exact_pnl (t : Trade) (x : Decimal) : Decimal :=
  exact_mul (exact_difference t x) (quantity t).

(** The row that opening a trade adds. *)
Definition opened_row (db : Db) (now uid : Z) (s : string) (e q : Decimal)
    (ty : TradeType) : Trade :=
  mkTrade (next_id db) uid s e q ty OPEN None None now None.

(** The row that a close at price [x] with profit [pnl] leaves. *)
Definition closed_row (t : Trade) (x pnl : Decimal) (now : Z) : Trade :=
  mkTrade (id t) (user_id t) (symbol t) (entry_price t) (quantity t) (trade_type t)
    CLOSED (Some x) (Some pnl) (created_at t) (Some now).

(** An engine that keeps what fits the column: a value of no more than
    eight places and of a magnitude below [B] units of [10 ^ -8] is read
    back as it is, with its eight places.  (PostgreSQL does with
    [B = 10 ^ 18], the whole range of the column.) *)
Definition stores_exactly (engine : Engine) (B : Z) : Prop :=
  forall d c,
    Dec.eqb d (mkDecimal c (-8)) = true -> Z.abs c < B ->
    numeric_18_8 engine d = Some (mkDecimal c (-8)).

(** A value as a [numeric(18,8)] holds it: eight places, magnitude below
    [10 ^ 10]. *)
Definition in_column (p : Decimal) : Prop :=
  dexp p = -8 /\ Z.abs (coef p) < 10 ^ 18.

(** An engine that reads back nothing but such values (PostgreSQL does;
    SQLite, which refuses nothing, does not). *)
Definition stores_in_column (engine : Engine) : Prop :=
  forall d r, numeric_18_8 engine d = Some r -> in_column r.

(** A table whose recorded profits are all such values. *)
Definition recorded_in_column (db : Db) : Prop :=
  forall t p, In t db -> realized_pnl t = Some p -> in_column p.

(** Most recent first. *)
Definition newest_first (l : list Trade) : Prop :=
  StronglySorted (fun a b => created_at b <= created_at a) l.

(** The rows of one user, in table order. *)
Definition rows_of (uid : Z) (db : Db) : list Trade :=
  filter (fun t => user_id t =? uid) db.

(** The optional status filter of a listing. *)
Definition status_matches (st : option TradeStatus) (t : Trade) : bool :=
  match st with
  | Some s => TradeStatus_eqb (status t) s
  | None => true
  end.

(** The closed and the open trades of a user, in table order. *)
Definition closed_of (uid : Z) (db : Db) : list Trade :=
  filter (fun t => TradeStatus_eqb (status t) CLOSED) (rows_of uid db).

Definition open_of (uid : Z) (db : Db) : list Trade :=
  filter (fun t => TradeStatus_eqb (status t) OPEN) (rows_of uid db).

(** The profit a row records; a row without one contributes nothing. *)
Definition pnl_of (t : Trade) : Decimal :=
  match realized_pnl t with
  | Some p => p
  | None => Dec.zero
  end.

(** In the words of the spec (section 4.3): the sum of [realized_pnl] over
    a list of trades, on exact values. *)
Definition pnl_total (l : list Trade) : Q :=
  fold_right (fun t acc => (to_Q (pnl_of t) + acc)%Q) 0%Q l.

(** In the words of the spec (section 4.3): a winning trade has
    [realized_pnl > 0], a losing trade [realized_pnl < 0]. *)
Definition is_win (t : Trade) : bool := Dec.gtb (pnl_of t) Dec.zero.
Definition is_loss (t : Trade) : bool := Dec.ltb (pnl_of t) Dec.zero.

Definition count (f : Trade -> bool) (l : list Trade) : Z :=
  Z.of_nat (List.length (filter f l)).

(** The magnitudes of the profits of a list, added up in units of
    [10 ^ s]. *)
Definition pnl_mass (s : Z) (l : list Trade) : Z :=
  fold_right
    (fun t acc => Z.abs (coef (pnl_of t)) * 10 ^ (dexp (pnl_of t) - s) + acc) 0 l.

(** No profit of the list has digits below [10 ^ s]. *)
Definition pnl_scale (s : Z) (l : list Trade) : Prop :=
  Forall (fun t => coef (pnl_of t) <> 0 -> s <= dexp (pnl_of t)) l.

(** In the words of the spec (section 4.3): [100 * winning / closed]
    rounded to two decimal places, in hundredths of a percent, with a tie
    going to the even neighbour or upwards; and the binary64 value that
    reads such a decimal. *)
Definition pct_half_even (w n : Z) : Z := PyFloat.half_even_div (10000 * w) n.
Definition pct_half_up (w n : Z) : Z := (2 * 10000 * w + n) / (2 * n).
Definition float_of_hundredths (k : Z) : float :=
  PrimFloat.div (PyFloat.of_int k) (PyFloat.of_int 100).

(** The win rate as the service computes it from the two counts. *)
Definition float_win_rate (w n : Z) : float :=
  PyFloat.round2
    (if n >? 0 then PrimFloat.mul (PyFloat.true_div w n) (PyFloat.of_int 100)
     else PrimFloat.zero).

(** The computed win rate against the exactly rounded one. *)
Definition win_rate_agrees (w n : nat) : bool :=
  PrimFloat.eqb
    (float_win_rate (Z.of_nat w) (Z.of_nat n))
    (float_of_hundredths (pct_half_even (Z.of_nat w) (Z.of_nat n))).

(** In the words of the spec (section 3): a symbol consists of exactly one
    ['/'] separating two alphabetic segments. *)
Definition base_quote_format (s : string) : Prop :=
  exists a b, s = (a ++ String "/" b)%string /\
              Str.isalpha a = true /\ Str.isalpha b = true.

(** The symbols that [TradeCreate] accepts. *)
Definition symbol_accepted (v : string) : Prop :=
  Str.len v <= 20 /\ base_quote_format (Str.strip (Str.upper v)).

(** ** Example data *)

Definition alice : User.t := User.mk 1 "alice" false.
Definition bob : User.t := User.mk 2 "bob" false.

(** The long scenario: BTC/USDT bought at 50000.00000000 for 0.10000000,
    still open. *)
Definition scenario_long : Trade :=
  mkTrade 1 1 "BTC/USDT" (mkDecimal 5000000000000 (-8)) (mkDecimal 10000000 (-8))
    BUY OPEN None None 0 None.

(** The long scenario after its close at 55000, with the profit
    500.00000000 as the column holds it. *)
Definition scenario_closed : Trade :=
  closed_row scenario_long (mkDecimal 5500000000000 (-8))
    (mkDecimal 50000000000 (-8)) 1.

(** A trade of user 2, closed with a profit of 1000. *)
Definition trade_of_bob : Trade :=
  mkTrade 2 2 "ETH/USDT" (mkDecimal 300000000000 (-8)) (mkDecimal 100000000 (-8))
    BUY CLOSED (Some (mkDecimal 400000000000 (-8)))
    (Some (mkDecimal 100000000000 (-8))) 0 (Some 1).

(** A long trade with a 28-digit quantity. *)
Definition wide_trade : Trade :=
  mkTrade 1 1 "BTC/USDT" (mkDecimal 1 (-8))
    (mkDecimal 3333333333333333333333333333 (-8)) BUY OPEN None None 0 None.

(** 160 trades of user 1, each bought at 1 for a quantity of 1 and
    closed: the first 23 at 2 (won), the other 137 at 0.5 (lost). *)
Definition requests_160 : list (Z * User.t * Request) :=
  flat_map
    (fun i =>
       [(Z.of_nat (2 * i), alice,
         POST_trades (TradeCreate.mk "BTC/USDT" (mkDecimal 1 0) (mkDecimal 1 0) BUY));
        (Z.of_nat (2 * i + 1), alice,
         PATCH_trades_close (Z.of_nat i)
           (TradeClose.mk (if Nat.leb i 23 then mkDecimal 2 0 else mkDecimal 5 (-1))))])
    (seq 1 160).

Definition db_160 : Db := run PostgreSQL.engine [] requests_160.

(** Two trades of user 1 on the SQLite engine.  The first is opened at
    0.00000001 for a quantity of 1 and closed at
    99999999999999999999.99999999: its profit
    99999999999999999999.99999998 goes through a binary float and is
    recorded as 100000000000000000000.00000000.  The second is opened at
    1 for a quantity of 1 and closed at 1.00000001, with the profit
    0.00000001. *)
Definition wide_requests : list (Z * User.t * Request) :=
  [(1, alice, POST_trades (TradeCreate.mk "BTC/USDT" (mkDecimal 1 (-8)) (mkDecimal 1 0) BUY));
   (2, alice, PATCH_trades_close 1 (TradeClose.mk (mkDecimal (10 ^ 28 - 1) (-8))));
   (3, alice, POST_trades (TradeCreate.mk "BTC/USDT" (mkDecimal 1 0) (mkDecimal 1 0) BUY));
   (4, alice, PATCH_trades_close 2 (TradeClose.mk (mkDecimal 100000001 (-8))))].

Definition db_wide : Db := run SQLite.engine [] wide_requests.

(** ** Accounts: [app/schemas/user.py], [app/services/auth_service.py],
    [app/routers/auth.py] and [app/dependencies.py] *)

Module PyStr.

(** [str.isalnum] and [str.lower] on one ASCII character. *)
Definition isdigit_char (c : ascii) : bool :=
  let n := Str.code c in
  ((48 <=? n) && (n <=? 57))%N.

Definition isalnum_char (c : ascii) : bool :=
  Str.isalpha_char c || isdigit_char c.

Definition lower_char (c : ascii) : ascii :=
  let n := Str.code c in
  if ((65 <=? n) && (n <=? 90))%N then ascii_of_N (n + 32) else c.

Fixpoint lower (s : string) : string :=
  match s with
  | EmptyString => EmptyString
  | String c r => String (lower_char c) (lower r)
  end.

(** [s.replace(old, "")] for a one-character [old]. *)
Fixpoint replace_with_empty (old : ascii) (s : string) : string :=
  match s with
  | EmptyString => EmptyString
  | String c r =>
      if Ascii.eqb c old then replace_with_empty old r
      else String c (replace_with_empty old r)
  end.

Fixpoint all_alnum (s : string) : bool :=
  match s with
  | EmptyString => true
  | String c r => isalnum_char c && all_alnum r
  end.

(** [s.isalnum()]: at least one character, all of them letters or
    digits. *)
Definition isalnum (s : string) : bool :=
  match s with
  | EmptyString => false
  | _ => all_alnum s
  end.

End PyStr.

(** What the account routes and the dependencies raise. *)
Inductive AuthError : Type :=
| RequestValidationError                  (* the body does not fit its schema *)
| UsernameExistsError (username : string)
| InvalidCredentialsError
| CredentialsException                    (* HTTPException(401) *)
| AdminRequired                           (* HTTPException(403) *)
| MultipleRowsFound
| ValueError.                             (* raised inside bcrypt *)

Inductive outcome (A : Type) : Type :=
| Returns (a : A)
| Raises (e : AuthError).
Arguments Returns {A} a.
Arguments Raises {A} e.

Module UserCreate.

Record t : Type := mk { username : string; password : string }.

(** The validator of [username]; [None] is its [ValueError]. *)
Definition username_alphanumeric (v : string) : option string :=
  if negb (PyStr.isalnum
             (PyStr.replace_with_empty "-" (PyStr.replace_with_empty "_" v)))
  then None
  else Some (PyStr.lower v).

(** [Field(..., min_length=3, max_length=50)], then the validator. *)
Definition username_field (v : string) : option string :=
  if (3 <=? Str.len v) && (Str.len v <=? 50) then username_alphanumeric v
  else None.

(** [Field(..., min_length=8)]. *)
Definition password_field (v : string) : option string :=
  if 8 <=? Str.len v then Some v else None.

Definition validate (body : t) : option t :=
  match username_field (username body), password_field (password body) with
  | Some u, Some p => Some (mk u p)
  | _, _ => None
  end.

End UserCreate.

(** A row of the [users] table. *)
Module UserRow.

Record t : Type := mk {
  id : Z;
  username : string;
  hashed_password : string;
  created_at : Z;
  is_admin : bool
}.

(** The user as the trading routes read it. *)
Definition as_user (r : t) : User.t := User.mk (id r) (username r) (is_admin r).

End UserRow.

Definition Users : Type := list UserRow.t.

(** The primary key and the unique index on [username]. *)
Definition users_wf (users : Users) : Prop :=
  NoDup (map UserRow.id users) /\ NoDup (map UserRow.username users).

Definition next_user_id (users : Users) : Z :=
  1 + fold_right Z.max 0 (map UserRow.id users).

(** [select(User).where(User.username == name)], then
    [scalar_one_or_none]. *)
Definition user_by_username (users : Users) (name : string)
  : outcome (option UserRow.t) :=
  match filter (fun r => String.eqb (UserRow.username r) name) users with
  | [] => Returns None
  | [r] => Returns (Some r)
  | _ => Raises MultipleRowsFound
  end.

(** The claims of a token: a [dict] with string keys. *)
Inductive Value : Type :=
| VStr (s : string)
| VBool (b : bool)
| VTime (t : Z).

Definition Dict : Type := list (string * Value).

(** [d.get(k)]. *)
Fixpoint dict_get (d : Dict) (k : string) : option Value :=
  match d with
  | [] => None
  | (k', v) :: r => if String.eqb k' k then Some v else dict_get r k
  end.

(** [d.update({k: v})]. *)
Fixpoint dict_update (d : Dict) (k : string) (v : Value) : Dict :=
  match d with
  | [] => [(k, v)]
  | (k', v') :: r =>
      if String.eqb k' k then (k, v) :: r else (k', v') :: dict_update r k v
  end.

(** The two libraries behind [AuthService]: [bcrypt] (with the salt that
    [gensalt] draws as an argument; [None] is the [ValueError] with which
    it turns down a password or a hash, as it does a password of more
    than 72 bytes) and [jose.jwt] under the configured key and algorithm
    (with the clock that [decode] reads as an argument; [None] is its
    [JWTError]).  A token is opaque to the application. *)
Record Libraries : Type := mkLibraries {
  token : Type;
  hashpw : string -> string -> option string;
  checkpw : string -> string -> option bool;
  jwt_encode : Dict -> token;
  jwt_decode : Z -> token -> option Dict
}.

(** Clock readings are in seconds, and so is a [timedelta]. *)
Module AuthService.

(** [settings.ACCESS_TOKEN_EXPIRE_MINUTES], as [config.py] sets it. *)
Definition ACCESS_TOKEN_EXPIRE_MINUTES : Z := 30.

(** Neither method catches what [bcrypt] raises. *)
Definition hash_password (lib : Libraries) (salt password : string)
  : option string :=
  hashpw lib password salt.

Definition verify_password (lib : Libraries) (plain_password hashed_password : string)
  : option bool :=
  checkpw lib plain_password hashed_password.

Definition create_access_token (lib : Libraries) (now : Z) (data : Dict)
    (expires_delta : option Z) : token lib :=
  let to_encode := data in
  let expire :=
    match expires_delta with
    | Some delta =>
        (* [if expires_delta:] a zero [timedelta] is false *)
        if negb (delta =? 0) then now + delta
        else now + 60 * ACCESS_TOKEN_EXPIRE_MINUTES
    | None => now + 60 * ACCESS_TOKEN_EXPIRE_MINUTES
    end in
  jwt_encode lib (dict_update to_encode "exp" (VTime expire)).

(** [jose] accepts a ["sub"] claim only when it is a string. *)
Definition decode_token (lib : Libraries) (now : Z) (tok : token lib)
  : option string :=
  match jwt_decode lib now tok with
  | Some payload =>
      match dict_get payload "sub" with
      | Some (VStr username) => Some username
      | _ => None
      end
  | None => None
  end.

End AuthService.

(** The [Token] response. *)
Record Token (lib : Libraries) : Type := mkToken {
  access_token : token lib;
  token_type : string
}.
Arguments mkToken {lib} access_token token_type.
Arguments access_token {lib} t.
Arguments token_type {lib} t.

Module auth.

Definition register (lib : Libraries) (users : Users) (now : Z) (salt : string)
    (user_data : UserCreate.t) : outcome (Users * UserRow.t) :=
  match user_by_username users (UserCreate.username user_data) with
  | Raises e => Raises e
  | Returns (Some existing_user) =>
      Raises (UsernameExistsError (UserCreate.username user_data))
  | Returns None =>
      match AuthService.hash_password lib salt (UserCreate.password user_data) with
      | None => Raises ValueError
      | Some hashed_password =>
          let new_user :=
            UserRow.mk (next_user_id users) (UserCreate.username user_data)
              hashed_password now false in
          Returns (users ++ [new_user], new_user)
      end
  end.

Definition login (lib : Libraries) (users : Users) (now : Z)
    (form_username form_password : string) : outcome (Token lib) :=
  match user_by_username users (PyStr.lower form_username) with
  | Raises e => Raises e
  | Returns None => Raises InvalidCredentialsError
  | Returns (Some user) =>
      match AuthService.verify_password lib form_password
              (UserRow.hashed_password user) with
      | None => Raises ValueError
      | Some verified =>
          if negb verified then Raises InvalidCredentialsError
          else
            let access_token :=
              AuthService.create_access_token lib now
                [("sub"%string, VStr (UserRow.username user));
                 ("is_admin"%string, VBool (UserRow.is_admin user))]
                None in
            Returns (mkToken access_token "bearer")
      end
  end.

End auth.

Module dependencies.

Definition get_current_user (lib : Libraries) (users : Users) (now : Z)
    (tok : token lib) : outcome UserRow.t :=
  match AuthService.decode_token lib now tok with
  | None => Raises CredentialsException
  | Some username =>
      match user_by_username users username with
      | Raises e => Raises e
      | Returns None => Raises CredentialsException
      | Returns (Some user) => Returns user
      end
  end.

Definition get_current_admin_user (current_user : UserRow.t) : outcome UserRow.t :=
  if negb (UserRow.is_admin current_user) then Raises AdminRequired
  else Returns current_user.

End dependencies.

(** A registration request: its body is validated against [UserCreate]
    before the route runs. *)
Definition post_register (lib : Libraries) (users : Users) (now : Z) (salt : string)
    (body : UserCreate.t) : outcome (Users * UserRow.t) :=
  match UserCreate.validate body with
  | None => Raises RequestValidationError
  | Some user_data => auth.register lib users now salt user_data
  end.

(** The [users] table after a sequence of registration requests, each
    with its clock reading and its salt; a request that raises leaves the
    table as it was. *)
Fixpoint register_run (lib : Libraries) (users : Users)
    (requests : list (Z * string * UserCreate.t)) : Users :=
  match requests with
  | [] => users
  | (now, salt, body) :: rest =>
      match post_register lib users now salt body with
      | Returns (users', _) => register_run lib users' rest
      | Raises _ => register_run lib users rest
      end
  end.

(** ** Vocabulary of the account properties *)

(** A character that a username may hold. *)
Definition username_char (c : ascii) : bool :=
  PyStr.isalnum_char c || Ascii.eqb c "_" || Ascii.eqb c "-".

(** The usernames that [UserCreate] accepts: 3 to 50 letters, digits,
    underscores and hyphens, at least one of them a letter or a digit. *)
Definition username_accepted (v : string) : Prop :=
  3 <= Str.len v <= 50 /\
  forallb username_char (list_ascii_of_string v) = true /\
  existsb PyStr.isalnum_char (list_ascii_of_string v) = true.

(** What is asked of [bcrypt]: it verifies the hashes it made. *)
Definition bcrypt_verifies_own_hashes (lib : Libraries) : Prop :=
  forall password salt hashed,
    hashpw lib password salt = Some hashed ->
    checkpw lib password hashed = Some true.

(** What is asked of [jose.jwt]: a token it made decodes to its claims
    until the clock has passed their ["exp"], and not at all after. *)
Definition jwt_round_trip (lib : Libraries) : Prop :=
  forall claims exp now,
    dict_get claims "exp" = Some (VTime exp) ->
    jwt_decode lib now (jwt_encode lib claims)
    = if exp <? now then None else Some claims.

(** A stand-in for the two libraries: the hash is the password, turned
    down when it has more than 72 characters; the token is its claims. *)
Definition plain_libraries : Libraries :=
  mkLibraries Dict
    (fun password salt =>
       if 72 <? Str.len password then None else Some password)
    (fun password hashed =>
       if 72 <? Str.len password then None else Some (String.eqb password hashed))
    (fun claims => claims)
    (fun now tok =>
       match dict_get tok "exp" with
       | Some (VTime exp) => if exp <? now then None else Some tok
       | _ => Some tok
       end).

(** ** Vocabulary of the further properties *)

(** 99999999999999999999.999999995, half a unit of the eighth place
    below [10 ^ 20]. *)
Definition round8_limit : Decimal := mkDecimal (10 ^ 29 - 5) (-9).

(** 0.000000005, half a unit of the eighth place. *)
Definition half_unit8 : Decimal := mkDecimal 5 (-9).


(** A closed trade that neither won nor lost. *)
Definition is_flat (t : Trade) : bool := negb (Dec.truthy (pnl_of t)).

Ltac decide_by_computation :=
  vm_compute; repeat split; try reflexivity; try discriminate.

(** * Decimal arithmetic *)

Section DecimalFacts.

Lemma pow10_pos (k : Z) : 0 <= k -> 0 < 10 ^ k.
Proof. intros; apply Z.pow_pos_nonneg; lia. Qed.

Lemma ndigits_fuel_spec (f : nat) :
  forall n, 0 < n -> n < 10 * 2 ^ Z.of_nat f ->
  let d := ndigits_fuel f n in
  1 <= d /\ 10 ^ (d - 1) <= n < 10 ^ d.
Proof.
  induction f as [|f IH]; intros n Hpos Hlt; cbn [ndigits_fuel].
  - change (2 ^ Z.of_nat 0) with 1 in Hlt.
    cbn zeta. change (10 ^ (1 - 1)) with 1. change (10 ^ 1) with 10. lia.
  - destruct (n <? 10) eqn:E.
    + apply Z.ltb_lt in E. cbn zeta.
      change (10 ^ (1 - 1)) with 1. change (10 ^ 1) with 10. lia.
    + apply Z.ltb_ge in E.
      assert (H2 : 2 ^ Z.of_nat (S f) = 2 * 2 ^ Z.of_nat f).
      { rewrite Nat2Z.inj_succ, Z.pow_succ_r by lia. reflexivity. }
      assert (Hp : 0 < 2 ^ Z.of_nat f) by (apply Z.pow_pos_nonneg; lia).
      assert (Hq : 0 < n / 10) by (apply Z.div_str_pos; lia).
      assert (Hq' : n / 10 < 10 * 2 ^ Z.of_nat f).
      { apply Z.div_lt_upper_bound; lia. }
      specialize (IH (n / 10) Hq Hq'). cbn zeta in IH |- *.
      destruct IH as (Hd & Hlo & Hhi).
      set (d := ndigits_fuel f (n / 10)) in *.
      replace (1 + d - 1) with (Z.succ (d - 1)) by lia.
      replace (1 + d) with (Z.succ d) by lia.
      rewrite !Z.pow_succ_r by lia.
      pose proof (Z.div_mod n 10 ltac:(lia)) as Hdm.
      pose proof (Z.mod_pos_bound n 10 ltac:(lia)) as Hmb.
      lia.
Qed.

Lemma ndigits_spec (c : Z) :
  c <> 0 -> 1 <= ndigits c /\ 10 ^ (ndigits c - 1) <= Z.abs c < 10 ^ ndigits c.
Proof.
  intros Hc. unfold ndigits.
  assert (Hpos : 0 < Z.abs c) by lia.
  apply ndigits_fuel_spec; [assumption|].
  rewrite Z2Nat.id by apply Z.log2_nonneg.
  pose proof (Z.log2_spec (Z.abs c) Hpos) as [_ Hs].
  rewrite Z.pow_succ_r in Hs by apply Z.log2_nonneg.
  assert (0 < 2 ^ Z.log2 (Z.abs c)) by (apply Z.pow_pos_nonneg; [lia|apply Z.log2_nonneg]).
  lia.
Qed.

Lemma ndigits_le (c k : Z) : 1 <= k -> Z.abs c < 10 ^ k -> ndigits c <= k.
Proof.
  intros Hk Hlt.
  destruct (Z.eq_dec c 0) as [->|Hc]; [change (ndigits 0) with 1; lia|].
  destruct (ndigits_spec c Hc) as (Hd & Hlo & _).
  destruct (Z_le_gt_dec (ndigits c) k) as [|Hgt]; [assumption|exfalso].
  assert (10 ^ k <= 10 ^ (ndigits c - 1)) by (apply Z.pow_le_mono_r; lia).
  lia.
Qed.

(** A decimal that fits the context passes [_fix] unchanged. *)
Lemma fix_within_context (d : Decimal) : within_context d -> fix_ d = Ok d.
Proof.
  destruct d as [c e]. unfold within_context, fix_, Etiny, Etop, Emax, Emin, prec.
  cbn [coef dexp]. intros [Hc He].
  destruct (c =? 0) eqn:E0.
  - apply Z.eqb_eq in E0. subst c. do 2 f_equal. lia.
  - pose proof (ndigits_le c 28 ltac:(lia) Hc) as Hn.
    destruct (ndigits c + e - 28 >? 999999 - 28 + 1) eqn:E1.
    { apply Z.gtb_lt in E1. lia. }
    destruct (e <? Z.max (ndigits c + e - 28) (-999999 - 28 + 1)) eqn:E2.
    { apply Z.ltb_lt in E2. lia. }
    reflexivity.
Qed.

Lemma Q10_nonzero : ~ (10 == 0)%Q.
Proof. discriminate. Qed.

(** Padding a coefficient with zeros keeps the value. *)
Lemma to_Q_align (a : Decimal) (e : Z) :
  e <= dexp a -> (inject_Z (align a e) * Qpower 10 e == to_Q a)%Q.
Proof.
  intros He. unfold align, to_Q.
  rewrite inject_Z_mult, Zpower_Qpower by lia.
  change (inject_Z 10) with 10%Q.
  rewrite <- Qmult_assoc, <- Qpower_plus by exact Q10_nonzero.
  replace (dexp a - e + e) with (dexp a) by lia. reflexivity.
Qed.

Lemma to_Q_neg (a : Decimal) : (to_Q (neg a) == - to_Q a)%Q.
Proof.
  unfold to_Q, neg; cbn [coef dexp]. rewrite inject_Z_opp. ring.
Qed.

Lemma to_Q_exact_add (a b : Decimal) : (to_Q (exact_add a b) == to_Q a + to_Q b)%Q.
Proof.
  unfold exact_add.
  set (e := Z.min (dexp a) (dexp b)).
  rewrite <- (to_Q_align a e), <- (to_Q_align b e) by (subst e; lia).
  unfold to_Q; cbn [coef dexp]. rewrite inject_Z_plus. ring.
Qed.

Lemma to_Q_exact_sub (a b : Decimal) : (to_Q (exact_sub a b) == to_Q a - to_Q b)%Q.
Proof.
  unfold exact_sub. rewrite to_Q_exact_add, to_Q_neg. reflexivity.
Qed.

Lemma to_Q_exact_mul (a b : Decimal) : (to_Q (exact_mul a b) == to_Q a * to_Q b)%Q.
Proof.
  unfold exact_mul, to_Q; cbn [coef dexp].
  rewrite inject_Z_mult, Qpower_plus by exact Q10_nonzero. ring.
Qed.

End DecimalFacts.

(** * The profit-and-loss rule *)

Lemma to_Q_exact_pnl (t : Trade) (x : Decimal) :
  (to_Q (exact_pnl t x) == pnl_value t x)%Q.
Proof.
  unfold exact_pnl, exact_difference, pnl_value.
  rewrite to_Q_exact_mul.
  destruct (trade_type t); rewrite to_Q_exact_sub; reflexivity.
Qed.

Lemma calculate_pnl_unfold (t : Trade) (x : Decimal) :
  calculate_pnl t x =
  let* d := fix_ (exact_difference t x) in Dec.mul d (quantity t).
Proof.
  unfold calculate_pnl, exact_difference, Dec.sub.
  destruct (trade_type t); reflexivity.
Qed.

Lemma calculate_pnl_fits (t : Trade) (x : Decimal) :
  within_context (exact_difference t x) ->
  within_context (exact_pnl t x) ->
  calculate_pnl t x = Ok (exact_pnl t x).
Proof.
  intros Hd Hp.
  rewrite calculate_pnl_unfold, (fix_within_context _ Hd). cbn [bind].
  unfold Dec.mul. apply fix_within_context. exact Hp.
Qed.

(** On stored eight-place prices the rule is exact as long as the
    difference times the quantity, in units of [10 ^ -16], stays below
    [10 ^ 28]. *)
Lemma calculate_pnl_exact_places8 (t : Trade) (x : Decimal) :
  places8 (entry_price t) -> places8 (quantity t) -> places8 x ->
  Z.abs (coef x - coef (entry_price t)) * coef (quantity t) < 10 ^ 28 ->
  exists r, calculate_pnl t x = Ok r /\ (to_Q r == pnl_value t x)%Q.
Proof.
  intros [Hee Hec] [Hqe Hqc] [Hxe Hxc] Hfit.
  exists (exact_pnl t x). split; [|apply to_Q_exact_pnl].
  apply calculate_pnl_fits;
    unfold exact_pnl, exact_mul, exact_difference, exact_sub, exact_add,
      within_context, align, neg, Etiny, Etop, Emin, Emax, prec;
    destruct (trade_type t); cbn [coef dexp]; rewrite Hee, Hxe, ?Hqe;
    change (Z.min (-8) (-8)) with (-8); change (10 ^ (-8 - -8)) with 1;
    rewrite ?Z.abs_mul, ?(Z.abs_eq (coef (quantity t))) by lia;
    (split; [|lia]); try lia;
    replace (Z.abs (coef (entry_price t) * 1 + - coef x * 1))
      with (Z.abs (coef x - coef (entry_price t))) by lia;
    replace (Z.abs (coef x * 1 + - coef (entry_price t) * 1))
      with (Z.abs (coef x - coef (entry_price t))) by lia;
    lia.
Qed.

(** C1 (amended): whenever the difference of the two prices and its
    product with the quantity each fit the 28 significant digits (and the
    exponent range) of the decimal context, [calculate_pnl] returns
    without raising and its result is exactly [(x - e) * q] for a BUY
    trade and [(e - x) * q] for a SELL trade. *)
Theorem calculate_pnl_exact (t : Trade) (x : Decimal) :
  within_context (exact_difference t x) ->
  within_context (exact_pnl t x) ->
  exists r, calculate_pnl t x = Ok r /\ (to_Q r == pnl_value t x)%Q.
Proof.
  intros Hd Hp. exists (exact_pnl t x). split.
  - apply calculate_pnl_fits; assumption.
  - apply to_Q_exact_pnl.
Qed.

Lemma calculate_pnl_exact_witness :
  within_context (exact_difference scenario_long (mkDecimal 5500000000000 (-8))) /\
  within_context (exact_pnl scenario_long (mkDecimal 5500000000000 (-8))) /\
  exists r, calculate_pnl scenario_long (mkDecimal 5500000000000 (-8)) = Ok r /\
            (to_Q r == pnl_value scenario_long (mkDecimal 5500000000000 (-8)))%Q.
Proof.
  assert (H1 : within_context
                 (exact_difference scenario_long (mkDecimal 5500000000000 (-8))))
    by decide_by_computation.
  assert (H2 : within_context
                 (exact_pnl scenario_long (mkDecimal 5500000000000 (-8))))
    by decide_by_computation.
  split; [exact H1|split; [exact H2|]].
  exact (calculate_pnl_exact scenario_long _ H1 H2).
Defined.

(** C1, as stated, fails beyond 28 digits: a BUY trade entered at
    0.00000001 with quantity 33333333333333333333.33333333 and closed at
    0.00000008 has the exact P&L 2333333333333.3333333333333331, and
    [calculate_pnl] returns 2333333333333.333333333333333. *)
Lemma calculate_pnl_rounds_wide_product :
  Dec.gtb (entry_price wide_trade) Dec.zero = true /\
  Dec.gtb (quantity wide_trade) Dec.zero = true /\
  Dec.gtb (mkDecimal 8 (-8)) Dec.zero = true /\
  calculate_pnl wide_trade (mkDecimal 8 (-8))
    = Ok (mkDecimal 2333333333333333333333333333 (-15)) /\
  ~ (to_Q (mkDecimal 2333333333333333333333333333 (-15))
       == pnl_value wide_trade (mkDecimal 8 (-8)))%Q.
Proof.
  repeat split; try (vm_compute; reflexivity).
  vm_compute. discriminate.
Qed.

(** * Rounding to eight places *)

Section Rounding.

Lemma gtb_false (a b : Z) : a <= b -> (a >? b) = false.
Proof. intros. rewrite Z.gtb_ltb. apply Z.ltb_ge. assumption. Qed.

Lemma gtb_zero (x : Decimal) : Dec.gtb x Dec.zero = true <-> 0 < coef x.
Proof.
  unfold Dec.gtb, Dec.ltb, Dec.cmp, align, Dec.zero; cbn [coef dexp].
  set (m := Z.min 0 (dexp x)).
  assert (Hp : 0 < 10 ^ (dexp x - m)) by (apply pow10_pos; lia).
  rewrite Z.mul_0_l.
  destruct (0 ?= coef x * 10 ^ (dexp x - m)) eqn:E.
  - apply Z.compare_eq_iff in E. split; [discriminate|nia].
  - rewrite Z.compare_lt_iff in E. split; [nia|reflexivity].
  - rewrite Z.compare_gt_iff in E. split; [discriminate|nia].
Qed.

Lemma ltb_zero (x : Decimal) : Dec.ltb x Dec.zero = true <-> coef x < 0.
Proof.
  unfold Dec.ltb, Dec.cmp, align, Dec.zero; cbn [coef dexp].
  set (m := Z.min (dexp x) 0).
  assert (Hp : 0 < 10 ^ (dexp x - m)) by (apply pow10_pos; lia).
  rewrite Z.mul_0_l.
  destruct (coef x * 10 ^ (dexp x - m) ?= 0) eqn:E.
  - apply Z.compare_eq_iff in E. split; [discriminate|nia].
  - rewrite Z.compare_lt_iff in E. split; [nia|reflexivity].
  - rewrite Z.compare_gt_iff in E. split; [discriminate|nia].
Qed.

Lemma leb_max8 (x : Decimal) :
  Dec_leb x max8 = true ->
  coef x * 10 ^ (dexp x - Z.min (-8) (dexp x))
  <= (10 ^ 28 - 1) * 10 ^ (-8 - Z.min (-8) (dexp x)).
Proof.
  unfold Dec_leb, Dec.ltb, Dec.cmp, align, max8; cbn [coef dexp].
  destruct (_ ?= _) eqn:E; try discriminate; intros _.
  - apply Z.compare_eq_iff in E. lia.
  - rewrite Z.compare_gt_iff in E. lia.
Qed.

Lemma round_half_even_cases (m k : Z) :
  (round_half_even m k = m / 10 ^ k /\ 2 * (m mod 10 ^ k) <= 10 ^ k) \/
  (round_half_even m k = m / 10 ^ k + 1 /\ 10 ^ k <= 2 * (m mod 10 ^ k)).
Proof.
  unfold round_half_even.
  destruct (2 * (m mod 10 ^ k) >? 10 ^ k) eqn:E1; cbn [orb].
  - right. apply Z.gtb_lt in E1. lia.
  - rewrite Z.gtb_ltb in E1. apply Z.ltb_ge in E1.
    destruct (2 * (m mod 10 ^ k) =? 10 ^ k) eqn:E2; cbn [andb].
    + apply Z.eqb_eq in E2. destruct (Z.odd (m / 10 ^ k)); [right|left]; lia.
    + left. lia.
Qed.

Lemma round_half_even_bounds (m k M : Z) :
  0 <= m -> 0 <= k -> m <= M * 10 ^ k -> 0 <= round_half_even m k <= M.
Proof.
  intros Hm Hk HM.
  pose proof (pow10_pos k Hk) as Hp.
  pose proof (Z.div_mod m (10 ^ k) ltac:(lia)) as Hdm.
  pose proof (Z.mod_pos_bound m (10 ^ k) Hp) as Hr.
  assert (Hq : 0 <= m / 10 ^ k) by (apply Z.div_pos; lia).
  destruct (round_half_even_cases m k) as [[-> H]|[-> H]]; nia.
Qed.

Lemma round_half_even_error (m k : Z) :
  0 <= k -> 2 * Z.abs (round_half_even m k * 10 ^ k - m) <= 10 ^ k.
Proof.
  intros Hk.
  pose proof (pow10_pos k Hk) as Hp.
  pose proof (Z.div_mod m (10 ^ k) ltac:(lia)) as Hdm.
  pose proof (Z.mod_pos_bound m (10 ^ k) Hp) as Hr.
  destruct (round_half_even_cases m k) as [[-> H]|[-> H]]; nia.
Qed.

(** A positive value up to [max8] has at most 20 digits before the
    point. *)
Lemma digits_below_max8 (c e : Z) :
  0 < c ->
  c * 10 ^ (e - Z.min (-8) e) <= (10 ^ 28 - 1) * 10 ^ (-8 - Z.min (-8) e) ->
  ndigits c + e + 8 <= 28.
Proof.
  intros Hc Hle.
  destruct (ndigits_spec c ltac:(lia)) as (Hd & Hlo & _).
  rewrite Z.abs_eq in Hlo by lia.
  destruct (Z_le_gt_dec (ndigits c + e + 8) 28) as [|Hgt]; [assumption|exfalso].
  destruct (Z_le_gt_dec (-8) e) as [He|He].
  - rewrite Z.min_l in Hle by lia.
    replace (-8 - -8) with 0 in Hle by lia. rewrite Z.pow_0_r in Hle.
    assert (H1 : 10 ^ 28 <= 10 ^ (ndigits c - 1) * 10 ^ (e - -8)).
    { rewrite <- Z.pow_add_r by lia. apply Z.pow_le_mono_r; lia. }
    pose proof (pow10_pos (e - -8) ltac:(lia)). nia.
  - rewrite Z.min_r in Hle by lia.
    replace (e - e) with 0 in Hle by lia. rewrite Z.pow_0_r in Hle.
    assert (H1 : 10 ^ 28 * 10 ^ (-8 - e) <= 10 ^ (ndigits c - 1)).
    { rewrite <- Z.pow_add_r by lia. apply Z.pow_le_mono_r; lia. }
    pose proof (pow10_pos (-8 - e) ltac:(lia)). nia.
Qed.

Lemma rescale8_places (x : Decimal) :
  Dec.gtb x Dec.zero = true -> Dec_leb x max8 = true -> places8 (rescale x (-8)).
Proof.
  intros Hpos Hle. apply gtb_zero in Hpos. apply leb_max8 in Hle.
  destruct x as [c e]; cbn [coef dexp] in *.
  unfold rescale, places8; cbn [coef dexp].
  destruct (c =? 0) eqn:E0; [apply Z.eqb_eq in E0; lia|].
  destruct (e >=? -8) eqn:E1; cbn [coef dexp].
  - rewrite Z.geb_leb in E1. apply Z.leb_le in E1.
    rewrite Z.min_l in Hle by lia.
    replace (-8 - -8) with 0 in Hle by lia. rewrite Z.pow_0_r in Hle.
    unfold align; cbn [coef dexp].
    pose proof (pow10_pos (e - -8) ltac:(lia)). split; [reflexivity|nia].
  - rewrite Z.geb_leb in E1. apply Z.leb_gt in E1.
    rewrite Z.min_r in Hle by lia.
    replace (e - e) with 0 in Hle by lia. rewrite Z.pow_0_r in Hle.
    rewrite Z.abs_eq, Z.sgn_pos by lia.
    pose proof (round_half_even_bounds c (-8 - e) (10 ^ 28 - 1)
                  ltac:(lia) ltac:(lia) ltac:(lia)).
    split; [reflexivity|lia].
Qed.

Lemma places8_within_context (d : Decimal) : places8 d -> within_context d.
Proof.
  unfold places8, within_context, Etiny, Etop, Emin, Emax, prec.
  intros [-> H]. rewrite Z.abs_eq by lia. lia.
Qed.

(** [round(x, 8)] succeeds on every positive value up to [max8]. *)
Lemma round8_ok (x : Decimal) :
  Dec.gtb x Dec.zero = true -> Dec_leb x max8 = true ->
  Dec.round_ x 8 = Ok (rescale x (-8)).
Proof.
  intros Hpos Hle.
  pose proof (rescale8_places x Hpos Hle) as Hp8.
  pose proof (places8_within_context _ Hp8) as Hwc.
  destruct Hp8 as [He8 Hc8].
  apply gtb_zero in Hpos. apply leb_max8 in Hle.
  pose proof (digits_below_max8 _ _ Hpos Hle) as Hnd.
  unfold Dec.round_. change (- (8)) with (-8).
  unfold quantize, adjusted, Emax, prec.
  replace (coef x =? 0) with false by (symmetry; apply Z.eqb_neq; lia).
  rewrite !gtb_false by lia.
  rewrite He8.
  pose proof (ndigits_le (coef (rescale x (-8))) 28 ltac:(lia)
                ltac:(rewrite Z.abs_eq; lia)) as Hn.
  rewrite !gtb_false by lia.
  apply fix_within_context. exact Hwc.
Qed.

Lemma Qabs_inject_Z (z : Z) : Qabs (inject_Z z) = inject_Z (Z.abs z).
Proof. reflexivity. Qed.

(** The rescaled value is a nearest multiple of [10 ^ e]. *)
Lemma rescale_nearest (x : Decimal) (e : Z) :
  (Qabs (to_Q (rescale x e) - to_Q x) <= (1 # 2) * Qpower 10 e)%Q.
Proof.
  assert (Hpow : forall z, (0 < Qpower 10 z)%Q) by (intro; apply Qpower_0_lt; reflexivity).
  unfold rescale.
  destruct (coef x =? 0) eqn:E0.
  { apply Z.eqb_eq in E0. unfold to_Q; cbn [coef dexp]. rewrite E0.
    setoid_replace (inject_Z 0 * 10 ^ e - inject_Z 0 * 10 ^ dexp x)%Q with 0%Q by ring.
    cbn [Qabs Z.abs Qnum Qden]. specialize (Hpow e).
    apply Qmult_le_0_compat; [discriminate|apply Qlt_le_weak; assumption]. }
  destruct (dexp x >=? e) eqn:E1.
  { rewrite Z.geb_leb in E1. apply Z.leb_le in E1.
    unfold to_Q at 1; cbn [coef dexp]. rewrite to_Q_align by lia.
    setoid_replace (to_Q x - to_Q x)%Q with 0%Q by ring.
    cbn [Qabs Z.abs Qnum Qden]. specialize (Hpow e).
    apply Qmult_le_0_compat; [discriminate|apply Qlt_le_weak; assumption]. }
  rewrite Z.geb_leb in E1. apply Z.leb_gt in E1.
  set (k := e - dexp x).
  set (q := round_half_even (Z.abs (coef x)) k).
  pose proof (round_half_even_error (Z.abs (coef x)) k ltac:(lia)) as Herr.
  fold q in Herr.
  unfold to_Q; cbn [coef dexp].
  assert (He : (Qpower 10 e == inject_Z (10 ^ k) * Qpower 10 (dexp x))%Q).
  { rewrite Zpower_Qpower by lia. change (inject_Z 10) with 10%Q.
    rewrite <- Qpower_plus by exact Q10_nonzero.
    replace (k + dexp x) with e by lia. reflexivity. }
  rewrite He.
  setoid_replace (inject_Z (Z.sgn (coef x) * q) * (inject_Z (10 ^ k) * 10 ^ dexp x)
                  - inject_Z (coef x) * 10 ^ dexp x)%Q
    with (inject_Z (Z.sgn (coef x) * q * 10 ^ k - coef x) * 10 ^ dexp x)%Q
    by (unfold Zminus; rewrite inject_Z_plus, inject_Z_opp, !inject_Z_mult; ring).
  rewrite Qabs_Qmult, (Qabs_pos (10 ^ dexp x)) by (apply Qlt_le_weak, Hpow).
  rewrite Qmult_assoc. apply Qmult_le_compat_r; [|apply Qlt_le_weak, Hpow].
  rewrite Qabs_inject_Z.
  assert (Hz : 2 * Z.abs (Z.sgn (coef x) * q * 10 ^ k - coef x) <= 10 ^ k).
  { replace (Z.sgn (coef x) * q * 10 ^ k - coef x)
      with (Z.sgn (coef x) * (q * 10 ^ k - Z.abs (coef x))).
    - rewrite Z.abs_mul. apply Z.eqb_neq in E0.
      replace (Z.abs (Z.sgn (coef x))) with 1 by lia. lia.
    - apply Z.eqb_neq in E0.
      assert (Hs : Z.sgn (coef x) = 1 /\ Z.abs (coef x) = coef x \/
                   Z.sgn (coef x) = -1 /\ Z.abs (coef x) = - coef x) by lia.
      destruct Hs as [[-> ->]|[-> ->]]; ring. }
  rewrite Zle_Qle, inject_Z_mult in Hz.
  change (inject_Z 2) with 2%Q in Hz.
  set (a := inject_Z (Z.abs (Z.sgn (coef x) * q * 10 ^ k - coef x))) in *.
  set (b := inject_Z (10 ^ k)) in *.
  setoid_replace a with ((1 # 2) * (2 * a))%Q by field.
  apply Qmult_le_l; [reflexivity|assumption].
Qed.

End Rounding.

(** * The table and its primary key *)

Section Table.

Lemma filter_id_absent (f : Trade -> bool) (i : Z) (db : Db) :
  ~ In i (map id db) -> filter (fun r => (id r =? i) && f r) db = [].
Proof.
  induction db as [|a db IH]; intros Hni; cbn [filter]; [reflexivity|].
  cbn [map] in Hni.
  replace (id a =? i) with false
    by (symmetry; apply Z.eqb_neq; intros E; apply Hni; left; exact E).
  cbn [andb]. apply IH. intros H. apply Hni. right. exact H.
Qed.

(** Under the primary key, the rows with the key of [t] are [t] alone. *)
Lemma filter_id_unique (f : Trade -> bool) (db : Db) (t : Trade) :
  db_wf db -> In t db ->
  filter (fun r => (id r =? id t) && f r) db = if f t then [t] else [].
Proof.
  unfold db_wf. induction db as [|a db IH]; intros Hwf Hin; [destruct Hin|].
  cbn [map] in Hwf. apply NoDup_cons_iff in Hwf. destruct Hwf as [Hni Hwf].
  cbn [filter]. destruct Hin as [->|Hin].
  - rewrite Z.eqb_refl. cbn [andb].
    rewrite (filter_id_absent f (id t) db Hni). reflexivity.
  - replace (id a =? id t) with false.
    + cbn [andb]. apply IH; assumption.
    + symmetry. apply Z.eqb_neq. intros E. apply Hni. rewrite E.
      apply in_map. exact Hin.
Qed.

Lemma get_trade_by_id_owned (db : Db) (t : Trade) :
  db_wf db -> In t db ->
  TradeService.get_trade_by_id db (id t) (user_id t) = Ok (Some t).
Proof.
  intros Hwf Hin. unfold TradeService.get_trade_by_id.
  rewrite (filter_id_unique (fun r => user_id r =? user_id t) db t Hwf Hin).
  rewrite Z.eqb_refl. reflexivity.
Qed.

Lemma get_trade_by_id_foreign (db : Db) (t : Trade) (uid : Z) :
  db_wf db -> In t db -> user_id t <> uid ->
  TradeService.get_trade_by_id db (id t) uid = Ok None.
Proof.
  intros Hwf Hin Hne. unfold TradeService.get_trade_by_id.
  rewrite (filter_id_unique (fun r => user_id r =? uid) db t Hwf Hin).
  replace (user_id t =? uid) with false by (symmetry; apply Z.eqb_neq; exact Hne).
  reflexivity.
Qed.

Lemma get_trade_by_id_absent (db : Db) (tid uid : Z) :
  ~ In tid (map id db) -> TradeService.get_trade_by_id db tid uid = Ok None.
Proof.
  intros H. unfold TradeService.get_trade_by_id.
  rewrite (filter_id_absent (fun r => user_id r =? uid) tid db H). reflexivity.
Qed.

(** What a lookup can return under the primary key. *)
Lemma get_trade_by_id_spec (db : Db) (tid uid : Z) :
  db_wf db ->
  (exists t, In t db /\ id t = tid /\ user_id t = uid /\
             TradeService.get_trade_by_id db tid uid = Ok (Some t)) \/
  ((forall t, In t db -> id t = tid -> user_id t <> uid) /\
   TradeService.get_trade_by_id db tid uid = Ok None).
Proof.
  intros Hwf.
  destruct (in_dec Z.eq_dec tid (map id db)) as [Hin|Hni].
  - apply in_map_iff in Hin. destruct Hin as (t & <- & Hin).
    destruct (Z.eq_dec (user_id t) uid) as [<-|Hne].
    + left. exists t. repeat split; try assumption.
      apply get_trade_by_id_owned; assumption.
    + right. split; [|apply get_trade_by_id_foreign; assumption].
      intros t' Hin' Hid Hu.
      assert (Hf := filter_id_unique (fun _ => true) db t Hwf Hin).
      assert (Hin2 : In t' (filter (fun r => (id r =? id t) && true) db)).
      { apply filter_In. split; [assumption|]. rewrite Hid, Z.eqb_refl. reflexivity. }
      rewrite Hf in Hin2. destruct Hin2 as [->|[]]. contradiction.
  - right. split; [|apply get_trade_by_id_absent; assumption].
    intros t Hin Hid _. apply Hni. rewrite <- Hid. apply in_map. exact Hin.
Qed.

Lemma commit_row_ids (db : Db) (t : Trade) : map id (commit_row db t) = map id db.
Proof.
  unfold commit_row. rewrite map_map. apply map_ext_in. intros r _.
  destruct (id r =? id t) eqn:E; [apply Z.eqb_eq in E; congruence|reflexivity].
Qed.

Lemma commit_row_wf (db : Db) (t : Trade) : db_wf db -> db_wf (commit_row db t).
Proof. unfold db_wf. rewrite commit_row_ids. trivial. Qed.

(** A commit keeps every row whose key differs from the committed one. *)
Lemma commit_row_other (db : Db) (t r : Trade) :
  In r db -> id r <> id t -> In r (commit_row db t).
Proof.
  intros Hin Hne. unfold commit_row. apply in_map_iff. exists r. split; [|assumption].
  replace (id r =? id t) with false by (symmetry; apply Z.eqb_neq; exact Hne).
  reflexivity.
Qed.

Lemma commit_row_stored (db : Db) (t t' : Trade) :
  In t db -> id t' = id t -> In t' (commit_row db t').
Proof.
  intros Hin Hid. unfold commit_row. apply in_map_iff. exists t. split; [|assumption].
  rewrite Hid, Z.eqb_refl. reflexivity.
Qed.

(** Every row of the table after a commit is the committed row or an
    untouched row of the table before. *)
Lemma commit_row_inv (db : Db) (t r : Trade) :
  In r (commit_row db t) -> r = t \/ (In r db /\ id r <> id t).
Proof.
  unfold commit_row. intros H. apply in_map_iff in H. destruct H as (r0 & Hr & Hin).
  destruct (id r0 =? id t) eqn:E.
  - left. congruence.
  - right. subst r0. apply Z.eqb_neq in E. split; assumption.
Qed.

Lemma next_id_fresh (db : Db) : forall t, In t db -> id t < next_id db.
Proof.
  unfold next_id. induction db as [|a db IH]; intros t Hin; [destruct Hin|].
  cbn [map fold_right]. destruct Hin as [->|Hin].
  - lia.
  - specialize (IH t Hin). lia.
Qed.

Lemma commit_numeric_inv (engine : Engine) (v r : Decimal) :
  commit_numeric engine v = Ok r <-> numeric_18_8 engine v = Some r.
Proof.
  unfold commit_numeric. destruct (numeric_18_8 engine v); split; congruence.
Qed.

Lemma commit_numeric_err (engine : Engine) (v : Decimal) (e : Error) :
  commit_numeric engine v = Err e -> e = DBAPIError.
Proof.
  unfold commit_numeric. destruct (numeric_18_8 engine v); congruence.
Qed.

(** What a creation that succeeded did. *)
Lemma create_trade_inv (engine : Engine) (db db' : Db) (now uid : Z)
    (data : TradeCreate.t) (t : Trade) :
  TradeService.create_trade engine db now uid data = Ok (db', t) ->
  exists e q,
    numeric_18_8 engine (TradeCreate.entry_price data) = Some e /\
    numeric_18_8 engine (TradeCreate.quantity data) = Some q /\
    t = mkTrade (next_id db) uid (TradeCreate.symbol data) e q
          (TradeCreate.trade_type data) OPEN None None now None /\
    db' = db ++ [t].
Proof.
  unfold TradeService.create_trade, commit_numeric.
  destruct (numeric_18_8 engine (TradeCreate.entry_price data)) as [e|];
    cbn [bind]; [|discriminate].
  destruct (numeric_18_8 engine (TradeCreate.quantity data)) as [q|];
    cbn [bind]; [|discriminate].
  intros H. injection H as <- <-. exists e, q. repeat split.
Qed.

Lemma create_trade_err (engine : Engine) (db : Db) (now uid : Z)
    (data : TradeCreate.t) (e : Error) :
  TradeService.create_trade engine db now uid data = Err e -> e = DBAPIError.
Proof.
  unfold TradeService.create_trade, commit_numeric.
  destruct (numeric_18_8 engine (TradeCreate.entry_price data)); cbn [bind];
    [|congruence].
  destruct (numeric_18_8 engine (TradeCreate.quantity data)); cbn [bind];
    [discriminate|congruence].
Qed.

Lemma create_trade_wf (engine : Engine) (db db' : Db) (now uid : Z)
    (data : TradeCreate.t) (t : Trade) :
  db_wf db ->
  TradeService.create_trade engine db now uid data = Ok (db', t) ->
  db_wf db'.
Proof.
  intros Hwf H. apply create_trade_inv in H.
  destruct H as (e & q & _ & _ & Ht & ->).
  unfold db_wf in *. rewrite map_app. cbn [map]. rewrite Ht. cbn [id].
  apply NoDup_app; [assumption|constructor; [intros []|constructor]|].
  intros i Hi [<-|[]]. apply in_map_iff in Hi. destruct Hi as (t0 & E & Hin).
  pose proof (next_id_fresh db t0 Hin). lia.
Qed.

End Table.

(** * Closing a trade *)

(** [_fix] raises only on overflow, out of reach of a value whose leading
    digit stays below the largest exponent. *)
Lemma fix_total (d : Decimal) : adjusted d < Emax -> exists r, fix_ d = Ok r.
Proof.
  unfold adjusted, fix_, Etop, Etiny, Emin, Emax, prec. intros H.
  destruct (coef d =? 0); [eexists; reflexivity|].
  rewrite gtb_false by lia.
  destruct (dexp d <? _); [|eexists; reflexivity].
  destruct (ndigits _ >? 28); rewrite gtb_false by lia; eexists; reflexivity.
Qed.

(** On prices and quantities of eight places the rule never raises. *)
Lemma calculate_pnl_total (t : Trade) (x : Decimal) :
  places8 (entry_price t) -> places8 (quantity t) -> places8 x ->
  exists pnl, calculate_pnl t x = Ok pnl.
Proof.
  intros [Hee Hec] [Hqe Hqc] [Hxe Hxc].
  assert (Hd : within_context (exact_difference t x) /\
               dexp (exact_difference t x) = -8 /\
               Z.abs (coef (exact_difference t x)) < 10 ^ 28).
  { unfold exact_difference, exact_sub, exact_add, within_context, align, neg,
      Etiny, Etop, Emin, Emax, prec.
    destruct (trade_type t); cbn [coef dexp]; rewrite Hee, Hxe;
      change (Z.min (-8) (-8)) with (-8); change (10 ^ (-8 - -8)) with 1; lia. }
  destruct Hd as (Hwc & Hde & Hdc).
  rewrite calculate_pnl_unfold, (fix_within_context _ Hwc). cbn [bind].
  apply fix_total. unfold adjusted, exact_mul, Emax; cbn [coef dexp].
  rewrite Hde, Hqe.
  assert (Hn : ndigits (coef (exact_difference t x) * coef (quantity t)) <= 56).
  { apply ndigits_le; [lia|]. rewrite Z.abs_mul.
    change (10 ^ 56) with (10 ^ 28 * 10 ^ 28).
    rewrite (Z.abs_eq (coef (quantity t))) by lia.
    assert (0 < 10 ^ 28) by (apply pow10_pos; lia). nia. }
  lia.
Qed.

Lemma eqb_eight_places (x : Decimal) :
  dexp x = -8 -> Dec.eqb x (mkDecimal (coef x) (-8)) = true.
Proof.
  intros E. unfold Dec.eqb, Dec.cmp, align. cbn [coef dexp]. rewrite E.
  rewrite Z.compare_refl. reflexivity.
Qed.

(** PostgreSQL keeps whatever fits its [numeric(18,8)]. *)
Lemma PostgreSQL_stores_exactly : stores_exactly PostgreSQL.engine (10 ^ 18).
Proof.
  intros [cd ed] c Heq Hc. cbn [numeric_18_8 PostgreSQL.engine].
  unfold PostgreSQL.numeric_18_8. cbn [coef dexp].
  unfold Dec.eqb, Dec.cmp, align in Heq. cbn [coef dexp] in Heq.
  destruct (_ ?= _) eqn:E in Heq; try discriminate. apply Z.compare_eq_iff in E.
  assert (Hc' : forall c', c' = c ->
            (if Z.abs c' <? 10 ^ 10 * 10 ^ 8 then Some (mkDecimal c' (-8)) else None)
            = Some (mkDecimal c (-8))).
  { intros c' ->. change (10 ^ 10 * 10 ^ 8) with (10 ^ 18).
    replace (Z.abs c <? 10 ^ 18) with true by (symmetry; apply Z.ltb_lt; exact Hc).
    reflexivity. }
  apply Hc'.
  destruct (ed >=? -8) eqn:G.
  - rewrite Z.geb_leb in G. apply Z.leb_le in G. rewrite Z.min_r in E by lia.
    replace (-8 - -8) with 0 in E by lia. rewrite Z.pow_0_r, Z.mul_1_r in E.
    unfold align. cbn [coef dexp]. exact E.
  - rewrite Z.geb_leb in G. apply Z.leb_gt in G. rewrite Z.min_l in E by lia.
    replace (ed - ed) with 0 in E by lia. rewrite Z.pow_0_r, Z.mul_1_r in E.
    set (k := -8 - ed) in *. assert (Hk : 0 < k) by (subst k; lia).
    pose proof (pow10_pos k ltac:(lia)) as Hp.
    unfold PostgreSQL.round_half_away.
    assert (Habs : Z.abs cd = Z.abs c * 10 ^ k)
      by (rewrite E, Z.abs_mul, (Z.abs_eq (10 ^ k)) by lia; reflexivity).
    rewrite Habs, Z.div_mul, Z.mod_mul by lia.
    replace (2 * 0 >=? 10 ^ k) with false
      by (symmetry; rewrite Z.geb_leb; apply Z.leb_gt; lia).
    rewrite E, Z.sgn_mul, (Z.sgn_pos (10 ^ k)) by lia. rewrite Z.mul_1_r.
    lia.
Qed.

(** C2 (amended): for every OPEN trade, closed by its owner at an exit
    price above zero and not above 99999999999999999999.99999999, the
    exit price is rounded half-even to eight places, [calculate_pnl] is
    applied to the rounded price and the stored direction, entry price
    and quantity, and the rounded price and the profit are committed to
    their [Numeric(18, 8)] columns: the trade becomes [closed_row]
    ([status] CLOSED, [exit_price] and [realized_pnl] as the database
    stored them, [closed_at] the current time) and the table holds that
    row; what the rule or the commit raises leaves the table as it was.
    On stored eight-place entry prices and quantities the rule does
    return; and on an engine that keeps what fits the column, a rounded
    price and a profit of no more than eight places that fit are
    recorded as they are. *)
Theorem close_open_trade (engine : Engine) (db : Db) (now : Z)
    (current_user : User.t) (t : Trade) (x : Decimal) :
  db_wf db -> In t db -> user_id t = User.id current_user -> status t = OPEN ->
  Dec.gtb x Dec.zero = true -> Dec_leb x max8 = true ->
  exists x',
    Dec.round_ x 8 = Ok x' /\
    places8 x' /\
    (Qabs (to_Q x' - to_Q x) <= (1 # 2) * Qpower 10 (-8))%Q /\
    patch_trades_close engine db now current_user (id t) (TradeClose.mk x)
      = (let* pnl := calculate_pnl t x' in
         let* stored_price := commit_numeric engine x' in
         let* stored_pnl := commit_numeric engine pnl in
         Ok (commit_row db (closed_row t stored_price stored_pnl now),
             closed_row t stored_price stored_pnl now)) /\
    (forall stored_price stored_pnl,
        In (closed_row t stored_price stored_pnl now)
           (commit_row db (closed_row t stored_price stored_pnl now))) /\
    (forall e, patch_trades_close engine db now current_user (id t) (TradeClose.mk x)
               = Err e -> e = Overflow \/ e = DBAPIError) /\
    (places8 (entry_price t) -> places8 (quantity t) ->
     exists pnl, calculate_pnl t x' = Ok pnl) /\
    (forall B pnl c,
        stores_exactly engine B -> coef x' < B ->
        calculate_pnl t x' = Ok pnl ->
        Dec.eqb pnl (mkDecimal c (-8)) = true -> Z.abs c < B ->
        patch_trades_close engine db now current_user (id t) (TradeClose.mk x)
        = Ok (commit_row db (closed_row t x' (mkDecimal c (-8)) now),
              closed_row t x' (mkDecimal c (-8)) now)).
Proof.
  intros Hwf Hin Hown Hopen Hpos Hle.
  pose proof (round8_ok x Hpos Hle) as Hround.
  pose proof (rescale8_places x Hpos Hle) as Hx8.
  exists (rescale x (-8)).
  assert (Hrun :
    patch_trades_close engine db now current_user (id t) (TradeClose.mk x)
    = (let* pnl := calculate_pnl t (rescale x (-8)) in
       let* stored_price := commit_numeric engine (rescale x (-8)) in
       let* stored_pnl := commit_numeric engine pnl in
       Ok (commit_row db (closed_row t stored_price stored_pnl now),
           closed_row t stored_price stored_pnl now))).
  { unfold patch_trades_close, TradeClose.validate, decimal_field_gt0,
      TradeClose.validate_precision.
    cbn [TradeClose.exit_price]. rewrite Hpos, Hround. cbn [bind].
    unfold trades.close_trade. rewrite <- Hown, (get_trade_by_id_owned db t Hwf Hin).
    cbn [bind]. rewrite Hopen. cbn [TradeStatus_eqb TradeClose.exit_price].
    reflexivity. }
  split; [exact Hround|]. split; [exact Hx8|].
  split; [apply rescale_nearest|]. split; [exact Hrun|].
  split; [|split; [|split]].
  - intros sx sp. apply (commit_row_stored db t); [exact Hin|reflexivity].
  - intros e. rewrite Hrun.
    destruct (calculate_pnl t (rescale x (-8))) as [pnl|e0] eqn:Hp; cbn [bind].
    + destruct (commit_numeric engine (rescale x (-8))) as [sx|e1] eqn:Hsx; cbn [bind].
      * destruct (commit_numeric engine pnl) as [sp|e2] eqn:Hsp; cbn [bind];
          [discriminate|].
        intros H. injection H as <-. right. exact (commit_numeric_err _ _ _ Hsp).
      * intros H. injection H as <-. right. exact (commit_numeric_err _ _ _ Hsx).
    + intros H. injection H as <-. left.
      rewrite calculate_pnl_unfold in Hp.
      destruct (fix_ (exact_difference t (rescale x (-8)))) as [d|e'] eqn:E;
        cbn [bind] in Hp.
      * unfold Dec.mul, fix_ in Hp.
        destruct (coef _ =? 0); [discriminate|].
        destruct (_ >? Etop); [congruence|].
        destruct (dexp _ <? _); [|discriminate].
        destruct (ndigits _ >? prec); destruct (_ >? Etop); congruence.
      * injection Hp as <-. unfold fix_ in E.
        destruct (coef _ =? 0); [discriminate|].
        destruct (_ >? Etop); [congruence|].
        destruct (dexp _ <? _); [|discriminate].
        destruct (ndigits _ >? prec); destruct (_ >? Etop); congruence.
  - intros Hentry Hqty. apply calculate_pnl_total; assumption.
  - intros B pnl c Hlaw HxB Hp Heq Hc. rewrite Hrun, Hp. cbn [bind].
    unfold commit_numeric.
    destruct Hx8 as [He8 Hc8].
    rewrite (Hlaw (rescale x (-8)) (coef (rescale x (-8))))
      by (try apply eqb_eight_places; try assumption; lia).
    cbn [bind]. rewrite (Hlaw pnl c Heq Hc). cbn [bind].
    replace (mkDecimal (coef (rescale x (-8))) (-8)) with (rescale x (-8))
      by (destruct (rescale x (-8)) as [cx ex]; cbn [coef dexp] in *; congruence).
    reflexivity.
Qed.

Lemma close_open_trade_witness :
  patch_trades_close PostgreSQL.engine [scenario_long] 1 alice (id scenario_long)
    (TradeClose.mk (mkDecimal 55000 0))
  = Ok ([scenario_closed], scenario_closed).
Proof.
  assert (Hwf : db_wf [scenario_long])
    by (unfold db_wf; cbn; constructor; [intros []|constructor]).
  destruct (close_open_trade PostgreSQL.engine [scenario_long] 1 alice scenario_long
              (mkDecimal 55000 0) Hwf (or_introl eq_refl) eq_refl eq_refl
              eq_refl eq_refl)
    as (x' & Hr & _ & _ & _ & _ & _ & _ & Hexact).
  assert (Hx' : x' = mkDecimal 5500000000000 (-8))
    by (vm_compute in Hr; congruence).
  subst x'.
  rewrite (Hexact (10 ^ 18) (mkDecimal 5000000000000000000 (-16)) 50000000000
             PostgreSQL_stores_exactly).
  - reflexivity.
  - vm_compute. reflexivity.
  - vm_compute. reflexivity.
  - vm_compute. reflexivity.
  - vm_compute. reflexivity.
Defined.

(** The long scenario: BTC/USDT opened at 50000 for 0.1 and closed at
    55000 ends CLOSED with the profit 500.00000000, on either database. *)
Lemma scenario_long_closes :
  forall engine, engine = PostgreSQL.engine \/ engine = SQLite.engine ->
  post_trades engine [] 0 alice
    (TradeCreate.mk "BTC/USDT" (mkDecimal 50000 0) (mkDecimal 1 (-1)) BUY)
    = Ok ([scenario_long], scenario_long) /\
  patch_trades_close engine [scenario_long] 1 alice 1
    (TradeClose.mk (mkDecimal 55000 0))
    = Ok ([scenario_closed], scenario_closed) /\
  status scenario_closed = CLOSED /\
  realized_pnl scenario_closed = Some (mkDecimal 50000000000 (-8)).
Proof.
  intros engine [->| ->]; repeat split; vm_compute; reflexivity.
Qed.

(** The short scenario: ETH/USDT opened short at 3000 for 2 and closed at
    2500 ends with the profit 1000.00000000, on either database. *)
Lemma scenario_short_closes :
  forall engine, engine = PostgreSQL.engine \/ engine = SQLite.engine ->
  exists db t t',
    post_trades engine [] 0 alice
      (TradeCreate.mk "ETH/USDT" (mkDecimal 3000 0) (mkDecimal 2 0) SELL)
      = Ok (db, t) /\
    patch_trades_close engine db 1 alice (id t) (TradeClose.mk (mkDecimal 2500 0))
      = Ok ([t'], t') /\
    status t' = CLOSED /\
    realized_pnl t' = Some (mkDecimal 100000000000 (-8)).
Proof.
  intros engine [->| ->]; do 3 eexists;
    (split; [vm_compute; reflexivity|]);
    (split; [vm_compute; reflexivity|]); split; reflexivity.
Qed.

(** A profit below the eighth place is not recorded: opened at
    0.00000001 for 0.4 and closed at 0.00000002, the rule gives
    0.000000004 and the row records 0.00000000, on either database. *)
Lemma scenario_small_profit :
  forall engine, engine = PostgreSQL.engine \/ engine = SQLite.engine ->
  exists db t t',
    post_trades engine [] 0 alice
      (TradeCreate.mk "BTC/USDT" (mkDecimal 1 (-8)) (mkDecimal 4 (-1)) BUY)
      = Ok (db, t) /\
    calculate_pnl t (mkDecimal 2 (-8)) = Ok (mkDecimal 40000000 (-16)) /\
    patch_trades_close engine db 1 alice (id t) (TradeClose.mk (mkDecimal 2 (-8)))
      = Ok ([t'], t') /\
    realized_pnl t' = Some (mkDecimal 0 (-8)).
Proof.
  intros engine [->| ->]; do 3 eexists;
    (split; [vm_compute; reflexivity|]);
    (split; [vm_compute; reflexivity|]);
    (split; [vm_compute; reflexivity|]); reflexivity.
Qed.

(** Closing twice: the second close fails and the table is the one the
    first close left. *)
Lemma scenario_double_close :
  handle PostgreSQL.engine [scenario_long] 1 alice
    (PATCH_trades_close 1 (TradeClose.mk (mkDecimal 55000 0)))
    = ([scenario_closed], Ok (RTrade scenario_closed)) /\
  handle PostgreSQL.engine [scenario_closed] 2 alice
    (PATCH_trades_close 1 (TradeClose.mk (mkDecimal 56000 0)))
    = ([scenario_closed], Err (TradeAlreadyClosedError 1)).
Proof. split; vm_compute; reflexivity. Qed.

(** C2, as stated, fails for a wide exit price: at 1E+20 the rounding to
    eight places needs 29 digits and raises before any database is
    asked, and the trade stays open. *)
Lemma close_rejects_wide_exit_price :
  status scenario_long = OPEN /\
  Dec.gtb (mkDecimal 1 20) Dec.zero = true /\
  patch_trades_close PostgreSQL.engine [scenario_long] 1 alice 1
    (TradeClose.mk (mkDecimal 1 20)) = Err InvalidOperation /\
  patch_trades_close SQLite.engine [scenario_long] 1 alice 1
    (TradeClose.mk (mkDecimal 1 20)) = Err InvalidOperation.
Proof. repeat split; vm_compute; reflexivity. Qed.

(** * The routed close *)

Lemma db_wf_inj (db : Db) (a b : Trade) :
  db_wf db -> In a db -> In b db -> id a = id b -> a = b.
Proof.
  intros Hwf Ha Hb E.
  assert (Hf := filter_id_unique (fun _ => true) db a Hwf Ha).
  assert (Hin : In b (filter (fun r => (id r =? id a) && true) db)).
  { apply filter_In. split; [assumption|]. rewrite E, Z.eqb_refl. reflexivity. }
  rewrite Hf in Hin. destruct Hin as [->|[]]. reflexivity.
Qed.

(** What a successful routed close did. *)
Lemma close_trade_inv (engine : Engine) (db db' : Db) (now tid : Z) (data : TradeClose.t)
    (u : User.t) (t' : Trade) :
  db_wf db ->
  trades.close_trade engine db now tid data u = Ok (db', t') ->
  exists t stored_price stored_pnl,
    In t db /\ id t = tid /\ user_id t = User.id u /\ status t = OPEN /\
    (exists pnl,
        calculate_pnl t (TradeClose.exit_price data) = Ok pnl /\
        numeric_18_8 engine (TradeClose.exit_price data) = Some stored_price /\
        numeric_18_8 engine pnl = Some stored_pnl) /\
    t' = closed_row t stored_price stored_pnl now /\
    db' = commit_row db t'.
Proof.
  intros Hwf H. unfold trades.close_trade in H.
  destruct (get_trade_by_id_spec db tid (User.id u) Hwf)
    as [(t & Hin & Hid & Hu & Hget)|[_ Hget]]; rewrite Hget in H; cbn [bind] in H;
    [|discriminate].
  destruct (status t) eqn:Hst; cbn [TradeStatus_eqb] in H; [|discriminate].
  unfold TradeService.close_trade, commit_numeric in H.
  destruct (calculate_pnl t (TradeClose.exit_price data)) as [pnl|e] eqn:Hp;
    cbn [bind] in H; [|discriminate].
  destruct (numeric_18_8 engine (TradeClose.exit_price data)) as [sx|] eqn:Hsx;
    cbn [bind] in H; [|discriminate].
  destruct (numeric_18_8 engine pnl) as [sp|] eqn:Hsp; cbn [bind] in H;
    [|discriminate].
  injection H as <- <-. exists t, sx, sp. repeat split; try assumption.
  exists pnl. repeat split; assumption.
Qed.

Lemma patch_trades_close_inv (engine : Engine) (db db' : Db) (now tid : Z) (body : TradeClose.t)
    (u : User.t) (t' : Trade) :
  patch_trades_close engine db now u tid body = Ok (db', t') ->
  exists data, trades.close_trade engine db now tid data u = Ok (db', t').
Proof.
  unfold patch_trades_close. destruct (TradeClose.validate body) as [data|e];
    cbn [bind]; [|discriminate].
  intros H. exists data. exact H.
Qed.

Lemma post_trades_inv (engine : Engine) (db db' : Db) (now : Z) (u : User.t)
    (body : TradeCreate.t) (t : Trade) :
  post_trades engine db now u body = Ok (db', t) ->
  exists data,
    TradeCreate.validate body = Ok data /\
    TradeService.create_trade engine db now (User.id u) data = Ok (db', t).
Proof.
  unfold post_trades. destruct (TradeCreate.validate body) as [data|e];
    cbn [bind]; [|discriminate].
  intros H. exists data. split; [reflexivity|exact H].
Qed.

(** A request to open a trade appends one OPEN row of the caller under
    a fresh key, or leaves the table as it was. *)
Lemma handle_post (engine : Engine) (db : Db) (now : Z) (u : User.t)
    (body : TradeCreate.t) :
  (exists t,
      fst (handle engine db now u (POST_trades body)) = db ++ [t] /\
      id t = next_id db /\ user_id t = User.id u /\ status t = OPEN) \/
  fst (handle engine db now u (POST_trades body)) = db.
Proof.
  cbn [handle].
  destruct (post_trades engine db now u body) as [[db' t]|e] eqn:E; cbn [fst];
    [|right; reflexivity].
  apply post_trades_inv in E. destruct E as (data & _ & E).
  apply create_trade_inv in E. destruct E as (e0 & q0 & _ & _ & -> & ->).
  left. eexists. split; [reflexivity|]. repeat split.
Qed.

(** Every request keeps the primary key. *)
Lemma handle_wf (engine : Engine) (db : Db) (now : Z) (u : User.t) (req : Request) :
  db_wf db -> db_wf (fst (handle engine db now u req)).
Proof.
  intros Hwf. destruct req as [body|st|tid body| |].
  - cbn [handle].
    destruct (post_trades engine db now u body) as [[db' t]|e] eqn:E; cbn [fst];
      [|exact Hwf].
    apply post_trades_inv in E. destruct E as (data & _ & E).
    exact (create_trade_wf _ _ _ _ _ _ _ Hwf E).
  - exact Hwf.
  - cbn [handle].
    destruct (patch_trades_close engine db now u tid body) as [[db' t']|e] eqn:Hp;
      cbn [fst]; [|exact Hwf].
    apply patch_trades_close_inv in Hp. destruct Hp as [data Hp].
    apply close_trade_inv in Hp; [|exact Hwf].
    destruct Hp as (t0 & sx & sp & _ & _ & _ & _ & _ & _ & ->).
    apply commit_row_wf. exact Hwf.
  - cbn [handle]. destruct (portfolio.get_portfolio_summary db u); exact Hwf.
  - cbn [handle]. destruct (admin.get_all_trades db u); exact Hwf.
Qed.

(** Whatever the requests, a table that started empty has the key. *)
Lemma run_wf (engine : Engine) (requests : list (Z * User.t * Request)) (db : Db) :
  db_wf db -> db_wf (run engine db requests).
Proof.
  revert db. induction requests as [|[[now u] req] rest IH]; intros db Hwf.
  - exact Hwf.
  - cbn [run]. apply IH. apply handle_wf. exact Hwf.
Qed.

(** The service method carries no guard of its own: called on a closed
    trade it closes it again; the status check is the router's. *)
Lemma service_close_trade_unguarded :
  status scenario_closed = CLOSED /\
  exists db' t',
    TradeService.close_trade PostgreSQL.engine [scenario_closed] 2 scenario_closed
      (mkDecimal 6000000000000 (-8)) = Ok (db', t') /\
    exit_price t' = Some (mkDecimal 6000000000000 (-8)) /\
    closed_at t' = Some 2.
Proof.
  split; [reflexivity|]. do 2 eexists.
  split; [vm_compute; reflexivity|]. split; reflexivity.
Qed.



(** C8: a successful close keeps the [id], [user_id], [symbol],
    [entry_price], [quantity], [trade_type] and [created_at] of the trade
    it closes, which was OPEN, and leaves every other row of the table as
    it was; every request other than a close keeps the table as a prefix:
    it adds a row or changes nothing. *)
Theorem close_frame (engine : Engine) (db : Db) (now : Z) (current_user : User.t) :
  db_wf db ->
  (forall tid close_data db' t',
      trades.close_trade engine db now tid close_data current_user = Ok (db', t') ->
      exists t,
        In t db /\ status t = OPEN /\
        id t' = id t /\ user_id t' = user_id t /\ symbol t' = symbol t /\
        entry_price t' = entry_price t /\ quantity t' = quantity t /\
        trade_type t' = trade_type t /\ created_at t' = created_at t /\
        (forall r, In r db -> id r <> id t -> In r db') /\
        (forall r, In r db' -> r = t' \/ (In r db /\ id r <> id t))) /\
  (forall req,
      (forall tid body, req <> PATCH_trades_close tid body) ->
      exists new, fst (handle engine db now current_user req) = db ++ new).
Proof.
  intros Hwf. split.
  - intros tid data db' t' H.
    apply close_trade_inv in H; [|exact Hwf].
    destruct H as (t & stored_price & stored_pnl & Hin & Hid & Hu & Hopen & Hp & -> & ->).
    exists t. repeat split; try assumption.
    + intros r Hr Hne. apply commit_row_other; assumption.
    + intros r Hr. apply commit_row_inv in Hr. exact Hr.
  - intros [body|st|tid body| |] Hnc.
    + destruct (handle_post engine db now current_user body) as [(t1 & -> & _)| ->].
      * eexists. reflexivity.
      * exists []. symmetry. apply app_nil_r.
    + exists []. symmetry. apply app_nil_r.
    + exfalso. exact (Hnc tid body eq_refl).
    + cbn [handle]. destruct (portfolio.get_portfolio_summary db current_user);
        exists []; symmetry; apply app_nil_r.
    + cbn [handle]. destruct (admin.get_all_trades db current_user);
        exists []; symmetry; apply app_nil_r.
Qed.

Lemma close_frame_witness :
  db_wf [scenario_long] /\
  exists t,
    In t [scenario_long] /\ status t = OPEN /\
    id scenario_closed = id t /\ user_id scenario_closed = user_id t /\
    symbol scenario_closed = symbol t /\
    entry_price scenario_closed = entry_price t /\
    quantity scenario_closed = quantity t /\
    trade_type scenario_closed = trade_type t /\
    created_at scenario_closed = created_at t.
Proof.
  assert (Hwf : db_wf [scenario_long]).
  { unfold db_wf. cbn. constructor; [intros []|constructor]. }
  split; [exact Hwf|].
  destruct (proj1 (close_frame PostgreSQL.engine [scenario_long] 1 alice Hwf) 1
              (TradeClose.mk (mkDecimal 5500000000000 (-8)))
              [scenario_closed] scenario_closed
              ltac:(vm_compute; reflexivity))
    as (t & Hin & Hopen & Hid & Hu & Hs & He & Hq & Ht & Hc & _).
  exists t. repeat split; assumption.
Defined.

(** C10: a close aimed at a trade of another user fails with
    [TradeNotFoundError], whatever the status of that trade, exactly as a
    close aimed at a key that no row has. *)
Theorem foreign_close_is_not_found (engine : Engine) (db : Db) (now : Z) (current_user : User.t)
    (close_data : TradeClose.t) :
  db_wf db ->
  (forall t, In t db -> user_id t <> User.id current_user ->
      trades.close_trade engine db now (id t) close_data current_user
        = Err (TradeNotFoundError (id t))) /\
  (forall tid, ~ In tid (map id db) ->
      trades.close_trade engine db now tid close_data current_user
        = Err (TradeNotFoundError tid)).
Proof.
  intros Hwf. split.
  - intros t Hin Hne. unfold trades.close_trade.
    rewrite (get_trade_by_id_foreign db t _ Hwf Hin Hne). reflexivity.
  - intros tid Hni. unfold trades.close_trade.
    rewrite (get_trade_by_id_absent db tid _ Hni). reflexivity.
Qed.

Lemma foreign_close_is_not_found_witness :
  db_wf [scenario_long; trade_of_bob] /\
  status trade_of_bob = CLOSED /\
  trades.close_trade PostgreSQL.engine [scenario_long; trade_of_bob] 5 (id trade_of_bob)
    (TradeClose.mk (mkDecimal 100000000 (-8))) alice
    = Err (TradeNotFoundError (id trade_of_bob)) /\
  status scenario_long = OPEN /\
  trades.close_trade PostgreSQL.engine [scenario_long; trade_of_bob] 5 (id scenario_long)
    (TradeClose.mk (mkDecimal 100000000 (-8))) bob
    = Err (TradeNotFoundError (id scenario_long)).
Proof.
  assert (Hwf : db_wf [scenario_long; trade_of_bob]).
  { unfold db_wf. cbn. repeat constructor; cbn; intuition discriminate. }
  split; [exact Hwf|]. split; [reflexivity|]. split; [|split; [reflexivity|]].
  - apply (proj1 (foreign_close_is_not_found PostgreSQL.engine _ 5 alice
                    (TradeClose.mk (mkDecimal 100000000 (-8))) Hwf) trade_of_bob);
      [right; left; reflexivity|discriminate].
  - apply (proj1 (foreign_close_is_not_found PostgreSQL.engine _ 5 bob
                    (TradeClose.mk (mkDecimal 100000000 (-8))) Hwf) scenario_long);
      [left; reflexivity|discriminate].
Defined.

(** * Listings *)

Section Listings.

Lemma TradeStatus_eqb_eq (a b : TradeStatus) : TradeStatus_eqb a b = true <-> a = b.
Proof. destruct a, b; cbn; split; congruence. Qed.

Lemma filter_andb {A : Type} (f g : A -> bool) (l : list A) :
  filter (fun x => f x && g x) l = filter g (filter f l).
Proof.
  induction l as [|a l IH]; [reflexivity|]. cbn [filter].
  destruct (f a); cbn [andb filter]; rewrite IH; reflexivity.
Qed.

Lemma insert_desc_perm (t : Trade) (l : list Trade) :
  Permutation (insert_desc t l) (t :: l).
Proof.
  induction l as [|x r IH]; cbn [insert_desc]; [reflexivity|].
  destruct (created_at x <=? created_at t); [reflexivity|].
  rewrite IH. apply perm_swap.
Qed.

Lemma order_by_perm (l : list Trade) : Permutation (order_by_created_at_desc l) l.
Proof.
  induction l as [|a l IH]; [reflexivity|].
  unfold order_by_created_at_desc in *. cbn [fold_right].
  rewrite insert_desc_perm. apply perm_skip. exact IH.
Qed.

Lemma insert_desc_sorted (t : Trade) (l : list Trade) :
  newest_first l -> newest_first (insert_desc t l).
Proof.
  unfold newest_first. induction l as [|x r IH]; intros Hs; cbn [insert_desc].
  - constructor; constructor.
  - apply StronglySorted_inv in Hs. destruct Hs as [Hr Hx].
    destruct (created_at x <=? created_at t) eqn:E.
    + apply Z.leb_le in E. constructor.
      * constructor; assumption.
      * constructor; [exact E|].
        eapply Forall_impl; [|exact Hx]. cbn. intros b Hb. lia.
    + apply Z.leb_gt in E. constructor; [apply IH; exact Hr|].
      eapply Permutation_Forall; [symmetry; apply insert_desc_perm|].
      constructor; [lia|exact Hx].
Qed.

Lemma order_by_sorted (l : list Trade) : newest_first (order_by_created_at_desc l).
Proof.
  induction l as [|a l IH]; [constructor|].
  unfold order_by_created_at_desc in *. cbn [fold_right].
  apply insert_desc_sorted. exact IH.
Qed.

Lemma get_user_trades_rows (db : Db) (uid : Z) (st : option TradeStatus) :
  TradeService.get_user_trades db uid st
  = order_by_created_at_desc (filter (status_matches st) (rows_of uid db)).
Proof.
  unfold TradeService.get_user_trades, rows_of, status_matches.
  destruct st; [reflexivity|].
  f_equal. symmetry. apply forallb_filter_id. apply forallb_forall. reflexivity.
Qed.

Lemma get_user_trades_In (db : Db) (uid : Z) (st : option TradeStatus) (t : Trade) :
  In t (TradeService.get_user_trades db uid st) <->
  In t db /\ user_id t = uid /\ status_matches st t = true.
Proof.
  rewrite get_user_trades_rows.
  split.
  - intros H. apply (Permutation_in _ (order_by_perm _)) in H.
    apply filter_In in H. destruct H as [H Hs]. apply filter_In in H.
    destruct H as [H Hu]. apply Z.eqb_eq in Hu. auto.
  - intros (H & Hu & Hs).
    apply (Permutation_in _ (Permutation_sym (order_by_perm _))).
    apply filter_In. split; [|exact Hs]. apply filter_In. split; [exact H|].
    apply Z.eqb_eq. exact Hu.
Qed.

(** C9: the listing of a user is a rearrangement of exactly that user's
    rows (of the given status when a filter is supplied), most recent
    first; the listing of all trades is a rearrangement of the whole
    table, most recent first. *)
Theorem listings_scoped_and_sorted (db : Db) (uid : Z) (st : option TradeStatus) :
  Permutation (TradeService.get_user_trades db uid st)
    (filter (fun t => (user_id t =? uid) && status_matches st t) db) /\
  (forall t, In t (TradeService.get_user_trades db uid st) <->
             In t db /\ user_id t = uid /\
             (forall s, st = Some s -> status t = s)) /\
  newest_first (TradeService.get_user_trades db uid st) /\
  Permutation (TradeService.get_all_trades db) db /\
  newest_first (TradeService.get_all_trades db).
Proof.
  repeat split.
  - rewrite get_user_trades_rows, filter_andb. apply order_by_perm.
  - apply get_user_trades_In in H. tauto.
  - apply get_user_trades_In in H. tauto.
  - apply get_user_trades_In in H. destruct H as (_ & _ & H).
    intros s ->. apply TradeStatus_eqb_eq. exact H.
  - intros (Hin & Hu & Hs). apply get_user_trades_In. repeat split; try assumption.
    destruct st as [s|]; [|reflexivity]. apply TradeStatus_eqb_eq. auto.
  - rewrite get_user_trades_rows. apply order_by_sorted.
  - apply order_by_perm.
  - apply order_by_sorted.
Qed.

End Listings.

(** * Isolation between users *)

Section Isolation.

Lemma get_portfolio_summary_rows (db db2 : Db) (uid : Z) :
  rows_of uid db2 = rows_of uid db ->
  TradeService.get_portfolio_summary db2 uid = TradeService.get_portfolio_summary db uid.
Proof.
  unfold TradeService.get_portfolio_summary, rows_of. intros H.
  rewrite !filter_andb, H. reflexivity.
Qed.

Lemma rows_of_commit_foreign (uid : Z) (t' : Trade) (l : list Trade) :
  (forall r, In r l -> id r = id t' -> user_id r <> uid) ->
  user_id t' <> uid ->
  rows_of uid (commit_row l t') = rows_of uid l.
Proof.
  unfold rows_of, commit_row. intros Hl Hu.
  induction l as [|a l IH]; [reflexivity|]. cbn [map filter].
  rewrite IH by (intros r Hr; apply Hl; right; exact Hr).
  destruct (id a =? id t') eqn:E; [|reflexivity].
  apply Z.eqb_eq in E.
  replace (user_id t' =? uid) with false by (symmetry; apply Z.eqb_neq; exact Hu).
  replace (user_id a =? uid) with false; [reflexivity|].
  symmetry. apply Z.eqb_neq. apply Hl; [left; reflexivity|exact E].
Qed.

(** A request of one user leaves the rows of every other user alone. *)
Lemma handle_keeps_foreign_rows (engine : Engine) (db : Db) (now uid : Z) (u : User.t)
    (req : Request) :
  db_wf db -> User.id u <> uid ->
  rows_of uid (fst (handle engine db now u req)) = rows_of uid db.
Proof.
  intros Hwf Hne. destruct req as [body|st|tid body| |]; [|cbn [handle]..].
  - destruct (handle_post engine db now u body) as [(t1 & -> & _ & Hu1 & _)| ->];
      [|reflexivity].
    unfold rows_of. rewrite filter_app. cbn [filter]. rewrite Hu1.
    replace (User.id u =? uid) with false by (symmetry; apply Z.eqb_neq; exact Hne).
    apply app_nil_r.
  - reflexivity.
  - destruct (patch_trades_close engine db now u tid body) as [[db' t']|e] eqn:Hp;
      cbn [fst]; [|reflexivity].
    apply patch_trades_close_inv in Hp. destruct Hp as [data Hp].
    apply close_trade_inv in Hp; [|exact Hwf].
    destruct Hp as (t & stored_price & stored_pnl & Hin & Hid & Hu & _ & _ & -> & ->).
    apply rows_of_commit_foreign.
    + intros r Hr E. cbn [closed_row id] in E.
      rewrite (db_wf_inj db r t Hwf Hr Hin E). congruence.
    + cbn [closed_row user_id]. congruence.
  - destruct (portfolio.get_portfolio_summary db u); reflexivity.
  - destruct (admin.get_all_trades db u); reflexivity.
Qed.

(** C4: with [t_b] a trade of user [B] and [A] another user, no listing
    of [A] contains [t_b] (every listed trade is owned by [A]), the
    lookup of [t_b] on behalf of [A] finds nothing, and the listings and
    the summary of [A] are functions of the rows of [A] alone: they are
    the same over every table that has the same rows of [A], and no
    request made by another user changes those rows. *)
Theorem user_isolation (engine : Engine) (db : Db) (A B : Z) (t_b : Trade) :
  A <> B -> db_wf db -> In t_b db -> user_id t_b = B ->
  (forall st,
      ~ In t_b (TradeService.get_user_trades db A st) /\
      (forall t, In t (TradeService.get_user_trades db A st) -> user_id t = A)) /\
  TradeService.get_trade_by_id db (id t_b) A = Ok None /\
  (forall db2,
      rows_of A db2 = rows_of A db ->
      (forall st, TradeService.get_user_trades db2 A st
                  = TradeService.get_user_trades db A st) /\
      TradeService.get_portfolio_summary db2 A
        = TradeService.get_portfolio_summary db A) /\
  (forall now u req,
      User.id u <> A ->
      rows_of A (fst (handle engine db now u req)) = rows_of A db).
Proof.
  intros Hne Hwf Hin Hb. repeat split.
  - intros H. apply get_user_trades_In in H. destruct H as (_ & Hu & _). congruence.
  - intros t H. apply get_user_trades_In in H. tauto.
  - apply get_trade_by_id_foreign; [assumption..|congruence].
  - intros st. rewrite !get_user_trades_rows, H. reflexivity.
  - apply get_portfolio_summary_rows. assumption.
  - intros now u req Hu. apply handle_keeps_foreign_rows; assumption.
Qed.

End Isolation.

Lemma user_isolation_witness :
  (forall st,
      ~ In trade_of_bob (TradeService.get_user_trades [scenario_closed; trade_of_bob] 1 st) /\
      (forall t, In t (TradeService.get_user_trades [scenario_closed; trade_of_bob] 1 st) ->
                 user_id t = 1)) /\
  TradeService.get_trade_by_id [scenario_closed; trade_of_bob] (id trade_of_bob) 1
    = Ok None /\
  (forall db2,
      rows_of 1 db2 = rows_of 1 [scenario_closed; trade_of_bob] ->
      (forall st, TradeService.get_user_trades db2 1 st
                  = TradeService.get_user_trades [scenario_closed; trade_of_bob] 1 st) /\
      TradeService.get_portfolio_summary db2 1
        = TradeService.get_portfolio_summary [scenario_closed; trade_of_bob] 1) /\
  (forall now u req,
      User.id u <> 1 ->
      rows_of 1 (fst (handle PostgreSQL.engine [scenario_closed; trade_of_bob] now u req))
      = rows_of 1 [scenario_closed; trade_of_bob]).
Proof.
  apply (user_isolation PostgreSQL.engine [scenario_closed; trade_of_bob] 1 2 trade_of_bob).
  - discriminate.
  - unfold db_wf. cbn. repeat constructor; cbn; intuition discriminate.
  - right. left. reflexivity.
  - reflexivity.
Defined.

(** * The portfolio summary *)

Section Summary.

Lemma count_cons (f : Trade -> bool) (t : Trade) (l : list Trade) :
  count f (t :: l) = (if f t then 1 else 0) + count f l.
Proof.
  unfold count. cbn [filter]. destruct (f t); cbn [List.length]; lia.
Qed.

Lemma count_le_length (f : Trade -> bool) (l : list Trade) :
  0 <= count f l <= Z.of_nat (List.length l).
Proof.
  unfold count. pose proof (filter_length_le f l). lia.
Qed.

(** No trade is both won and lost. *)
Lemma count_win_loss (l : list Trade) :
  count is_win l + count is_loss l <= Z.of_nat (List.length l).
Proof.
  induction l as [|t l IH]; [cbn; lia|].
  rewrite !count_cons. cbn [List.length]. rewrite Nat2Z.inj_succ.
  destruct (is_win t) eqn:Ew; destruct (is_loss t) eqn:El; try lia.
  unfold is_win in Ew. unfold is_loss in El.
  apply gtb_zero in Ew. apply ltb_zero in El. lia.
Qed.

Lemma to_Q_zero_coef (p : Decimal) : coef p = 0 -> (to_Q p == 0)%Q.
Proof. unfold to_Q. intros ->. ring. Qed.

Lemma pnl_mass_nonneg (s : Z) (l : list Trade) : 0 <= pnl_mass s l.
Proof.
  induction l as [|t l IH]; cbn [pnl_mass fold_right]; [lia|].
  fold (pnl_mass s l).
  pose proof (Z.pow_nonneg 10 (dexp (pnl_of t) - s) ltac:(lia)).
  pose proof (Z.abs_nonneg (coef (pnl_of t))). nia.
Qed.

(** The running total, in units of [10 ^ s], grows by no more than the
    magnitude of what is added. *)
Lemma exact_add_mass (acc p : Decimal) (s : Z) :
  s <= dexp acc -> s <= dexp p ->
  Z.abs (coef (exact_add acc p)) * 10 ^ (dexp (exact_add acc p) - s)
  <= Z.abs (coef acc) * 10 ^ (dexp acc - s) + Z.abs (coef p) * 10 ^ (dexp p - s).
Proof.
  intros Ha Hp. unfold exact_add, align. cbn [coef dexp].
  set (m := Z.min (dexp acc) (dexp p)).
  assert (Hm : s <= m) by (subst m; lia).
  replace (dexp acc - s) with ((dexp acc - m) + (m - s)) by lia.
  replace (dexp p - s) with ((dexp p - m) + (m - s)) by lia.
  rewrite !Z.pow_add_r by (subst m; lia).
  pose proof (pow10_pos (dexp acc - m) ltac:(subst m; lia)) as HA.
  pose proof (pow10_pos (dexp p - m) ltac:(subst m; lia)) as HB.
  pose proof (pow10_pos (m - s) ltac:(lia)) as HC.
  set (A := 10 ^ (dexp acc - m)) in *. set (B := 10 ^ (dexp p - m)) in *.
  set (C := 10 ^ (m - s)) in *.
  assert (H : Z.abs (coef acc * A + coef p * B)
              <= Z.abs (coef acc) * A + Z.abs (coef p) * B).
  { eapply Z.le_trans; [apply Z.abs_triangle|].
    rewrite !Z.abs_mul, (Z.abs_eq A), (Z.abs_eq B) by lia. lia. }
  apply (Z.mul_le_mono_nonneg_r _ _ C) in H; [|lia].
  lia.
Qed.

(** One turn of the loop: while the total stays below [10 ^ 28] units of
    [10 ^ s], the addition is exact. *)
Lemma summary_step_exact (s : Z) (acc : Decimal) (w lo : Z) (t : Trade) :
  Etiny <= s <= 0 ->
  (coef (pnl_of t) <> 0 -> s <= dexp (pnl_of t)) ->
  s <= dexp acc <= 0 ->
  Z.abs (coef acc) * 10 ^ (dexp acc - s)
    + Z.abs (coef (pnl_of t)) * 10 ^ (dexp (pnl_of t) - s) < 10 ^ 28 ->
  exists acc',
    TradeService.summary_step (acc, w, lo) t
      = Ok (acc', w + (if is_win t then 1 else 0), lo + (if is_loss t then 1 else 0)) /\
    (to_Q acc' == to_Q acc + to_Q (pnl_of t))%Q /\
    s <= dexp acc' <= 0 /\
    Z.abs (coef acc') * 10 ^ (dexp acc' - s)
      <= Z.abs (coef acc) * 10 ^ (dexp acc - s)
         + Z.abs (coef (pnl_of t)) * 10 ^ (dexp (pnl_of t) - s).
Proof.
  intros Hs Ht Hacc Hmass.
  assert (Hnn : 0 <= Z.abs (coef (pnl_of t)) * 10 ^ (dexp (pnl_of t) - s)).
  { pose proof (Z.pow_nonneg 10 (dexp (pnl_of t) - s) ltac:(lia)).
    pose proof (Z.abs_nonneg (coef (pnl_of t))). nia. }
  assert (Hskip : coef (pnl_of t) = 0 ->
            is_win t = false /\ is_loss t = false /\ (to_Q (pnl_of t) == 0)%Q).
  { intros E. unfold is_win, is_loss. repeat split.
    - destruct (Dec.gtb _ _) eqn:G; [apply gtb_zero in G; lia|reflexivity].
    - destruct (Dec.ltb _ _) eqn:G; [apply ltb_zero in G; lia|reflexivity].
    - apply to_Q_zero_coef. exact E. }
  assert (Hkeep : coef (pnl_of t) = 0 ->
            exists acc',
              Ok (acc, w, lo)
                = Ok (acc', w + (if is_win t then 1 else 0),
                      lo + (if is_loss t then 1 else 0)) /\
              (to_Q acc' == to_Q acc + to_Q (pnl_of t))%Q /\
              s <= dexp acc' <= 0 /\
              Z.abs (coef acc') * 10 ^ (dexp acc' - s)
                <= Z.abs (coef acc) * 10 ^ (dexp acc - s)
                   + Z.abs (coef (pnl_of t)) * 10 ^ (dexp (pnl_of t) - s)).
  { intros E. destruct (Hskip E) as (-> & -> & Hq). exists acc.
    rewrite !Z.add_0_r. repeat split; try lia. rewrite Hq. ring. }
  unfold TradeService.summary_step.
  destruct (realized_pnl t) as [p|] eqn:Hp; [|apply Hkeep; unfold pnl_of; rewrite Hp; reflexivity].
  assert (Hpnl : pnl_of t = p) by (unfold pnl_of; rewrite Hp; reflexivity).
  unfold truthy. destruct (coef p =? 0) eqn:E0; cbn [negb].
  { apply Hkeep. rewrite Hpnl. apply Z.eqb_eq. exact E0. }
  apply Z.eqb_neq in E0. rewrite Hpnl in *. specialize (Ht E0).
  pose proof (exact_add_mass acc p s ltac:(lia) Ht) as Hm.
  assert (Hacc' : s <= dexp (exact_add acc p) <= 0)
    by (unfold exact_add; cbn [dexp]; lia).
  assert (Hwc : within_context (exact_add acc p)).
  { unfold within_context, Etiny, Etop, Emin, Emax, prec in *. split; [|lia].
    pose proof (pow10_pos (dexp (exact_add acc p) - s) ltac:(lia)).
    pose proof (Z.abs_nonneg (coef (exact_add acc p))). nia. }
  unfold Dec.add. rewrite (fix_within_context _ Hwc). cbn [bind].
  exists (exact_add acc p).
  assert (Hrest : (to_Q (exact_add acc p) == to_Q acc + to_Q p)%Q /\
                  s <= dexp (exact_add acc p) <= 0 /\
                  Z.abs (coef (exact_add acc p)) * 10 ^ (dexp (exact_add acc p) - s)
                  <= Z.abs (coef acc) * 10 ^ (dexp acc - s)
                     + Z.abs (coef p) * 10 ^ (dexp p - s)).
  { split; [apply to_Q_exact_add|]. split; assumption. }
  split; [|exact Hrest].
  unfold is_win, is_loss. rewrite Hpnl.
  destruct (Dec.gtb p Dec.zero) eqn:G.
  - replace (Dec.ltb p Dec.zero) with false; [rewrite Z.add_0_r; reflexivity|].
    symmetry. destruct (Dec.ltb p Dec.zero) eqn:L; [|reflexivity].
    apply gtb_zero in G. apply ltb_zero in L. lia.
  - destruct (Dec.ltb p Dec.zero); rewrite ?Z.add_0_r; reflexivity.
Qed.

(** The loop over the closed trades. *)
Lemma summary_loop_exact (s : Z) (l : list Trade) :
  Etiny <= s <= 0 ->
  forall acc w lo,
    pnl_scale s l ->
    s <= dexp acc <= 0 ->
    Z.abs (coef acc) * 10 ^ (dexp acc - s) + pnl_mass s l < 10 ^ 28 ->
    exists acc',
      TradeService.summary_loop l (acc, w, lo)
        = Ok (acc', w + count is_win l, lo + count is_loss l) /\
      (to_Q acc' == to_Q acc + pnl_total l)%Q /\
      (l = [] -> acc' = acc).
Proof.
  intros Hs. induction l as [|t l IH]; intros acc w lo Hscale Hacc Hmass.
  - exists acc.
    cbn [TradeService.summary_loop count filter List.length pnl_total fold_right].
    rewrite !Z.add_0_r. repeat split. ring.
  - apply Forall_cons_iff in Hscale. destruct Hscale as [Ht Hscale].
    cbn [pnl_mass fold_right] in Hmass. fold (pnl_mass s l) in Hmass.
    pose proof (pnl_mass_nonneg s l) as Hnn.
    destruct (summary_step_exact s acc w lo t Hs Ht Hacc ltac:(lia))
      as (acc1 & Hstep & Hq1 & Hacc1 & Hm1).
    destruct (IH acc1 (w + (if is_win t then 1 else 0))
                (lo + (if is_loss t then 1 else 0)) Hscale Hacc1 ltac:(lia))
      as (acc' & Hloop & Hq & _).
    exists acc'. cbn [TradeService.summary_loop]. rewrite Hstep. cbn [bind].
    rewrite Hloop, !count_cons, !Z.add_assoc. repeat split; [|discriminate].
    cbn [pnl_total fold_right]. fold (pnl_total l). rewrite Hq, Hq1. ring.
Qed.

End Summary.

Lemma get_portfolio_summary_unfold (db : Db) (uid : Z) :
  TradeService.get_portfolio_summary db uid =
  let* acc := TradeService.summary_loop (closed_of uid db) (Dec.zero, 0, 0) in
  let '(total_pnl, winning_trades, losing_trades) := acc in
  Ok (mkPortfolioSummary total_pnl
        (Z.of_nat (List.length (open_of uid db)))
        (Z.of_nat (List.length (closed_of uid db)))
        winning_trades losing_trades
        (float_win_rate winning_trades (Z.of_nat (List.length (closed_of uid db))))).
Proof.
  unfold TradeService.get_portfolio_summary, closed_of, open_of, rows_of.
  rewrite !filter_andb. reflexivity.
Qed.

(** The summary of a user whose closed profits, counted in units of
    [10 ^ s], stay below [10 ^ 28]. *)
Lemma summary_result (db : Db) (uid s : Z) :
  Etiny <= s <= 0 ->
  pnl_scale s (closed_of uid db) ->
  pnl_mass s (closed_of uid db) < 10 ^ 28 ->
  exists total,
    TradeService.get_portfolio_summary db uid
      = Ok (mkPortfolioSummary total
              (Z.of_nat (List.length (open_of uid db)))
              (Z.of_nat (List.length (closed_of uid db)))
              (count is_win (closed_of uid db))
              (count is_loss (closed_of uid db))
              (float_win_rate (count is_win (closed_of uid db))
                 (Z.of_nat (List.length (closed_of uid db))))) /\
    (to_Q total == pnl_total (closed_of uid db))%Q /\
    (closed_of uid db = [] -> total = Dec.zero).
Proof.
  intros Hs Hscale Hmass.
  destruct (summary_loop_exact s (closed_of uid db) Hs Dec.zero 0 0 Hscale
              ltac:(cbn [Dec.zero dexp]; lia)
              ltac:(cbn [Dec.zero coef Z.abs Z.mul]; lia))
    as (total & Hloop & Hq & Hnil).
  exists total. rewrite get_portfolio_summary_unfold, Hloop. cbn [bind].
  rewrite !Z.add_0_l. repeat split; [|exact Hnil].
  rewrite Hq. change (to_Q Dec.zero) with (inject_Z 0 * 10 ^ 0)%Q. ring.
Qed.

(** C6 (amended): when the closed trades of a user record profits with
    no digit below [10 ^ s] whose magnitudes add up to less than [10 ^ 28]
    units of [10 ^ s] (so that every running total fits the 28 digits of
    the decimal context), the summary returns, [total_realized_pnl] is
    exactly the sum of [realized_pnl] over those trades ([Decimal("0")]
    when there are none), [winning_trades] counts those with
    [realized_pnl > 0], [losing_trades] those with [realized_pnl < 0],
    and the two together are at most [closed_positions], the number of
    closed trades. *)
Theorem summary_totals (db : Db) (uid s : Z) :
  Etiny <= s <= 0 ->
  pnl_scale s (closed_of uid db) ->
  pnl_mass s (closed_of uid db) < 10 ^ 28 ->
  exists S,
    TradeService.get_portfolio_summary db uid = Ok S /\
    (to_Q (total_realized_pnl S) == pnl_total (closed_of uid db))%Q /\
    (closed_of uid db = [] -> total_realized_pnl S = Dec.zero) /\
    winning_trades S = count is_win (closed_of uid db) /\
    losing_trades S = count is_loss (closed_of uid db) /\
    closed_positions S = Z.of_nat (List.length (closed_of uid db)) /\
    winning_trades S + losing_trades S <= closed_positions S.
Proof.
  intros Hs Hscale Hmass.
  destruct (summary_result db uid s Hs Hscale Hmass) as (total & HS & Hq & Hnil).
  eexists. split; [exact HS|].
  cbn [total_realized_pnl winning_trades losing_trades closed_positions].
  repeat split; try assumption. apply count_win_loss.
Qed.

Lemma summary_totals_witness :
  exists S,
    TradeService.get_portfolio_summary [scenario_closed] 1 = Ok S /\
    (to_Q (total_realized_pnl S) == pnl_total (closed_of 1 [scenario_closed]))%Q /\
    (closed_of 1 [scenario_closed] = [] -> total_realized_pnl S = Dec.zero) /\
    winning_trades S = count is_win (closed_of 1 [scenario_closed]) /\
    losing_trades S = count is_loss (closed_of 1 [scenario_closed]) /\
    closed_positions S = Z.of_nat (List.length (closed_of 1 [scenario_closed])) /\
    winning_trades S + losing_trades S <= closed_positions S.
Proof.
  apply (summary_totals [scenario_closed] 1 (-16)).
  - decide_by_computation.
  - vm_compute. constructor; [intros _; discriminate|constructor].
  - decide_by_computation.
Defined.

(** C6, as stated, fails beyond 28 digits.  Under the tests' SQLite a
    profit of 99999999999999999999.99999998 is recorded as
    100000000000000000000.00000000; with a second closed trade that
    records 0.00000001 the exact sum is 100000000000000000000.00000001,
    and the summary reports 100000000000000000000.0000000. *)
Lemma summary_rounds_wide_total :
  map realized_pnl db_wide
    = [Some (mkDecimal 10000000000000000000000000000 (-8)); Some (mkDecimal 1 (-8))] /\
  exists S,
    TradeService.get_portfolio_summary db_wide 1 = Ok S /\
    total_realized_pnl S = mkDecimal 1000000000000000000000000000 (-7) /\
    closed_positions S = 2 /\
    ~ (to_Q (total_realized_pnl S) == pnl_total (closed_of 1 db_wide))%Q.
Proof.
  split; [vm_compute; reflexivity|].
  eexists. split; [vm_compute; reflexivity|].
  repeat split. vm_compute. discriminate.
Qed.

(** ** The total on a database that keeps to the column

    Where the engine reads back nothing but [numeric(18,8)] values, as
    PostgreSQL does, every table that the requests build satisfies the
    hypothesis of [summary_totals] as long as a user has fewer than
    [10 ^ 10] closed trades. *)

Lemma PostgreSQL_stores_in_column : stores_in_column PostgreSQL.engine.
Proof.
  intros d r. cbn [numeric_18_8 PostgreSQL.engine]. unfold PostgreSQL.numeric_18_8.
  change (10 ^ 10 * 10 ^ 8) with (10 ^ 18).
  destruct (Z.abs _ <? 10 ^ 18) eqn:E; [|discriminate].
  apply Z.ltb_lt in E. intros H. injection H as <-. split; [reflexivity|exact E].
Qed.

Lemma handle_in_column (engine : Engine) (db : Db) (now : Z) (u : User.t)
    (req : Request) :
  stores_in_column engine -> db_wf db -> recorded_in_column db ->
  recorded_in_column (fst (handle engine db now u req)).
Proof.
  intros Hlaw Hwf Hrec. destruct req as [body|st|tid body| |]; [|cbn [handle]..].
  - destruct (handle_post engine db now u body) as [(t1 & E & _)| ->]; [|exact Hrec].
    cbn [handle] in *.
    destruct (post_trades engine db now u body) as [[db' t]|e] eqn:Hp; cbn [fst] in *;
      [|exact Hrec].
    apply post_trades_inv in Hp. destruct Hp as (data & _ & Hp).
    apply create_trade_inv in Hp. destruct Hp as (e0 & q0 & _ & _ & Ht & ->).
    intros r p Hr Hpnl. apply in_app_or in Hr.
    destruct Hr as [Hr|[<-|[]]]; [exact (Hrec r p Hr Hpnl)|].
    rewrite Ht in Hpnl. discriminate.
  - exact Hrec.
  - destruct (patch_trades_close engine db now u tid body) as [[db' t']|e] eqn:Hp;
      cbn [fst]; [|exact Hrec].
    apply patch_trades_close_inv in Hp. destruct Hp as [data Hp].
    apply close_trade_inv in Hp; [|exact Hwf].
    destruct Hp as (t & sx & sp & _ & _ & _ & _ & (pnl & _ & _ & Hsp) & Ht' & ->).
    intros r p Hr Hpnl. apply commit_row_inv in Hr.
    destruct Hr as [->|[Hr _]]; [|exact (Hrec r p Hr Hpnl)].
    rewrite Ht' in Hpnl. cbn [closed_row realized_pnl] in Hpnl.
    injection Hpnl as <-. exact (Hlaw _ _ Hsp).
  - destruct (portfolio.get_portfolio_summary db u); exact Hrec.
  - destruct (admin.get_all_trades db u); exact Hrec.
Qed.

Lemma run_in_column (engine : Engine) (requests : list (Z * User.t * Request))
    (db : Db) :
  stores_in_column engine -> db_wf db -> recorded_in_column db ->
  recorded_in_column (run engine db requests).
Proof.
  intros Hlaw. revert db.
  induction requests as [|[[now u] req] rest IH]; intros db Hwf Hrec; [exact Hrec|].
  cbn [run]. apply IH; [apply handle_wf; exact Hwf|].
  apply handle_in_column; assumption.
Qed.

Lemma in_column_mass (l : list Trade) :
  (forall t p, In t l -> realized_pnl t = Some p -> in_column p) ->
  pnl_scale (-8) l /\ pnl_mass (-8) l <= Z.of_nat (List.length l) * 10 ^ 18.
Proof.
  induction l as [|t l IH]; intros H.
  - split; [constructor|]. cbn. lia.
  - destruct IH as [Hs Hm]; [intros r p Hr; apply H; right; exact Hr|].
    assert (Ht : (coef (pnl_of t) <> 0 -> -8 <= dexp (pnl_of t)) /\
                 Z.abs (coef (pnl_of t)) * 10 ^ (dexp (pnl_of t) - -8) < 10 ^ 18).
    { unfold pnl_of. destruct (realized_pnl t) as [p|] eqn:E.
      - destruct (H t p (or_introl eq_refl) E) as [He Hc]. rewrite He.
        change (10 ^ (-8 - -8)) with 1. lia.
      - cbn. split; [congruence|reflexivity]. }
    destruct Ht as [Ht1 Ht2].
    split; [constructor; assumption|].
    cbn [pnl_mass fold_right List.length]. fold (pnl_mass (-8) l).
    rewrite Nat2Z.inj_succ. lia.
Qed.

(** The summary of a table built by requests on such an engine, for a
    user with fewer than [10 ^ 10] closed trades: the total is exact. *)
Lemma summary_exact_in_column (engine : Engine)
    (requests : list (Z * User.t * Request)) (uid : Z) :
  stores_in_column engine ->
  Z.of_nat (List.length (closed_of uid (run engine [] requests))) < 10 ^ 10 ->
  exists S,
    TradeService.get_portfolio_summary (run engine [] requests) uid = Ok S /\
    (to_Q (total_realized_pnl S)
       == pnl_total (closed_of uid (run engine [] requests)))%Q.
Proof.
  intros Hlaw Hn.
  set (db := run engine [] requests) in *.
  assert (Hrec : recorded_in_column db).
  { apply run_in_column; [exact Hlaw|constructor|]. intros t p []. }
  destruct (in_column_mass (closed_of uid db)) as [Hs Hm].
  { intros t p Hin. apply Hrec. unfold closed_of, rows_of in Hin.
    apply filter_In in Hin. destruct Hin as [Hin _].
    apply filter_In in Hin. tauto. }
  assert (H18 : 0 < 10 ^ 18) by (apply pow10_pos; lia).
  destruct (summary_result db uid (-8)) as (total & HS & Hq & _).
  - unfold Etiny, Emin, prec. lia.
  - exact Hs.
  - change (10 ^ 28) with (10 ^ 10 * 10 ^ 18). nia.
  - eexists. split; [exact HS|exact Hq].
Qed.

(** Up to 159 closed trades the computed win rate is the exactly rounded
    one, whatever the number of winners. *)
Lemma win_rate_table :
  forallb (fun n => forallb (fun w => win_rate_agrees w n) (seq 0 (S n))) (seq 1 159)
  = true.
Proof. vm_compute. reflexivity. Qed.

Lemma win_rate_below_160 (w n : nat) :
  (w <= n)%nat -> (0 < n < 160)%nat -> win_rate_agrees w n = true.
Proof.
  intros Hw Hn. pose proof win_rate_table as H.
  rewrite forallb_forall in H. specialize (H n ltac:(apply in_seq; lia)).
  rewrite forallb_forall in H. apply H. apply in_seq. lia.
Qed.

(** C7 (amended): under the bound of C6, the summary returns with
    [open_positions] the number of the user's OPEN trades and
    [closed_positions] the number of the user's CLOSED trades; [win_rate]
    is the float zero when there is no closed trade, and otherwise the
    binary64 value [round((winning_trades / closed_positions) * 100, 2)]:
    quotient and product are rounded to binary64 before the result is
    rounded to two decimals.  With fewer than 160 closed trades this is
    [100 * winning_trades / closed_positions] rounded half-even to two
    decimal places. *)
Theorem summary_counts_and_win_rate (db : Db) (uid s : Z) :
  Etiny <= s <= 0 ->
  pnl_scale s (closed_of uid db) ->
  pnl_mass s (closed_of uid db) < 10 ^ 28 ->
  exists S,
    TradeService.get_portfolio_summary db uid = Ok S /\
    open_positions S = Z.of_nat (List.length (open_of uid db)) /\
    closed_positions S = Z.of_nat (List.length (closed_of uid db)) /\
    (closed_positions S = 0 -> win_rate S = PrimFloat.zero) /\
    (closed_positions S > 0 ->
     win_rate S =
       PyFloat.round2
         (PrimFloat.mul (PyFloat.true_div (winning_trades S) (closed_positions S))
            (PyFloat.of_int 100))) /\
    (0 < closed_positions S < 160 ->
     PrimFloat.eqb (win_rate S)
       (float_of_hundredths (pct_half_even (winning_trades S) (closed_positions S)))
     = true).
Proof.
  intros Hs Hscale Hmass.
  destruct (summary_result db uid s Hs Hscale Hmass) as (total & HS & _).
  eexists. split; [exact HS|].
  cbn [open_positions closed_positions winning_trades win_rate].
  repeat split.
  - intros ->. reflexivity.
  - intros H. unfold float_win_rate. replace (_ >? 0) with true; [reflexivity|].
    symmetry. apply Z.gtb_lt. lia.
  - intros H. unfold count.
    apply (win_rate_below_160
             (List.length (filter is_win (closed_of uid db)))
             (List.length (closed_of uid db))).
    + apply filter_length_le.
    + lia.
Qed.

Lemma summary_counts_and_win_rate_witness :
  exists S,
    TradeService.get_portfolio_summary [scenario_closed] 1 = Ok S /\
    open_positions S = Z.of_nat (List.length (open_of 1 [scenario_closed])) /\
    closed_positions S = Z.of_nat (List.length (closed_of 1 [scenario_closed])) /\
    (closed_positions S = 0 -> win_rate S = PrimFloat.zero) /\
    (closed_positions S > 0 ->
     win_rate S =
       PyFloat.round2
         (PrimFloat.mul (PyFloat.true_div (winning_trades S) (closed_positions S))
            (PyFloat.of_int 100))) /\
    (0 < closed_positions S < 160 ->
     PrimFloat.eqb (win_rate S)
       (float_of_hundredths (pct_half_even (winning_trades S) (closed_positions S)))
     = true).
Proof.
  apply (summary_counts_and_win_rate [scenario_closed] 1 (-16)).
  - decide_by_computation.
  - vm_compute. constructor; [intros _; discriminate|constructor].
  - decide_by_computation.
Defined.

(** C7, as stated, fails in binary floating point: with 23 winning trades
    out of 160 closed ones the exact rate is 14.375 percent, which rounds
    to 14.38 (the even neighbour, and also the upper one), while the
    quotient 23 / 160 times 100 is the binary64 value 14.374999999999998
    and the summary reports 14.37. *)
Lemma win_rate_23_of_160 :
  exists S,
    TradeService.get_portfolio_summary db_160 1 = Ok S /\
    winning_trades S = 23 /\ closed_positions S = 160 /\
    (100 * 23 # 160 == 14375 # 1000)%Q /\
    pct_half_even 23 160 = 1438 /\
    pct_half_up 23 160 = 1438 /\
    win_rate S = float_of_hundredths 1437 /\
    PrimFloat.eqb (win_rate S) (float_of_hundredths 1438) = false.
Proof.
  eexists. split; [vm_compute; reflexivity|].
  repeat split; vm_compute; reflexivity.
Qed.

(** The isolation scenario: user 1 closed one trade with a profit of 500,
    user 2 one with a profit of 1000; the summary of user 1 shows a total
    equal to 500, one closed position and a win rate of 100. *)
Lemma scenario_two_users :
  exists S,
    TradeService.get_portfolio_summary [scenario_closed; trade_of_bob] 1 = Ok S /\
    Dec.eqb (total_realized_pnl S) (mkDecimal 500 0) = true /\
    closed_positions S = 1 /\ winning_trades S = 1 /\
    win_rate S = PyFloat.of_int 100.
Proof.
  eexists. split; [vm_compute; reflexivity|].
  repeat split; vm_compute; reflexivity.
Qed.

(** * Symbols *)

Section Symbols.

Local Open Scope string_scope.

Ltac by_cases_on_char c :=
  destruct c as [[|] [|] [|] [|] [|] [|] [|] [|]]; reflexivity.

Lemma isspace_upper_char (c : ascii) :
  Str.isspace_char (Str.upper_char c) = Str.isspace_char c.
Proof. by_cases_on_char c. Qed.

Lemma upper_char_idem (c : ascii) :
  Str.upper_char (Str.upper_char c) = Str.upper_char c.
Proof. by_cases_on_char c. Qed.

Lemma isalpha_not_slash (c : ascii) :
  Str.isalpha_char c = true -> Ascii.eqb c "/" = false.
Proof.
  intros H. destruct (Ascii.eqb_spec c "/") as [->|]; [discriminate H|reflexivity].
Qed.

Lemma upper_idem (s : string) : Str.upper (Str.upper s) = Str.upper s.
Proof.
  induction s as [|c s IH]; [reflexivity|].
  cbn [Str.upper]. rewrite upper_char_idem, IH. reflexivity.
Qed.

Lemma upper_lstrip (s : string) : Str.upper (Str.lstrip s) = Str.lstrip (Str.upper s).
Proof.
  induction s as [|c s IH]; [reflexivity|].
  cbn [Str.lstrip Str.upper]. rewrite isspace_upper_char.
  destruct (Str.isspace_char c); [exact IH|reflexivity].
Qed.

Lemma upper_rstrip (s : string) : Str.upper (Str.rstrip s) = Str.rstrip (Str.upper s).
Proof.
  induction s as [|c s IH]; [reflexivity|].
  cbn [Str.rstrip Str.upper]. rewrite <- IH, isspace_upper_char.
  destruct (Str.rstrip s); cbn [Str.upper]; [|reflexivity].
  destruct (Str.isspace_char c); reflexivity.
Qed.

(** What [validate_symbol_format] returns is its own upper case. *)
Lemma upper_strip_upper (v : string) :
  Str.upper (Str.strip (Str.upper v)) = Str.strip (Str.upper v).
Proof.
  unfold Str.strip. rewrite upper_rstrip, upper_lstrip, upper_idem. reflexivity.
Qed.

Lemma length_upper (s : string) : String.length (Str.upper s) = String.length s.
Proof. induction s as [|c s IH]; cbn; congruence. Qed.

Lemma length_lstrip (s : string) : (String.length (Str.lstrip s) <= String.length s)%nat.
Proof.
  induction s as [|c s IH]; cbn [Str.lstrip]; [apply le_n|].
  destruct (Str.isspace_char c); cbn [String.length]; lia.
Qed.

Lemma length_rstrip (s : string) : (String.length (Str.rstrip s) <= String.length s)%nat.
Proof.
  induction s as [|c s IH]; cbn [Str.rstrip]; [apply le_n|].
  destruct (Str.rstrip s); [destruct (Str.isspace_char c)|];
    cbn [String.length] in *; lia.
Qed.

Lemma length_strip_upper (v : string) :
  (String.length (Str.strip (Str.upper v)) <= String.length v)%nat.
Proof.
  unfold Str.strip.
  pose proof (length_rstrip (Str.lstrip (Str.upper v))).
  pose proof (length_lstrip (Str.upper v)).
  pose proof (length_upper v). lia.
Qed.

Lemma length_app_sep (a b : string) (c : ascii) :
  String.length (a ++ String c b) = (String.length a + S (String.length b))%nat.
Proof. induction a as [|x a IH]; cbn [append String.length]; lia. Qed.

Lemma isalpha_nonempty (s : string) :
  Str.isalpha s = true -> (1 <= String.length s)%nat /\ Str.all_alpha s = true.
Proof.
  destruct s as [|c s]; [discriminate|]. cbn [Str.isalpha String.length].
  intros H. split; [lia|exact H].
Qed.

(** A symbol in the format has at least three characters. *)
Lemma base_quote_format_length (s : string) :
  base_quote_format s -> (3 <= String.length s)%nat.
Proof.
  intros (a & b & -> & Ha & Hb).
  apply isalpha_nonempty in Ha. apply isalpha_nonempty in Hb.
  rewrite length_app_sep. lia.
Qed.

Lemma all_alpha_no_slash (s : string) :
  Str.all_alpha s = true -> Str.contains "/" s = false.
Proof.
  induction s as [|c s IH]; [reflexivity|]. cbn [Str.all_alpha Str.contains].
  intros H. apply andb_true_iff in H. destruct H as [Hc Hs].
  rewrite (isalpha_not_slash c Hc), (IH Hs). reflexivity.
Qed.

Lemma split_nonempty (sep : ascii) (s : string) : Str.split sep s <> [].
Proof.
  destruct s as [|c s]; cbn [Str.split]; [discriminate|].
  destruct (Ascii.eqb c sep); [discriminate|].
  destruct (Str.split sep s); discriminate.
Qed.

Lemma split_without_sep (sep : ascii) (s : string) :
  Str.contains sep s = false -> Str.split sep s = [s].
Proof.
  induction s as [|c s IH]; [reflexivity|]. cbn [Str.contains Str.split].
  intros H. apply orb_false_iff in H. destruct H as [Hc Hs].
  rewrite Hc, (IH Hs). reflexivity.
Qed.

Lemma split_app_sep (sep : ascii) (a b : string) :
  Str.contains sep a = false ->
  Str.split sep (a ++ String sep b) = a :: Str.split sep b.
Proof.
  induction a as [|c a IH]; cbn [append Str.contains Str.split].
  - intros _. rewrite Ascii.eqb_refl. reflexivity.
  - intros H. apply orb_false_iff in H. destruct H as [Hc Ha].
    rewrite Hc, (IH Ha). reflexivity.
Qed.

Lemma contains_app_sep (sep : ascii) (a b : string) :
  Str.contains sep (a ++ String sep b) = true.
Proof.
  induction a as [|c a IH]; cbn [append Str.contains].
  - rewrite Ascii.eqb_refl. reflexivity.
  - rewrite IH. apply orb_true_r.
Qed.

Lemma split_one (sep : ascii) (s b : string) : Str.split sep s = [b] -> s = b.
Proof.
  revert b. induction s as [|c s IH]; intros b; cbn [Str.split].
  - intros H. injection H as <-. reflexivity.
  - destruct (Ascii.eqb c sep).
    + intros H. injection H as _ H. exfalso. exact (split_nonempty sep s H).
    + destruct (Str.split sep s) as [|h t] eqn:E.
      * intros H. exfalso. exact (split_nonempty sep s E).
      * intros H. injection H as <- ->. rewrite (IH h eq_refl). reflexivity.
Qed.

Lemma split_two (sep : ascii) (s a b : string) :
  Str.split sep s = [a; b] -> s = a ++ String sep b.
Proof.
  revert a. induction s as [|c s IH]; intros a; cbn [Str.split]; [discriminate|].
  destruct (Ascii.eqb_spec c sep) as [->|Hne].
  - intros H. injection H as <- H. apply split_one in H. subst s. reflexivity.
  - destruct (Str.split sep s) as [|h t] eqn:E; [discriminate|].
    intros H. injection H as <- ->. cbn [append]. rewrite (IH h eq_refl). reflexivity.
Qed.

(** The validator accepts exactly the format, on the upper-cased and
    stripped symbol, which it returns. *)
Lemma validate_symbol_format_spec (v : string) :
  (base_quote_format (Str.strip (Str.upper v)) /\
   TradeCreate.validate_symbol_format v = Some (Str.strip (Str.upper v))) \/
  (~ base_quote_format (Str.strip (Str.upper v)) /\
   TradeCreate.validate_symbol_format v = None).
Proof.
  unfold TradeCreate.validate_symbol_format.
  set (s := Str.strip (Str.upper v)).
  destruct (Str.contains "/" s) eqn:Hc; cbn [negb].
  - destruct (Str.split "/" s) as [|a [|b [|c l]]] eqn:Hs; cbn [List.length Nat.eqb negb orb].
    + right. split; [|reflexivity]. exfalso. exact (split_nonempty _ _ Hs).
    + right. split; [|reflexivity].
      intros (a' & b' & E & Ha & Hb).
      rewrite E, split_app_sep, split_without_sep in Hs
        by (apply all_alpha_no_slash, isalpha_nonempty; assumption).
      discriminate.
    + destruct (forallb Str.isalpha [a; b]) eqn:Hf; cbn [negb].
      * left. split; [|reflexivity]. cbn [forallb] in Hf.
        apply andb_true_iff in Hf. destruct Hf as [Ha Hb].
        apply andb_true_iff in Hb. destruct Hb as [Hb _].
        exists a, b. split; [apply split_two; exact Hs|]. split; assumption.
      * right. split; [|reflexivity].
        intros (a' & b' & E & Ha & Hb).
        rewrite E, split_app_sep, split_without_sep in Hs
          by (apply all_alpha_no_slash, isalpha_nonempty; assumption).
        injection Hs as -> ->. cbn [forallb] in Hf. rewrite Ha, Hb in Hf. discriminate.
    + right. split; [|reflexivity].
      intros (a' & b' & E & Ha & Hb).
      rewrite E, split_app_sep, split_without_sep in Hs
        by (apply all_alpha_no_slash, isalpha_nonempty; assumption).
      discriminate.
  - right. split; [|reflexivity].
    intros (a & b & E & _). rewrite E, contains_app_sep in Hc. discriminate.
Qed.

Lemma symbol_field_spec (v : string) :
  (symbol_accepted v /\ TradeCreate.symbol_field v = Some (Str.strip (Str.upper v))) \/
  (~ symbol_accepted v /\ TradeCreate.symbol_field v = None).
Proof.
  unfold TradeCreate.symbol_field, symbol_accepted, Str.len.
  destruct (validate_symbol_format_spec v) as [[Hf Hv]|[Hf Hv]].
  - pose proof (base_quote_format_length _ Hf) as H3.
    pose proof (length_strip_upper v) as Hl.
    replace (3 <=? Z.of_nat (String.length v))%Z with true
      by (symmetry; apply Z.leb_le; lia).
    cbn [andb]. destruct (Z.of_nat (String.length v) <=? 20)%Z eqn:E.
    + left. apply Z.leb_le in E. auto.
    + right. apply Z.leb_gt in E. split; [lia|reflexivity].
  - right. split; [tauto|]. rewrite Hv. destruct (_ && _); reflexivity.
Qed.

End Symbols.

(** * Opening a trade *)

Lemma decimal_field_gt0_round (v : Decimal) :
  Dec_leb v max8 = true ->
  decimal_field_gt0 TradeCreate.validate_precision v
  = Ok (if Dec.gtb v Dec.zero then Some (rescale v (-8)) else None).
Proof.
  intros Hle. unfold decimal_field_gt0, TradeCreate.validate_precision.
  destruct (Dec.gtb v Dec.zero) eqn:G; [|reflexivity].
  rewrite (round8_ok v G Hle). reflexivity.
Qed.

(** C5 (amended): for an ASCII symbol and an entry price and a quantity
    not above 99999999999999999999.99999999, opening a trade fails with
    [ValidationError] exactly when the entry price is not above zero, or
    the quantity is not above zero, or the symbol is longer than 20
    characters, or the symbol, upper-cased and stripped of surrounding
    white space, does not consist of exactly one ['/'] separating two
    alphabetic segments.  Otherwise the entry price and the quantity are
    rounded half-even to eight places and committed to their
    [Numeric(18, 8)] columns: the request appends one row to the table,
    owned by the caller, whose symbol is that upper-cased and stripped
    text, whose entry price and quantity are the rounded ones as the
    database stored them, whose status is OPEN and whose [exit_price],
    [realized_pnl] and [closed_at] are null, or it raises the error of
    the commit and adds nothing.  On an engine that keeps what fits the
    column, rounded values that fit are stored as they are. *)
Theorem open_validation (engine : Engine) (db : Db) (now : Z) (current_user : User.t)
    (body : TradeCreate.t) :
  Str.is_ascii (TradeCreate.symbol body) ->
  Dec_leb (TradeCreate.entry_price body) max8 = true ->
  Dec_leb (TradeCreate.quantity body) max8 = true ->
  ((Dec.gtb (TradeCreate.entry_price body) Dec.zero = false \/
    Dec.gtb (TradeCreate.quantity body) Dec.zero = false \/
    ~ symbol_accepted (TradeCreate.symbol body)) ->
   post_trades engine db now current_user body = Err ValidationError) /\
  (Dec.gtb (TradeCreate.entry_price body) Dec.zero = true ->
   Dec.gtb (TradeCreate.quantity body) Dec.zero = true ->
   symbol_accepted (TradeCreate.symbol body) ->
   post_trades engine db now current_user body <> Err ValidationError /\
   exists e8 q8,
     Dec.round_ (TradeCreate.entry_price body) 8 = Ok e8 /\
     Dec.round_ (TradeCreate.quantity body) 8 = Ok q8 /\
     places8 e8 /\ places8 q8 /\
     (Qabs (to_Q e8 - to_Q (TradeCreate.entry_price body))
        <= (1 # 2) * Qpower 10 (-8))%Q /\
     (Qabs (to_Q q8 - to_Q (TradeCreate.quantity body))
        <= (1 # 2) * Qpower 10 (-8))%Q /\
     post_trades engine db now current_user body
       = (let* stored_price := commit_numeric engine e8 in
          let* stored_quantity := commit_numeric engine q8 in
          let t :=
            opened_row db now (User.id current_user)
              (Str.strip (Str.upper (TradeCreate.symbol body)))
              stored_price stored_quantity (TradeCreate.trade_type body) in
          Ok (db ++ [t], t)) /\
     (forall B,
         stores_exactly engine B -> coef e8 < B -> coef q8 < B ->
         exists t,
           post_trades engine db now current_user body = Ok (db ++ [t], t) /\
           user_id t = User.id current_user /\
           symbol t = Str.strip (Str.upper (TradeCreate.symbol body)) /\
           Str.upper (symbol t) = symbol t /\
           entry_price t = e8 /\ quantity t = q8 /\
           trade_type t = TradeCreate.trade_type body /\
           status t = OPEN /\ exit_price t = None /\ realized_pnl t = None /\
           closed_at t = None /\ created_at t = now)).
Proof.
  intros _ He Hq.
  assert (Hval : TradeCreate.validate body =
    match TradeCreate.symbol_field (TradeCreate.symbol body),
          (if Dec.gtb (TradeCreate.entry_price body) Dec.zero
           then Some (rescale (TradeCreate.entry_price body) (-8)) else None),
          (if Dec.gtb (TradeCreate.quantity body) Dec.zero
           then Some (rescale (TradeCreate.quantity body) (-8)) else None) with
    | Some s, Some e, Some q => Ok (TradeCreate.mk s e q (TradeCreate.trade_type body))
    | _, _, _ => Err ValidationError
    end).
  { unfold TradeCreate.validate.
    rewrite (decimal_field_gt0_round _ He), (decimal_field_gt0_round _ Hq).
    reflexivity. }
  unfold post_trades. rewrite Hval. clear Hval.
  destruct (symbol_field_spec (TradeCreate.symbol body)) as [[Hs ->]|[Hs ->]].
  - split.
    + intros [H|[H|H]]; [rewrite H; reflexivity| |contradiction].
      rewrite H. destruct (Dec.gtb (TradeCreate.entry_price body) Dec.zero); reflexivity.
    + intros Ge Gq _. rewrite Ge, Gq. cbn [bind].
      unfold trades.create_trade, TradeService.create_trade, opened_row.
      cbn [TradeCreate.symbol TradeCreate.entry_price TradeCreate.quantity
           TradeCreate.trade_type].
      set (e8 := rescale (TradeCreate.entry_price body) (-8)).
      set (q8 := rescale (TradeCreate.quantity body) (-8)).
      assert (He8 : places8 e8) by (apply rescale8_places; assumption).
      assert (Hq8 : places8 q8) by (apply rescale8_places; assumption).
      split.
      { unfold commit_numeric.
        destruct (numeric_18_8 engine e8); cbn [bind]; [|discriminate].
        destruct (numeric_18_8 engine q8); cbn [bind]; discriminate. }
      exists e8, q8.
      split; [apply round8_ok; assumption|]. split; [apply round8_ok; assumption|].
      split; [exact He8|]. split; [exact Hq8|].
      split; [apply rescale_nearest|]. split; [apply rescale_nearest|].
      split; [reflexivity|].
      intros B Hlaw HeB HqB. unfold commit_numeric.
      destruct He8 as [Hee Hec], Hq8 as [Hqe Hqc].
      rewrite (Hlaw e8 (coef e8)) by (try apply eqb_eight_places; try assumption; lia).
      cbn [bind].
      rewrite (Hlaw q8 (coef q8)) by (try apply eqb_eight_places; try assumption; lia).
      cbn [bind].
      replace (mkDecimal (coef e8) (-8)) with e8
        by (destruct e8 as [c x]; cbn [coef dexp] in *; congruence).
      replace (mkDecimal (coef q8) (-8)) with q8
        by (destruct q8 as [c x]; cbn [coef dexp] in *; congruence).
      eexists. split; [reflexivity|].
      cbn [user_id symbol entry_price quantity trade_type status exit_price
           realized_pnl closed_at created_at].
      repeat split. apply upper_strip_upper.
  - split.
    + intros _. destruct (Dec.gtb (TradeCreate.entry_price body) Dec.zero);
        [destruct (Dec.gtb (TradeCreate.quantity body) Dec.zero)|]; reflexivity.
    + intros _ _ H. contradiction.
Qed.

Lemma open_validation_witness :
  exists t,
    post_trades PostgreSQL.engine [] 0 alice
      (TradeCreate.mk " btc/usdt " (mkDecimal 50000 0) (mkDecimal 1 (-1)) BUY)
      = Ok ([] ++ [t], t) /\
    symbol t = "BTC/USDT"%string /\ status t = OPEN /\
    entry_price t = mkDecimal 5000000000000 (-8) /\
    quantity t = mkDecimal 10000000 (-8).
Proof.
  assert (Hascii : Str.is_ascii " btc/usdt ").
  { unfold Str.is_ascii. cbn. repeat (constructor; [reflexivity|]). constructor. }
  assert (Hfmt : symbol_accepted " btc/usdt ").
  { split; [decide_by_computation|].
    exists "BTC"%string, "USDT"%string. repeat split. }
  destruct (proj2 (open_validation PostgreSQL.engine [] 0 alice
                     (TradeCreate.mk " btc/usdt " (mkDecimal 50000 0)
                        (mkDecimal 1 (-1)) BUY)
                     Hascii eq_refl eq_refl) eq_refl eq_refl Hfmt)
    as (_ & e8 & q8 & He & Hq & _ & _ & _ & _ & _ & Hexact).
  assert (He8 : e8 = mkDecimal 5000000000000 (-8))
    by (vm_compute in He; congruence).
  assert (Hq8 : q8 = mkDecimal 10000000 (-8))
    by (vm_compute in Hq; congruence).
  subst e8 q8.
  destruct (Hexact (10 ^ 18) PostgreSQL_stores_exactly
              ltac:(vm_compute; reflexivity) ltac:(vm_compute; reflexivity))
    as (t & Hpost & _ & Hsym & _ & Het & Hqt & _ & Hst & _).
  exists t. repeat split; assumption.
Defined.

(** C5, as stated, fails on a long symbol: BITCOINCASHTOKEN/USDT is one
    ['/'] between two alphabetic segments, price and quantity are
    positive, and the request fails with [ValidationError] because the
    symbol has 21 characters, before any database is asked. *)
Lemma open_rejects_long_symbol :
  Dec.gtb (mkDecimal 1 0) Dec.zero = true /\
  base_quote_format "BITCOINCASHTOKEN/USDT" /\
  post_trades PostgreSQL.engine [] 0 alice
    (TradeCreate.mk "BITCOINCASHTOKEN/USDT" (mkDecimal 1 0) (mkDecimal 1 0) BUY)
    = Err ValidationError /\
  post_trades SQLite.engine [] 0 alice
    (TradeCreate.mk "BITCOINCASHTOKEN/USDT" (mkDecimal 1 0) (mkDecimal 1 0) BUY)
    = Err ValidationError.
Proof.
  split; [reflexivity|]. split; [|split; vm_compute; reflexivity].
  exists "BITCOINCASHTOKEN"%string, "USDT"%string. repeat split.
Qed.

(** Values that pass the schema and do not fit the column: an entry
    price of 20000000000 is rounded to eight places and then refused by
    PostgreSQL, and no row is added; SQLite records it. *)
Lemma open_refused_by_column :
  post_trades PostgreSQL.engine [] 0 alice
    (TradeCreate.mk "BTC/USDT" (mkDecimal 2 10) (mkDecimal 1 0) BUY)
    = Err DBAPIError /\
  exists t,
    post_trades SQLite.engine [] 0 alice
      (TradeCreate.mk "BTC/USDT" (mkDecimal 2 10) (mkDecimal 1 0) BUY)
      = Ok ([t], t) /\
    entry_price t = mkDecimal 2000000000000000000 (-8).
Proof.
  split; [vm_compute; reflexivity|].
  eexists. split; [vm_compute; reflexivity|reflexivity].
Qed.

(** In the other direction, a symbol in lower case with surrounding
    blanks is accepted and stored as BTC/USDT. *)
Lemma open_accepts_padded_symbol :
  ~ base_quote_format " btc/usdt " /\
  exists t,
    post_trades PostgreSQL.engine [] 0 alice
      (TradeCreate.mk " btc/usdt " (mkDecimal 50000 0) (mkDecimal 1 (-1)) BUY)
      = Ok ([t], t) /\ symbol t = "BTC/USDT"%string.
Proof.
  split.
  - intros (a & b & E & Ha & _).
    destruct a as [|c a]; [discriminate Ha|].
    cbn [append] in E. injection E as <- _. discriminate Ha.
  - eexists. split; [vm_compute; reflexivity|reflexivity].
Qed.

(** * Further properties: rounding of prices and quantities *)

Section RoundingBounds.

Lemma ndigits_ge (c k : Z) : 0 <= k -> 10 ^ k <= Z.abs c -> k + 1 <= ndigits c.
Proof.
  intros Hk Hle.
  assert (Hc : c <> 0) by (pose proof (pow10_pos k Hk); lia).
  destruct (ndigits_spec c Hc) as (Hd & _ & Hhi).
  destruct (Z_le_gt_dec (k + 1) (ndigits c)) as [|Hgt]; [assumption|exfalso].
  assert (10 ^ ndigits c <= 10 ^ k) by (apply Z.pow_le_mono_r; lia).
  lia.
Qed.

Lemma ltb_round8_limit (x : Decimal) :
  Dec.ltb x round8_limit = true <->
  coef x * 10 ^ (dexp x - Z.min (dexp x) (-9))
  < (10 ^ 29 - 5) * 10 ^ (-9 - Z.min (dexp x) (-9)).
Proof.
  unfold Dec.ltb, Dec.cmp, align, round8_limit; cbn [coef dexp].
  destruct (_ ?= _) eqn:E.
  - apply Z.compare_eq_iff in E. split; [discriminate|lia].
  - rewrite Z.compare_lt_iff in E. split; [intros _; exact E|reflexivity].
  - rewrite Z.compare_gt_iff in E. split; [discriminate|lia].
Qed.

(** A decimal of eight places with at most 28 digits is a fixed point of
    the rounding. *)
Lemma round8_fixed_point (r : Decimal) :
  dexp r = -8 -> Z.abs (coef r) < 10 ^ 28 -> Dec.round_ r 8 = Ok r.
Proof.
  intros He Hc. destruct r as [c e]. cbn [coef dexp] in *. subst e.
  assert (Hwc : within_context (mkDecimal c (-8))).
  { unfold within_context, Etiny, Etop, Emin, Emax, prec. cbn [coef dexp]. lia. }
  unfold Dec.round_. change (- (8)) with (-8).
  unfold quantize, adjusted, Emax, prec. cbn [coef dexp].
  destruct (c =? 0) eqn:E0.
  { apply Z.eqb_eq in E0. subst c. reflexivity. }
  pose proof (ndigits_le c 28 ltac:(lia) Hc) as Hn.
  rewrite !gtb_false by lia.
  assert (Hr : rescale (mkDecimal c (-8)) (-8) = mkDecimal c (-8)).
  { unfold rescale, align. cbn [coef dexp]. rewrite E0.
    change (-8 >=? -8) with true. change (10 ^ (-8 - -8)) with 1.
    rewrite Z.mul_1_r. reflexivity. }
  rewrite Hr. cbn [coef dexp]. rewrite !gtb_false by lia.
  apply fix_within_context. exact Hwc.
Qed.

(** Whatever [round(v, 8)] returns has eight places and at most 28
    digits, and is the rescaled input. *)
Lemma round8_shape (v r : Decimal) :
  Dec.round_ v 8 = Ok r ->
  r = rescale v (-8) /\ dexp r = -8 /\ Z.abs (coef r) < 10 ^ 28.
Proof.
  unfold Dec.round_. change (- (8)) with (-8). unfold quantize.
  destruct (coef v =? 0) eqn:E0.
  { intros H. vm_compute in H. injection H as <-.
    unfold rescale. rewrite E0. repeat split. }
  destruct (adjusted v >? Emax); [discriminate|].
  destruct (adjusted v - -8 + 1 >? prec); [discriminate|].
  destruct (adjusted (rescale v (-8)) >? Emax); [discriminate|].
  destruct (ndigits (coef (rescale v (-8))) >? prec) eqn:E4; [discriminate|].
  rewrite Z.gtb_ltb in E4. apply Z.ltb_ge in E4. unfold prec in E4.
  assert (He : dexp (rescale v (-8)) = -8).
  { unfold rescale. destruct (coef v =? 0); [reflexivity|].
    destruct (dexp v >=? -8); reflexivity. }
  assert (Hc : Z.abs (coef (rescale v (-8))) < 10 ^ 28).
  { destruct (Z.eq_dec (coef (rescale v (-8))) 0) as [->|Hne]; [reflexivity|].
    destruct (ndigits_spec _ Hne) as (_ & _ & Hhi).
    assert (10 ^ ndigits (coef (rescale v (-8))) <= 10 ^ 28)
      by (apply Z.pow_le_mono_r; lia).
    lia. }
  rewrite fix_within_context.
  - intros H. injection H as <-. repeat split; assumption.
  - unfold within_context, Etiny, Etop, Emin, Emax, prec. rewrite He. lia.
Qed.

(** The rounding of a positive value succeeds exactly below
    [round8_limit]; above, the result would need 29 digits. *)
Lemma round8_threshold (x : Decimal) :
  0 < coef x ->
  Dec.round_ x 8 =
  if Dec.ltb x round8_limit then Ok (rescale x (-8)) else Err InvalidOperation.
Proof.
  intros Hc. destruct x as [c e]. cbn [coef] in Hc.
  destruct (ndigits_spec c ltac:(lia)) as (Hd & Hlo & Hhi).
  rewrite Z.abs_eq in Hlo, Hhi by lia.
  unfold Dec.round_. change (- (8)) with (-8).
  unfold quantize, adjusted, Emax, prec. cbn [coef dexp].
  replace (c =? 0) with false by (symmetry; apply Z.eqb_neq; lia).
  destruct (Z_le_gt_dec (ndigits c + e + 8) 28) as [Hfit|Hwide].
  - (* the integer part has at most 20 digits *)
    rewrite !gtb_false by lia.
    assert (Hexp : dexp (rescale (mkDecimal c e) (-8)) = -8).
    { unfold rescale. cbn [coef dexp]. destruct (c =? 0); [reflexivity|].
      destruct (e >=? -8); reflexivity. }
    rewrite Hexp.
    assert (Hkey : 0 <= coef (rescale (mkDecimal c e) (-8)) /\
              (Dec.ltb (mkDecimal c e) round8_limit = true ->
               coef (rescale (mkDecimal c e) (-8)) < 10 ^ 28) /\
              (Dec.ltb (mkDecimal c e) round8_limit = false ->
               coef (rescale (mkDecimal c e) (-8)) = 10 ^ 28)).
    { unfold rescale. cbn [coef dexp].
      replace (c =? 0) with false by (symmetry; apply Z.eqb_neq; lia).
      destruct (e >=? -8) eqn:E1; cbn [coef].
      - rewrite Z.geb_leb in E1. apply Z.leb_le in E1. unfold align. cbn [coef dexp].
        assert (Hy : c * 10 ^ (e - -8) < 10 ^ 28).
        { assert (10 ^ ndigits c * 10 ^ (e - -8) <= 10 ^ 28).
          { rewrite <- Z.pow_add_r by lia. apply Z.pow_le_mono_r; lia. }
          pose proof (pow10_pos (e - -8) ltac:(lia)). nia. }
        pose proof (pow10_pos (e - -8) ltac:(lia)).
        split; [nia|]. split; [intros _; exact Hy|].
        intros Hf. exfalso.
        assert (Ht : Dec.ltb (mkDecimal c e) round8_limit = true).
        { apply ltb_round8_limit. cbn [coef dexp]. rewrite Z.min_r by lia.
          replace (-9 - -9) with 0 by lia. rewrite Z.pow_0_r.
          replace (e - -9) with ((e - -8) + 1) by lia.
          rewrite Z.pow_add_r by lia. change (10 ^ 1) with 10.
          change (10 ^ 29) with (10 ^ 28 * 10). lia. }
        congruence.
      - rewrite Z.geb_leb in E1. apply Z.leb_gt in E1.
        rewrite Z.abs_eq, Z.sgn_pos, Z.mul_1_l by lia.
        set (k := -8 - e). assert (Hk : 1 <= k) by (subst k; lia).
        pose proof (pow10_pos k ltac:(lia)) as HP.
        pose proof (Z.div_mod c (10 ^ k) ltac:(lia)) as Hdm.
        pose proof (Z.mod_pos_bound c (10 ^ k) HP) as Hr.
        assert (Hcb : c < 10 ^ 28 * 10 ^ k).
        { rewrite <- Z.pow_add_r by lia.
          assert (10 ^ ndigits c <= 10 ^ (28 + k))
            by (apply Z.pow_le_mono_r; subst k; lia).
          lia. }
        assert (Hq0 : 0 <= c / 10 ^ k) by (apply Z.div_pos; lia).
        assert (Hq : c / 10 ^ k <= 10 ^ 28 - 1).
        { assert (c / 10 ^ k < 10 ^ 28) by (apply Z.div_lt_upper_bound; lia). lia. }
        assert (Hlt : Dec.ltb (mkDecimal c e) round8_limit = true <->
                      2 * c < (2 * 10 ^ 28 - 1) * 10 ^ k).
        { rewrite ltb_round8_limit. cbn [coef dexp]. rewrite Z.min_l by lia.
          replace (e - e) with 0 by lia. rewrite Z.pow_0_r.
          assert (HP10 : 10 ^ k = 10 ^ (-9 - e) * 10).
          { replace k with (Z.succ (-9 - e)) by (subst k; lia).
            rewrite Z.pow_succ_r by lia. lia. }
          rewrite HP10.
          pose proof (pow10_pos (-9 - e) ltac:(lia)).
          change (10 ^ 29) with (10 ^ 28 * 10). lia. }
        unfold round_half_even.
        set (q := c / 10 ^ k) in *. set (r := c mod 10 ^ k) in *.
        split; [destruct (_ || _); lia|].
        destruct (Z.eq_dec q (10 ^ 28 - 1)) as [Eq|Hne].
        + assert (Hodd : Z.odd q = true) by (rewrite Eq; reflexivity).
          rewrite Hodd, andb_true_r.
          split.
          * intros Ht. apply Hlt in Ht.
            replace (2 * r >? 10 ^ k) with false
              by (symmetry; apply gtb_false; nia).
            replace (2 * r =? 10 ^ k) with false
              by (symmetry; apply Z.eqb_neq; nia).
            cbn [orb]. lia.
          * intros Hf.
            destruct (Z_lt_ge_dec (2 * r) (10 ^ k)) as [Hs|Hs].
            { exfalso. assert (Dec.ltb (mkDecimal c e) round8_limit = true)
                by (apply Hlt; nia). congruence. }
            destruct (2 * r >? 10 ^ k) eqn:G; cbn [orb]; [lia|].
            rewrite Z.gtb_ltb in G. apply Z.ltb_ge in G.
            replace (2 * r =? 10 ^ k) with true
              by (symmetry; apply Z.eqb_eq; lia).
            lia.
        + split.
          * intros _. destruct (_ || _); lia.
          * intros Hf. exfalso.
            assert (Dec.ltb (mkDecimal c e) round8_limit = true)
              by (apply Hlt; nia).
            congruence. }
    destruct Hkey as (H0 & Hok & Hbad).
    destruct (Dec.ltb (mkDecimal c e) round8_limit) eqn:L.
    + specialize (Hok eq_refl).
      pose proof (ndigits_le (coef (rescale (mkDecimal c e) (-8))) 28 ltac:(lia)
                    ltac:(rewrite Z.abs_eq; lia)) as Hn.
      rewrite !gtb_false by lia.
      apply fix_within_context.
      unfold within_context, Etiny, Etop, Emin, Emax, prec.
      rewrite Hexp, Z.abs_eq by lia. lia.
    + specialize (Hbad eq_refl). rewrite Hbad.
      change (ndigits (10 ^ 28)) with 29.
      change (29 + -8 - 1 >? 999999) with false.
      change (29 >? 28) with true. reflexivity.
  - (* more than 20 digits before the point *)
    assert (Hf : Dec.ltb (mkDecimal c e) round8_limit = false).
    { destruct (Dec.ltb (mkDecimal c e) round8_limit) eqn:L; [exfalso|reflexivity].
      apply ltb_round8_limit in L. cbn [coef dexp] in L.
      destruct (Z_le_gt_dec e (-9)) as [He|He].
      - rewrite Z.min_l in L by lia.
        replace (e - e) with 0 in L by lia. rewrite Z.pow_0_r in L.
        assert (10 ^ 29 * 10 ^ (-9 - e) <= 10 ^ (ndigits c - 1)).
        { rewrite <- Z.pow_add_r by lia. apply Z.pow_le_mono_r; lia. }
        pose proof (pow10_pos (-9 - e) ltac:(lia)). nia.
      - rewrite Z.min_r in L by lia.
        replace (-9 - -9) with 0 in L by lia. rewrite Z.pow_0_r in L.
        assert (10 ^ 29 <= 10 ^ (ndigits c - 1) * 10 ^ (e - -9)).
        { rewrite <- Z.pow_add_r by lia. apply Z.pow_le_mono_r; lia. }
        pose proof (pow10_pos (e - -9) ltac:(lia)). nia. }
    rewrite Hf.
    destruct (ndigits c + e - 1 >? 999999); [reflexivity|].
    replace (ndigits c + e - 1 - -8 + 1 >? 28) with true
      by (symmetry; apply Z.gtb_lt; lia).
    reflexivity.
Qed.

End RoundingBounds.

Section ValidatedPrices.

(** X1: the schema of a close request has exactly three outcomes, decided
    by the exit price alone: not above zero, [ValidationError]; above
    zero and below 99999999999999999999.999999995, the price rounded
    half-even to eight places; from there on, [InvalidOperation]. *)
Theorem TradeClose_validate_outcome (body : TradeClose.t) :
  TradeClose.validate body =
  if Dec.gtb (TradeClose.exit_price body) Dec.zero then
    if Dec.ltb (TradeClose.exit_price body) round8_limit
    then Ok (TradeClose.mk (rescale (TradeClose.exit_price body) (-8)))
    else Err InvalidOperation
  else Err ValidationError.
Proof.
  unfold TradeClose.validate, decimal_field_gt0, TradeClose.validate_precision.
  destruct (Dec.gtb (TradeClose.exit_price body) Dec.zero) eqn:G; [|reflexivity].
  apply gtb_zero in G. rewrite (round8_threshold _ G).
  destruct (Dec.ltb (TradeClose.exit_price body) round8_limit); reflexivity.
Qed.

(** X2: what [validate_precision] returns has eight places, is within
    half a unit of the eighth place of its input, has the value of its
    input when that has no more than eight places, and is left as it is
    by a second validation. *)
Theorem validate_precision_idempotent (v r : Decimal) :
  TradeCreate.validate_precision v = Ok r ->
  TradeCreate.validate_precision r = Ok r /\
  dexp r = -8 /\
  (Qabs (to_Q r - to_Q v) <= (1 # 2) * Qpower 10 (-8))%Q /\
  (-8 <= dexp v -> (to_Q r == to_Q v)%Q).
Proof.
  unfold TradeCreate.validate_precision. intros H.
  destruct (round8_shape v r H) as (-> & He & Hc).
  split; [apply round8_fixed_point; assumption|]. split; [exact He|].
  split; [apply rescale_nearest|].
  intros Hv. unfold rescale.
  destruct (coef v =? 0) eqn:E0.
  - apply Z.eqb_eq in E0. unfold to_Q; cbn [coef dexp]. rewrite E0. ring.
  - replace (dexp v >=? -8) with true
      by (symmetry; rewrite Z.geb_leb; apply Z.leb_le; lia).
    unfold to_Q at 1; cbn [coef dexp]. apply to_Q_align. lia.
Qed.

Lemma validate_precision_idempotent_witness :
  TradeCreate.validate_precision (mkDecimal 123456789012 (-11))
    = Ok (mkDecimal 123456789 (-8)) /\
  TradeCreate.validate_precision (mkDecimal 123456789 (-8))
    = Ok (mkDecimal 123456789 (-8)).
Proof.
  assert (H : TradeCreate.validate_precision (mkDecimal 123456789012 (-11))
              = Ok (mkDecimal 123456789 (-8))) by (vm_compute; reflexivity).
  split; [exact H|].
  exact (proj1 (validate_precision_idempotent _ _ H)).
Defined.

Lemma decimal_field_gt0_inv (v r : Decimal) :
  decimal_field_gt0 TradeCreate.validate_precision v = Ok (Some r) ->
  0 < coef v /\ Dec.round_ v 8 = Ok r.
Proof.
  unfold decimal_field_gt0, TradeCreate.validate_precision.
  destruct (Dec.gtb v Dec.zero) eqn:G; [|discriminate].
  apply gtb_zero in G. destruct (Dec.round_ v 8) as [r'|e]; cbn [bind]; [|discriminate].
  intros H. injection H as <-. split; [exact G|reflexivity].
Qed.

(** What an accepted [TradeCreate] body went through. *)
Lemma TradeCreate_validate_inv (body data : TradeCreate.t) :
  TradeCreate.validate body = Ok data ->
  TradeCreate.symbol_field (TradeCreate.symbol body) = Some (TradeCreate.symbol data) /\
  0 < coef (TradeCreate.entry_price body) /\
  Dec.round_ (TradeCreate.entry_price body) 8 = Ok (TradeCreate.entry_price data) /\
  0 < coef (TradeCreate.quantity body) /\
  Dec.round_ (TradeCreate.quantity body) 8 = Ok (TradeCreate.quantity data) /\
  TradeCreate.trade_type data = TradeCreate.trade_type body.
Proof.
  unfold TradeCreate.validate.
  destruct (decimal_field_gt0 _ (TradeCreate.entry_price body)) as [e|err] eqn:He;
    cbn [bind]; [|discriminate].
  destruct (decimal_field_gt0 _ (TradeCreate.quantity body)) as [q|err] eqn:Hq;
    cbn [bind]; [|discriminate].
  destruct (TradeCreate.symbol_field (TradeCreate.symbol body)) as [s|];
    [|discriminate].
  destruct e as [e|]; [|discriminate]. destruct q as [q|]; [|discriminate].
  intros H. injection H as <-. cbn.
  apply decimal_field_gt0_inv in He. apply decimal_field_gt0_inv in Hq.
  tauto.
Qed.

(** A positive value keeps a positive rounding exactly above half a unit
    of the eighth place. *)
Lemma rescale8_positive (v : Decimal) :
  0 < coef v ->
  Dec.gtb (rescale v (-8)) Dec.zero = Dec.gtb v half_unit8.
Proof.
  intros Hc. destruct v as [c e]. cbn [coef] in Hc.
  assert (Hl : Dec.gtb (rescale (mkDecimal c e) (-8)) Dec.zero = true <->
               0 < coef (rescale (mkDecimal c e) (-8))) by apply gtb_zero.
  assert (Hr : Dec.gtb (mkDecimal c e) half_unit8 = true <->
               5 * 10 ^ (-9 - Z.min (-9) e) < c * 10 ^ (e - Z.min (-9) e)).
  { unfold Dec.gtb, Dec.ltb, Dec.cmp, align, half_unit8. cbn [coef dexp].
    destruct (_ ?= _) eqn:E.
    - apply Z.compare_eq_iff in E. split; [discriminate|lia].
    - rewrite Z.compare_lt_iff in E. split; [intros _; exact E|reflexivity].
    - rewrite Z.compare_gt_iff in E. split; [discriminate|lia]. }
  assert (Hiff : 0 < coef (rescale (mkDecimal c e) (-8)) <->
                 5 * 10 ^ (-9 - Z.min (-9) e) < c * 10 ^ (e - Z.min (-9) e)).
  { unfold rescale. cbn [coef dexp].
    replace (c =? 0) with false by (symmetry; apply Z.eqb_neq; lia).
    destruct (e >=? -8) eqn:E1; cbn [coef].
    - rewrite Z.geb_leb in E1. apply Z.leb_le in E1. unfold align. cbn [coef dexp].
      rewrite Z.min_l by lia. replace (-9 - -9) with 0 by lia. rewrite Z.pow_0_r.
      pose proof (pow10_pos (e - -8) ltac:(lia)).
      replace (e - -9) with (Z.succ (e - -8)) by lia.
      rewrite Z.pow_succ_r by lia. split; intros _; nia.
    - rewrite Z.geb_leb in E1. apply Z.leb_gt in E1.
      rewrite Z.abs_eq, Z.sgn_pos, Z.mul_1_l by lia.
      rewrite Z.min_r by lia. replace (e - e) with 0 by lia. rewrite Z.pow_0_r.
      set (k := -8 - e). assert (Hk : 1 <= k) by (subst k; lia).
      assert (HP10 : 10 ^ k = 10 ^ (-9 - e) * 10).
      { replace k with (Z.succ (-9 - e)) by (subst k; lia).
        rewrite Z.pow_succ_r by lia. lia. }
      pose proof (pow10_pos k ltac:(lia)) as HP.
      pose proof (Z.div_mod c (10 ^ k) ltac:(lia)) as Hdm.
      pose proof (Z.mod_pos_bound c (10 ^ k) HP) as Hmb.
      assert (Hq0 : 0 <= c / 10 ^ k) by (apply Z.div_pos; lia).
      unfold round_half_even.
      set (q := c / 10 ^ k) in *. set (r := c mod 10 ^ k) in *.
      destruct (Z.eq_dec q 0) as [Eq|Hne].
      + rewrite Eq in *. change (Z.odd 0) with false. rewrite andb_false_r, orb_false_r.
        destruct (2 * r >? 10 ^ k) eqn:G.
        * apply Z.gtb_lt in G. split; intros _; lia.
        * rewrite Z.gtb_ltb in G. apply Z.ltb_ge in G. split; intros; lia.
      + split; intros _; [nia|destruct (_ || _); lia]. }
  destruct (Dec.gtb (rescale (mkDecimal c e) (-8)) Dec.zero) eqn:A;
    destruct (Dec.gtb (mkDecimal c e) half_unit8) eqn:B; try reflexivity.
  - assert (true = true) as T by reflexivity.
    apply Hl in T. apply Hiff in T. apply Hr in T. discriminate.
  - assert (true = true) as T by reflexivity.
    apply Hr in T. apply Hiff in T. apply Hl in T. discriminate.
Qed.

(** X3: the schema compares the price with zero before it rounds it, so
    an accepted body can leave a zero behind: the stored entry price
    (and likewise the stored quantity) is above zero exactly when the
    requested one is above 0.000000005. *)
Theorem TradeCreate_validate_positivity (body data : TradeCreate.t) :
  TradeCreate.validate body = Ok data ->
  Dec.gtb (TradeCreate.entry_price data) Dec.zero
    = Dec.gtb (TradeCreate.entry_price body) half_unit8 /\
  Dec.gtb (TradeCreate.quantity data) Dec.zero
    = Dec.gtb (TradeCreate.quantity body) half_unit8.
Proof.
  intros H. apply TradeCreate_validate_inv in H.
  destruct H as (_ & Hec & He & Hqc & Hq & _).
  apply round8_shape in He. apply round8_shape in Hq.
  destruct He as (-> & _). destruct Hq as (-> & _).
  split; apply rescale8_positive; assumption.
Qed.

Lemma TradeCreate_validate_positivity_witness :
  TradeCreate.validate
    (TradeCreate.mk "BTC/USDT" (mkDecimal 5 (-9)) (mkDecimal 1 0) BUY)
    = Ok (TradeCreate.mk "BTC/USDT" (mkDecimal 0 (-8)) (mkDecimal 100000000 (-8)) BUY) /\
  Dec.gtb (mkDecimal 0 (-8)) Dec.zero = Dec.gtb (mkDecimal 5 (-9)) half_unit8.
Proof.
  assert (H : TradeCreate.validate
                (TradeCreate.mk "BTC/USDT" (mkDecimal 5 (-9)) (mkDecimal 1 0) BUY)
              = Ok (TradeCreate.mk "BTC/USDT" (mkDecimal 0 (-8))
                      (mkDecimal 100000000 (-8)) BUY))
    by (vm_compute; reflexivity).
  split; [exact H|].
  exact (proj1 (TradeCreate_validate_positivity _ _ H)).
Defined.

End ValidatedPrices.

(** * Further properties: the sign and the symmetry of the profit *)

Section ProfitSign.

(** Rounding to the context precision never turns a value into zero or
    flips its sign, as long as the exponent is not below [Etiny]. *)
Lemma fix_sgn (d r : Decimal) :
  Etiny <= dexp d -> fix_ d = Ok r -> Z.sgn (coef r) = Z.sgn (coef d).
Proof.
  destruct d as [c e]. unfold fix_, Etiny, Etop, Emin, Emax, prec.
  cbn [coef dexp]. intros He.
  destruct (c =? 0) eqn:E0.
  { apply Z.eqb_eq in E0. subst c. intros H. injection H as <-. reflexivity. }
  apply Z.eqb_neq in E0.
  destruct (ndigits c + e - 28 >? 999999 - 28 + 1); [discriminate|].
  destruct (e <? Z.max (ndigits c + e - 28) (-999999 - 28 + 1)) eqn:E2.
  2:{ intros H. injection H as <-. reflexivity. }
  apply Z.ltb_lt in E2.
  rewrite Z.max_l in * by lia.
  set (k := ndigits c + e - 28 - e) in *.
  assert (Hk : 1 <= k) by (subst k; lia).
  destruct (ndigits_spec c E0) as (_ & Hlo & _).
  pose proof (pow10_pos k ltac:(lia)) as Hp.
  assert (Hq : 10 ^ 27 <= Z.abs c / 10 ^ k).
  { apply Z.div_le_lower_bound; [lia|].
    rewrite <- Z.pow_add_r by lia.
    replace (k + 27) with (ndigits c - 1) by (subst k; lia). exact Hlo. }
  assert (Hr : 10 ^ 27 <= round_half_even (Z.abs c) k).
  { destruct (round_half_even_cases (Z.abs c) k) as [[-> _]|[-> _]]; lia. }
  assert (Hr10 : 0 < round_half_even (Z.abs c) k / 10).
  { apply Z.div_str_pos. change (10 ^ 27) with 1000000000000000000000000000 in Hr.
    lia. }
  assert (H27 : 0 < 10 ^ 27) by (apply pow10_pos; lia).
  destruct (ndigits (round_half_even (Z.abs c) k) >? 28); cbv beta iota;
    match goal with |- context [if ?b then Err _ else _] => destruct b end;
    try discriminate; intros H; injection H as <-; cbn [coef];
    rewrite Z.sgn_mul, Z.sgn_sgn.
  - rewrite (Z.sgn_pos (_ / 10)) by exact Hr10. lia.
  - rewrite (Z.sgn_pos (round_half_even _ _)) by lia. lia.
Qed.

Lemma fix_neg (d : Decimal) :
  fix_ (neg d) = let* r := fix_ d in Ok (neg r).
Proof.
  destruct d as [c e]. unfold fix_, neg. cbn [coef dexp].
  assert (Hn : ndigits (- c) = ndigits c) by (unfold ndigits; rewrite Z.abs_opp; reflexivity).
  rewrite Hn, Z.abs_opp, Z.sgn_opp.
  replace (- c =? 0) with (c =? 0)
    by (destruct (c =? 0) eqn:E; symmetry;
        [apply Z.eqb_eq in E; apply Z.eqb_eq; lia
        |apply Z.eqb_neq in E; apply Z.eqb_neq; lia]).
  destruct (c =? 0); [reflexivity|].
  destruct (_ >? Etop); [reflexivity|].
  destruct (e <? _); [|reflexivity].
  destruct (ndigits _ >? prec); destruct (_ >? Etop); cbn [bind coef dexp];
    try reflexivity; do 2 f_equal; lia.
Qed.

Lemma exact_sub_swap (a b : Decimal) : exact_sub b a = neg (exact_sub a b).
Proof.
  unfold exact_sub, exact_add, neg, align. cbn [coef dexp].
  rewrite (Z.min_comm (dexp b) (dexp a)). f_equal. ring.
Qed.

Lemma exact_mul_neg (d q : Decimal) : exact_mul (neg d) q = neg (exact_mul d q).
Proof. unfold exact_mul, neg. cbn [coef dexp]. f_equal. ring. Qed.

(** Comparisons of two decimals of the same exponent, and with zero. *)
Lemma ltb_same_exp (a b : Decimal) :
  dexp a = dexp b -> Dec.ltb a b = (coef a <? coef b).
Proof.
  intros E. unfold Dec.ltb, Dec.cmp, align. rewrite E, Z.min_id, Z.sub_diag.
  rewrite Z.pow_0_r, !Z.mul_1_r.
  destruct (coef a ?= coef b) eqn:C; symmetry.
  - apply Z.compare_eq_iff in C. apply Z.ltb_ge. lia.
  - rewrite Z.compare_lt_iff in C. apply Z.ltb_lt. lia.
  - rewrite Z.compare_gt_iff in C. apply Z.ltb_ge. lia.
Qed.

Lemma gtb_zero_b (p : Decimal) : Dec.gtb p Dec.zero = (0 <? coef p).
Proof.
  destruct (Dec.gtb p Dec.zero) eqn:G; symmetry.
  - apply Z.ltb_lt, gtb_zero, G.
  - apply Z.ltb_ge. destruct (Z_lt_le_dec 0 (coef p)) as [H|H]; [|exact H].
    apply gtb_zero in H. congruence.
Qed.

Lemma ltb_zero_b (p : Decimal) : Dec.ltb p Dec.zero = (coef p <? 0).
Proof.
  destruct (Dec.ltb p Dec.zero) eqn:G; symmetry.
  - apply Z.ltb_lt, ltb_zero, G.
  - apply Z.ltb_ge. destruct (Z_lt_le_dec (coef p) 0) as [H|H]; [|exact H].
    apply ltb_zero in H. congruence.
Qed.

(** X4: on stored eight-place prices and a quantity above zero the rule
    returns, and the sign of what it returns is the direction of the
    move: a BUY trade wins exactly when the exit price is above the entry
    price and loses exactly when it is below; a SELL trade the other way
    round; the 28-digit rounding never turns a move into a flat result. *)
Theorem calculate_pnl_sign (t : Trade) (x : Decimal) :
  places8 (entry_price t) -> places8 (quantity t) -> places8 x ->
  0 < coef (quantity t) ->
  exists pnl,
    calculate_pnl t x = Ok pnl /\
    Dec.gtb pnl Dec.zero =
      match trade_type t with
      | BUY => Dec.gtb x (entry_price t)
      | SELL => Dec.ltb x (entry_price t)
      end /\
    Dec.ltb pnl Dec.zero =
      match trade_type t with
      | BUY => Dec.ltb x (entry_price t)
      | SELL => Dec.gtb x (entry_price t)
      end.
Proof.
  intros He Hq Hx Hq0.
  destruct (calculate_pnl_total t x He Hq Hx) as [pnl Hpnl].
  exists pnl. split; [exact Hpnl|].
  destruct He as [Hee Hec], Hq as [Hqe Hqc], Hx as [Hxe Hxc].
  assert (Hwc : within_context (exact_difference t x)).
  { unfold exact_difference, exact_sub, exact_add, within_context, align, neg,
      Etiny, Etop, Emin, Emax, prec.
    destruct (trade_type t); cbn [coef dexp]; rewrite Hee, Hxe;
      change (Z.min (-8) (-8)) with (-8); change (10 ^ (-8 - -8)) with 1; lia. }
  rewrite calculate_pnl_unfold, (fix_within_context _ Hwc) in Hpnl.
  cbn [bind] in Hpnl. unfold Dec.mul in Hpnl.
  apply fix_sgn in Hpnl.
  2:{ unfold exact_mul, exact_difference, exact_sub, exact_add, neg, Etiny, Emin, prec.
      destruct (trade_type t); cbn [coef dexp]; rewrite Hee, Hxe, Hqe;
        change (Z.min (-8) (-8)) with (-8); lia. }
  unfold Dec.gtb at 2 3. rewrite !(ltb_same_exp _ _ (eq_trans Hxe (eq_sym Hee))).
  rewrite !(ltb_same_exp _ _ (eq_trans Hee (eq_sym Hxe))).
  rewrite gtb_zero_b, ltb_zero_b.
  unfold exact_mul, exact_difference, exact_sub, exact_add, align, neg in Hpnl.
  destruct (trade_type t); cbn [coef dexp] in Hpnl; rewrite Hee, Hxe in Hpnl;
    change (Z.min (-8) (-8)) with (-8) in Hpnl;
    change (10 ^ (-8 - -8)) with 1 in Hpnl;
    rewrite Z.sgn_mul, (Z.sgn_pos (coef (quantity t))), Z.mul_1_r in Hpnl by lia.
  - split.
    + destruct (0 <? coef pnl) eqn:A; destruct (coef (entry_price t) <? coef x) eqn:B;
        try reflexivity;
        [apply Z.ltb_lt in A; apply Z.ltb_ge in B|apply Z.ltb_ge in A; apply Z.ltb_lt in B];
        lia.
    + destruct (coef pnl <? 0) eqn:A; destruct (coef x <? coef (entry_price t)) eqn:B;
        try reflexivity;
        [apply Z.ltb_lt in A; apply Z.ltb_ge in B|apply Z.ltb_ge in A; apply Z.ltb_lt in B];
        lia.
  - split.
    + destruct (0 <? coef pnl) eqn:A; destruct (coef x <? coef (entry_price t)) eqn:B;
        try reflexivity;
        [apply Z.ltb_lt in A; apply Z.ltb_ge in B|apply Z.ltb_ge in A; apply Z.ltb_lt in B];
        lia.
    + destruct (coef pnl <? 0) eqn:A; destruct (coef (entry_price t) <? coef x) eqn:B;
        try reflexivity;
        [apply Z.ltb_lt in A; apply Z.ltb_ge in B|apply Z.ltb_ge in A; apply Z.ltb_lt in B];
        lia.
Qed.

Lemma calculate_pnl_sign_witness :
  exists pnl,
    calculate_pnl scenario_long (mkDecimal 5500000000000 (-8)) = Ok pnl /\
    Dec.gtb pnl Dec.zero = true /\ Dec.ltb pnl Dec.zero = false.
Proof.
  apply (calculate_pnl_sign scenario_long (mkDecimal 5500000000000 (-8)));
    decide_by_computation.
Defined.

(** X5: a short and a long position with the same entry price and
    quantity, closed at the same exit price, have opposite profits, digit
    for digit: where the one raises the other raises the same error, and
    where the context rounds, it rounds both alike. *)
Theorem calculate_pnl_short_is_opposite (long short : Trade) (x : Decimal) :
  trade_type long = BUY -> trade_type short = SELL ->
  entry_price short = entry_price long -> quantity short = quantity long ->
  calculate_pnl short x = let* pnl := calculate_pnl long x in Ok (neg pnl).
Proof.
  intros Hl Hs He Hq. unfold calculate_pnl, Dec.sub, Dec.mul.
  rewrite Hl, Hs, He, Hq.
  rewrite (exact_sub_swap x (entry_price long)), fix_neg.
  destruct (fix_ (exact_sub x (entry_price long))) as [d|e]; cbn [bind]; [|reflexivity].
  rewrite exact_mul_neg, fix_neg. reflexivity.
Qed.

Lemma calculate_pnl_short_is_opposite_witness :
  calculate_pnl
    (mkTrade 2 1 "BTC/USDT" (mkDecimal 5000000000000 (-8)) (mkDecimal 10000000 (-8))
       SELL OPEN None None 0 None)
    (mkDecimal 5500000000000 (-8))
  = Ok (mkDecimal (-5000000000000000000) (-16)).
Proof.
  rewrite (calculate_pnl_short_is_opposite scenario_long
             (mkTrade 2 1 "BTC/USDT" (mkDecimal 5000000000000 (-8))
                (mkDecimal 10000000 (-8)) SELL OPEN None None 0 None)
             (mkDecimal 5500000000000 (-8))
             eq_refl eq_refl eq_refl eq_refl).
  vm_compute. reflexivity.
Defined.

End ProfitSign.

(** * Further properties: the stored symbol *)

Section StoredSymbol.

Lemma rstrip_idem (s : string) : Str.rstrip (Str.rstrip s) = Str.rstrip s.
Proof.
  induction s as [|c s IH]; [reflexivity|]. cbn [Str.rstrip].
  destruct (Str.rstrip s) as [|c' r'] eqn:E.
  - destruct (Str.isspace_char c) eqn:Ec; [reflexivity|].
    cbn [Str.rstrip]. rewrite Ec. reflexivity.
  - cbn [Str.rstrip]. cbn [Str.rstrip] in IH.
    destruct (Str.rstrip r') as [|c'' r''] eqn:E'.
    + destruct (Str.isspace_char c') eqn:Ec'; [discriminate|].
      injection IH as <-. reflexivity.
    + rewrite IH. reflexivity.
Qed.

Lemma lstrip_head (s : string) :
  Str.lstrip s = EmptyString \/
  exists c r, Str.lstrip s = String c r /\ Str.isspace_char c = false.
Proof.
  induction s as [|c s IH]; [left; reflexivity|]. cbn [Str.lstrip].
  destruct (Str.isspace_char c) eqn:Ec; [exact IH|].
  right. exists c, s. split; [reflexivity|exact Ec].
Qed.

Lemma lstrip_rstrip_lstrip (s : string) :
  Str.lstrip (Str.rstrip (Str.lstrip s)) = Str.rstrip (Str.lstrip s).
Proof.
  destruct (lstrip_head s) as [->|(c & r & -> & Hc)]; [reflexivity|].
  cbn [Str.rstrip]. rewrite Hc.
  destruct (Str.rstrip r); cbn [Str.lstrip]; rewrite Hc; reflexivity.
Qed.

Lemma strip_idem (s : string) : Str.strip (Str.strip s) = Str.strip s.
Proof.
  unfold Str.strip. rewrite lstrip_rstrip_lstrip. apply rstrip_idem.
Qed.

(** X6: the symbol that [TradeCreate] stores has between 3 and 20
    characters, is its own upper case, carries no outer whitespace, and
    is accepted again as it stands: validating a stored symbol gives the
    same symbol. *)
Theorem symbol_field_idempotent (v s : string) :
  Str.is_ascii v ->
  TradeCreate.symbol_field v = Some s ->
  TradeCreate.symbol_field s = Some s /\
  3 <= Str.len s <= 20 /\
  Str.upper s = s /\ Str.strip s = s /\
  base_quote_format s.
Proof.
  intros _ H.
  destruct (symbol_field_spec v) as [[[Hlen Hfmt] Hv]|[_ Hv]];
    rewrite Hv in H; [|discriminate].
  injection H as <-.
  set (s := Str.strip (Str.upper v)) in *.
  assert (Hup : Str.upper s = s) by apply upper_strip_upper.
  assert (Hst : Str.strip s = s).
  { apply strip_idem. }
  assert (Hl : 3 <= Str.len s <= 20).
  { pose proof (base_quote_format_length s Hfmt).
    pose proof (length_strip_upper v). fold s in H0.
    unfold Str.len in *. lia. }
  repeat split; try assumption; try lia.
  destruct (symbol_field_spec s) as [[_ Hs]|[Hn _]].
  - rewrite Hs, Hup, Hst. reflexivity.
  - exfalso. apply Hn. split; [lia|]. rewrite Hup, Hst. exact Hfmt.
Qed.

Lemma symbol_field_idempotent_witness :
  TradeCreate.symbol_field "  btc/usdt " = Some "BTC/USDT"%string /\
  TradeCreate.symbol_field "BTC/USDT" = Some "BTC/USDT"%string.
Proof.
  assert (H : TradeCreate.symbol_field "  btc/usdt " = Some "BTC/USDT"%string)
    by reflexivity.
  split; [exact H|].
  refine (proj1 (symbol_field_idempotent "  btc/usdt " "BTC/USDT" _ H)).
  unfold Str.is_ascii. cbn. repeat constructor.
Defined.

End StoredSymbol.

(** * Further properties: opening, looking up and closing again *)

Section RoundTrips.

Lemma commit_row_absent (db : Db) (t : Trade) :
  ~ In (id t) (map id db) -> commit_row db t = db.
Proof.
  unfold commit_row. induction db as [|a db IH]; intros H; [reflexivity|].
  cbn [map] in *.
  replace (id a =? id t) with false
    by (symmetry; apply Z.eqb_neq; intros E; apply H; left; exact E).
  f_equal. apply IH. intros Hin. apply H. right. exact Hin.
Qed.

(** Under the primary key a commit replaces one row where it stands. *)
Lemma commit_row_split (db : Db) (t t' : Trade) :
  db_wf db -> In t db -> id t' = id t ->
  exists l1 l2, db = l1 ++ t :: l2 /\ commit_row db t' = l1 ++ t' :: l2.
Proof.
  unfold db_wf. induction db as [|a db IH]; intros Hwf Hin Hid; [destruct Hin|].
  cbn [map] in Hwf. apply NoDup_cons_iff in Hwf. destruct Hwf as [Hni Hwf].
  destruct Hin as [->|Hin].
  - exists [], db. split; [reflexivity|].
    change (commit_row (t :: db) t')
      with ((if id t =? id t' then t' else t) :: commit_row db t').
    replace (id t =? id t') with true by (symmetry; apply Z.eqb_eq; congruence).
    cbn [app]. f_equal. apply commit_row_absent. rewrite Hid. exact Hni.
  - destruct (IH Hwf Hin Hid) as (l1 & l2 & E1 & E2).
    exists (a :: l1), l2. split; [cbn [app]; rewrite E1; reflexivity|].
    unfold commit_row in *. cbn [map app]. rewrite E2.
    replace (id a =? id t') with false; [reflexivity|].
    symmetry. apply Z.eqb_neq. rewrite Hid. intros E. apply Hni. rewrite E.
    apply in_map. exact Hin.
Qed.

(** X7: a trade just opened has a key no row had before; its owner finds
    it under that key, as it was returned; nobody else does; the lookups
    under every other key answer as before; and the trade is in its
    owner's unfiltered and OPEN listings and not in the CLOSED one. *)
Theorem create_then_lookup (engine : Engine) (db db' : Db) (now : Z)
    (trade_data : TradeCreate.t) (current_user : User.t) (t : Trade) :
  trades.create_trade engine db now trade_data current_user = Ok (db', t) ->
  ~ In (id t) (map id db) /\
  TradeService.get_trade_by_id db' (id t) (User.id current_user) = Ok (Some t) /\
  (forall uid, uid <> User.id current_user ->
      TradeService.get_trade_by_id db' (id t) uid = Ok None) /\
  (forall tid uid, tid <> id t ->
      TradeService.get_trade_by_id db' tid uid
        = TradeService.get_trade_by_id db tid uid) /\
  In t (trades.get_trades db' None current_user) /\
  In t (trades.get_trades db' (Some OPEN) current_user) /\
  ~ In t (trades.get_trades db' (Some CLOSED) current_user).
Proof.
  intros H. unfold trades.create_trade in H. apply create_trade_inv in H.
  destruct H as (e & q & _ & _ & Ht & ->).
  assert (Hid : id t = next_id db) by (rewrite Ht; reflexivity).
  assert (Hu : user_id t = User.id current_user) by (rewrite Ht; reflexivity).
  assert (Hst : status t = OPEN) by (rewrite Ht; reflexivity).
  clear Ht.
  assert (Hfresh : ~ In (id t) (map id db)).
  { intros H. apply in_map_iff in H. destruct H as (r & Hr & Hrin).
    apply next_id_fresh in Hrin. lia. }
  assert (Hin : In t (db ++ [t])) by (apply in_or_app; right; left; reflexivity).
  split; [exact Hfresh|].
  split.
  { unfold TradeService.get_trade_by_id. rewrite filter_app.
    rewrite (filter_id_absent (fun r => user_id r =? User.id current_user) _ _ Hfresh).
    cbn [filter app]. rewrite Z.eqb_refl, Hu, Z.eqb_refl. reflexivity. }
  split.
  { intros uid Hne. unfold TradeService.get_trade_by_id. rewrite filter_app.
    rewrite (filter_id_absent (fun r => user_id r =? uid) _ _ Hfresh).
    cbn [filter app]. rewrite Z.eqb_refl, Hu.
    replace (User.id current_user =? uid) with false
      by (symmetry; apply Z.eqb_neq; congruence).
    reflexivity. }
  split.
  { intros tid uid Hne. unfold TradeService.get_trade_by_id. rewrite filter_app.
    cbn [filter].
    replace (id t =? tid) with false by (symmetry; apply Z.eqb_neq; congruence).
    cbn [andb]. rewrite app_nil_r. reflexivity. }
  unfold trades.get_trades. rewrite !get_user_trades_In.
  cbn [status_matches]. rewrite Hst. cbn [TradeStatus_eqb].
  repeat split; try assumption; try reflexivity.
  intros (_ & _ & H). discriminate.
Qed.

Lemma create_then_lookup_witness :
  TradeService.get_trade_by_id [scenario_long] (id scenario_long) (User.id alice)
  = Ok (Some scenario_long).
Proof.
  refine (proj1 (proj2 (create_then_lookup PostgreSQL.engine [] [scenario_long] 0
                          (TradeCreate.mk "BTC/USDT" (mkDecimal 5000000000000 (-8))
                             (mkDecimal 10000000 (-8)) BUY)
                          alice scenario_long _))).
  vm_compute. reflexivity.
Defined.

(** What a routed close that succeeded leaves. *)
Lemma patched_close_inv (engine : Engine) (db db' : Db) (now tid : Z) (body : TradeClose.t)
    (u : User.t) (t' : Trade) :
  db_wf db ->
  patch_trades_close engine db now u tid body = Ok (db', t') ->
  exists t l1 l2,
    db = l1 ++ t :: l2 /\ db' = l1 ++ t' :: l2 /\
    id t = tid /\ user_id t = User.id u /\ status t = OPEN /\
    id t' = tid /\ user_id t' = User.id u /\ status t' = CLOSED /\
    db_wf db' /\ In t' db'.
Proof.
  intros Hwf H. apply patch_trades_close_inv in H. destruct H as [data H].
  apply close_trade_inv in H; [|exact Hwf].
  destruct H as (t & stored_price & stored_pnl & Hin & Hid & Hu & Hst & _ & Ht' & Hdb').
  assert (Hid' : id t' = id t) by (rewrite Ht'; reflexivity).
  destruct (commit_row_split db t t' Hwf Hin Hid') as (l1 & l2 & E1 & E2).
  exists t, l1, l2. rewrite Hdb'.
  repeat split; try assumption; try congruence.
  - rewrite Ht'. cbn [user_id closed_row]. exact Hu.
  - rewrite Ht'. reflexivity.
  - apply commit_row_wf. exact Hwf.
  - rewrite E2. apply in_or_app. right. left. reflexivity.
Qed.

(** X8: after a close that succeeded, the owner finds the closed row
    under the key; every further close of that key by the owner, at any
    time and price, fails with [TradeAlreadyClosedError] and leaves the
    table as it is; and the key is in the owner's CLOSED listing and no
    longer in the OPEN one. *)
Theorem close_then_close (engine : Engine) (db db' : Db) (now tid : Z) (body : TradeClose.t)
    (current_user : User.t) (t' : Trade) :
  db_wf db ->
  patch_trades_close engine db now current_user tid body = Ok (db', t') ->
  status t' = CLOSED /\
  TradeService.get_trade_by_id db' tid (User.id current_user) = Ok (Some t') /\
  (forall now2 close_data,
      trades.close_trade engine db' now2 tid close_data current_user
        = Err (TradeAlreadyClosedError tid)) /\
  (forall now2 body2,
      fst (handle engine db' now2 current_user (PATCH_trades_close tid body2)) = db') /\
  In t' (trades.get_trades db' (Some CLOSED) current_user) /\
  ~ In tid (map id (trades.get_trades db' (Some OPEN) current_user)).
Proof.
  intros Hwf H.
  destruct (patched_close_inv _ _ _ _ _ _ _ _ Hwf H)
    as (t & l1 & l2 & _ & _ & _ & _ & _ & Hid & Hu & Hst & Hwf' & Hin').
  assert (Hget : TradeService.get_trade_by_id db' tid (User.id current_user)
                 = Ok (Some t')).
  { rewrite <- Hid, <- Hu. apply get_trade_by_id_owned; assumption. }
  assert (Hagain : forall now2 close_data,
             trades.close_trade engine db' now2 tid close_data current_user
             = Err (TradeAlreadyClosedError tid)).
  { intros now2 data2. unfold trades.close_trade. rewrite Hget. cbn [bind].
    rewrite Hst. reflexivity. }
  split; [exact Hst|]. split; [exact Hget|]. split; [exact Hagain|].
  split.
  { intros now2 body2. cbn [handle]. unfold patch_trades_close.
    destruct (TradeClose.validate body2) as [data2|e]; cbn [bind]; [|reflexivity].
    rewrite Hagain. reflexivity. }
  unfold trades.get_trades. split.
  - apply get_user_trades_In. repeat split; try assumption.
    cbn [status_matches]. rewrite Hst. reflexivity.
  - intros Hm. apply in_map_iff in Hm. destruct Hm as (r & Hr & Hrin).
    apply get_user_trades_In in Hrin. destruct Hrin as (Hrin & _ & Hs).
    assert (r = t') by (apply (db_wf_inj db'); congruence).
    subst r. cbn [status_matches] in Hs. rewrite Hst in Hs. discriminate.
Qed.

Lemma close_then_close_witness :
  exists db' t',
    patch_trades_close PostgreSQL.engine [scenario_long] 1 alice 1
      (TradeClose.mk (mkDecimal 55000 0)) = Ok (db', t') /\
    trades.close_trade PostgreSQL.engine db' 2 1 (TradeClose.mk (mkDecimal 60000 0))
      alice
      = Err (TradeAlreadyClosedError 1).
Proof.
  destruct (patch_trades_close PostgreSQL.engine [scenario_long] 1 alice 1
              (TradeClose.mk (mkDecimal 55000 0))) as [[db' t']|e] eqn:E;
    [|vm_compute in E; discriminate].
  exists db', t'. split; [reflexivity|].
  assert (Hwf : db_wf [scenario_long])
    by (unfold db_wf; cbn; repeat constructor; intros []).
  exact (proj1 (proj2 (proj2 (close_then_close _ _ _ _ _ _ _ _ Hwf E))) 2
           (TradeClose.mk (mkDecimal 60000 0))).
Defined.

End RoundTrips.

(** * Further properties: the listings against each other *)

Section ListingsTogether.

Lemma insert_desc_head (t : Trade) (l : list Trade) :
  (forall x, In x l -> created_at x <= created_at t) -> insert_desc t l = t :: l.
Proof.
  destruct l as [|x r]; [reflexivity|]. intros H. cbn [insert_desc].
  replace (created_at x <=? created_at t) with true; [reflexivity|].
  symmetry. apply Z.leb_le. apply H. left. reflexivity.
Qed.

(** Selecting from a sorted list and then inserting, or the other way
    round. *)
Lemma filter_insert_desc (f : Trade -> bool) (t : Trade) (l : list Trade) :
  newest_first l ->
  filter f (insert_desc t l) = if f t then insert_desc t (filter f l) else filter f l.
Proof.
  unfold newest_first. induction l as [|x r IH]; intros Hs.
  - cbn. destruct (f t); reflexivity.
  - apply StronglySorted_inv in Hs. destruct Hs as [Hr Hx].
    cbn [insert_desc]. destruct (created_at x <=? created_at t) eqn:E.
    + change (filter f (t :: x :: r))
        with (if f t then t :: filter f (x :: r) else filter f (x :: r)).
      destruct (f t); [|reflexivity].
      symmetry. apply insert_desc_head. intros y Hy.
      apply filter_In in Hy. destruct Hy as [Hy _].
      apply Z.leb_le in E. destruct Hy as [<-|Hy]; [exact E|].
      rewrite Forall_forall in Hx. specialize (Hx y Hy). cbn in Hx. lia.
    + cbn [filter]. rewrite (IH Hr).
      destruct (f x), (f t); cbn [insert_desc]; rewrite ?E; reflexivity.
Qed.

Lemma filter_order_by (f : Trade -> bool) (l : list Trade) :
  filter f (order_by_created_at_desc l) = order_by_created_at_desc (filter f l).
Proof.
  induction l as [|a l IH]; [reflexivity|].
  change (order_by_created_at_desc (a :: l))
    with (insert_desc a (order_by_created_at_desc l)).
  rewrite filter_insert_desc by apply order_by_sorted.
  cbn [filter]. destruct (f a); rewrite IH; reflexivity.
Qed.

Lemma filter_status_none (l : list Trade) : filter (status_matches None) l = l.
Proof. apply forallb_filter_id, forallb_forall. reflexivity. Qed.

(** X9: every listing is the listing of all trades with the other
    users' rows, and the rows of another status, left out, in the same
    order (rows of one timestamp stand in the order of the table in each
    of them); for a caller who is no admin the listing of all trades is
    refused, for an admin it is the one every user's listing is cut from. *)
Theorem listing_is_restriction (db : Db) (current_user : User.t) :
  (forall uid st,
      TradeService.get_user_trades db uid st
      = filter (fun t => (user_id t =? uid) && status_matches st t)
          (TradeService.get_all_trades db)) /\
  (forall uid s,
      TradeService.get_user_trades db uid (Some s)
      = filter (fun t => TradeStatus_eqb (status t) s)
          (TradeService.get_user_trades db uid None)) /\
  admin.get_all_trades db current_user
  = if User.is_admin current_user then Ok (TradeService.get_all_trades db)
    else Err Forbidden.
Proof.
  split; [|split].
  - intros uid st. unfold TradeService.get_all_trades.
    rewrite filter_order_by, get_user_trades_rows, filter_andb. reflexivity.
  - intros uid s. rewrite !get_user_trades_rows, filter_order_by.
    rewrite filter_status_none. reflexivity.
  - unfold admin.get_all_trades. destruct (User.is_admin current_user); reflexivity.
Qed.

Lemma listing_length (db : Db) (uid : Z) (st : option TradeStatus) :
  List.length (TradeService.get_user_trades db uid st)
  = List.length (filter (status_matches st) (rows_of uid db)).
Proof.
  rewrite get_user_trades_rows. apply Permutation_length, order_by_perm.
Qed.

Lemma filter_status_split (l : list Trade) :
  Permutation l
    (filter (fun t => TradeStatus_eqb (status t) OPEN) l ++
     filter (fun t => TradeStatus_eqb (status t) CLOSED) l).
Proof.
  induction l as [|a l IH]; [reflexivity|]. cbn [filter].
  destruct (status a); cbn [TradeStatus_eqb app].
  - apply perm_skip. exact IH.
  - apply Permutation_cons_app. exact IH.
Qed.

(** X10: the OPEN and the CLOSED listing of a user together are a
    rearrangement of the unfiltered one: every trade of the user is in
    exactly one of the two. *)
Theorem listings_partition (db : Db) (uid : Z) :
  Permutation (TradeService.get_user_trades db uid None)
    (TradeService.get_user_trades db uid (Some OPEN) ++
     TradeService.get_user_trades db uid (Some CLOSED)) /\
  (forall t, In t (TradeService.get_user_trades db uid (Some OPEN)) ->
             ~ In t (TradeService.get_user_trades db uid (Some CLOSED))).
Proof.
  split.
  - rewrite !get_user_trades_rows, !order_by_perm, filter_status_none.
    apply filter_status_split.
  - intros t H1 H2. apply get_user_trades_In in H1, H2.
    destruct H1 as (_ & _ & H1), H2 as (_ & _ & H2). cbn [status_matches] in *.
    destruct (status t); discriminate.
Qed.

(** X11: a close that succeeded moves one trade of the caller from the
    OPEN to the CLOSED listing: the one is a trade shorter, the other a
    trade longer, the unfiltered listing and the table keep their
    lengths. *)
Theorem close_moves_one_position (engine : Engine) (db db' : Db) (now tid : Z) (body : TradeClose.t)
    (current_user : User.t) (t' : Trade) :
  db_wf db ->
  patch_trades_close engine db now current_user tid body = Ok (db', t') ->
  (List.length (trades.get_trades db' (Some OPEN) current_user) + 1
   = List.length (trades.get_trades db (Some OPEN) current_user))%nat /\
  (List.length (trades.get_trades db' (Some CLOSED) current_user)
   = List.length (trades.get_trades db (Some CLOSED) current_user) + 1)%nat /\
  List.length (trades.get_trades db' None current_user)
   = List.length (trades.get_trades db None current_user) /\
  List.length db' = List.length db.
Proof.
  intros Hwf H.
  destruct (patched_close_inv _ _ _ _ _ _ _ _ Hwf H)
    as (t & l1 & l2 & -> & -> & _ & Hu & Hst & _ & Hu' & Hst' & _ & _).
  unfold trades.get_trades. rewrite !listing_length. unfold rows_of.
  rewrite !filter_app. cbn [filter]. rewrite Hu, Hu', !Z.eqb_refl.
  cbn [filter status_matches]. rewrite Hst, Hst'. cbn [TradeStatus_eqb].
  rewrite !length_app. cbn [List.length]. lia.
Qed.

Lemma close_moves_one_position_witness :
  exists db' t',
    patch_trades_close PostgreSQL.engine [scenario_long] 1 alice 1
      (TradeClose.mk (mkDecimal 55000 0)) = Ok (db', t') /\
    List.length (trades.get_trades db' (Some CLOSED) alice) = 1%nat.
Proof.
  destruct (patch_trades_close PostgreSQL.engine [scenario_long] 1 alice 1
              (TradeClose.mk (mkDecimal 55000 0))) as [[db' t']|e] eqn:E;
    [|vm_compute in E; discriminate].
  exists db', t'. split; [reflexivity|].
  assert (Hwf : db_wf [scenario_long])
    by (unfold db_wf; cbn; repeat constructor; intros []).
  exact (proj1 (proj2 (close_moves_one_position _ _ _ _ _ _ _ _ Hwf E))).
Defined.

End ListingsTogether.

(** * Further properties: the outcomes of a close and the life of a row *)

Section Outcomes.






(** A close that passes the schema and is refused by the column: an exit
    price of 20000000000 on PostgreSQL raises the error of the commit
    and the trade stays open; SQLite records the close. *)
Lemma close_refused_by_column :
  handle PostgreSQL.engine [scenario_long] 1 alice
    (PATCH_trades_close 1 (TradeClose.mk (mkDecimal 2 10)))
  = ([scenario_long], Err DBAPIError) /\
  exists t',
    handle SQLite.engine [scenario_long] 1 alice
      (PATCH_trades_close 1 (TradeClose.mk (mkDecimal 2 10)))
    = ([t'], Ok (RTrade t')) /\
    status t' = CLOSED.
Proof.
  split; [vm_compute; reflexivity|].
  eexists. split; [vm_compute; reflexivity|reflexivity].
Qed.






End Outcomes.

(** * Further properties: the summary and the table *)

Section SummaryTogether.

Lemma summary_step_counts (acc acc' : Decimal) (w lo w' lo' : Z) (t : Trade) :
  TradeService.summary_step (acc, w, lo) t = Ok (acc', w', lo') ->
  w' = w + (if is_win t then 1 else 0) /\ lo' = lo + (if is_loss t then 1 else 0).
Proof.
  unfold TradeService.summary_step, is_win, is_loss, pnl_of.
  destruct (realized_pnl t) as [p|].
  - rewrite gtb_zero_b, ltb_zero_b. unfold Dec.truthy.
    destruct (coef p =? 0) eqn:T; cbn [negb].
    + apply Z.eqb_eq in T. rewrite T. cbn. intros H. injection H as <- <- <-. lia.
    + apply Z.eqb_neq in T.
      destruct (Dec.add acc p) as [tp|e]; cbn [bind]; [|discriminate].
      destruct (0 <? coef p) eqn:G; destruct (coef p <? 0) eqn:L;
        intros H; injection H as <- <- <-; lia.
  - intros H. injection H as <- <- <-. cbn. lia.
Qed.

(** The two counters of the loop do not depend on what the running total
    went through. *)
Lemma summary_loop_counts (l : list Trade) :
  forall acc w lo acc' w' lo',
    TradeService.summary_loop l (acc, w, lo) = Ok (acc', w', lo') ->
    w' = w + count is_win l /\ lo' = lo + count is_loss l.
Proof.
  induction l as [|t l IH]; intros acc w lo acc' w' lo' H.
  - cbn in H. injection H as <- <- <-. cbn. lia.
  - cbn [TradeService.summary_loop] in H.
    destruct (TradeService.summary_step (acc, w, lo) t) as [[[acc1 w1] lo1]|e] eqn:E;
      cbn [bind] in H; [|discriminate].
    apply summary_step_counts in E. apply IH in H.
    rewrite !count_cons. lia.
Qed.

Lemma count_three (l : list Trade) :
  count is_win l + count is_loss l + count is_flat l = Z.of_nat (List.length l).
Proof.
  induction l as [|t l IH]; [reflexivity|].
  rewrite !count_cons. cbn [List.length]. rewrite Nat2Z.inj_succ.
  assert (H1 : (if is_win t then 1 else 0) + (if is_loss t then 1 else 0)
               + (if is_flat t then 1 else 0) = 1).
  { unfold is_win, is_loss, is_flat, Dec.truthy.
    rewrite gtb_zero_b, ltb_zero_b, negb_involutive.
    destruct (0 <? coef (pnl_of t)) eqn:G; destruct (coef (pnl_of t) <? 0) eqn:L;
      destruct (coef (pnl_of t) =? 0) eqn:Z0; lia. }
  lia.
Qed.

Lemma rows_open_closed (uid : Z) (db : Db) :
  (List.length (open_of uid db) + List.length (closed_of uid db)
   = List.length (rows_of uid db))%nat.
Proof.
  unfold open_of, closed_of.
  rewrite <- length_app. symmetry. apply Permutation_length, filter_status_split.
Qed.

(** X14: whatever the running total went through, a summary that is
    returned counts right: [open_positions] and [closed_positions] are
    the numbers of the user's OPEN and CLOSED rows and add up to the
    number of the user's rows; [winning_trades] and [losing_trades] are
    the numbers of closed rows with a profit above and below zero, and
    with the rows whose profit is zero or missing they add up to
    [closed_positions]; and [win_rate] is computed from these counts. *)
Theorem summary_counts_unconditional (db : Db) (uid : Z) (S : PortfolioSummary) :
  TradeService.get_portfolio_summary db uid = Ok S ->
  open_positions S = Z.of_nat (List.length (open_of uid db)) /\
  closed_positions S = Z.of_nat (List.length (closed_of uid db)) /\
  open_positions S + closed_positions S = Z.of_nat (List.length (rows_of uid db)) /\
  winning_trades S = count is_win (closed_of uid db) /\
  losing_trades S = count is_loss (closed_of uid db) /\
  winning_trades S + losing_trades S + count is_flat (closed_of uid db)
    = closed_positions S /\
  win_rate S = float_win_rate (winning_trades S) (closed_positions S).
Proof.
  rewrite get_portfolio_summary_unfold.
  destruct (TradeService.summary_loop (closed_of uid db) (Dec.zero, 0, 0))
    as [[[total w] lo]|e] eqn:E; cbn [bind]; [|discriminate].
  intros H. injection H as <-.
  cbn [open_positions closed_positions winning_trades losing_trades win_rate].
  apply summary_loop_counts in E. destruct E as [-> ->]. rewrite !Z.add_0_l.
  pose proof (rows_open_closed uid db). pose proof (count_three (closed_of uid db)).
  repeat split; try reflexivity; lia.
Qed.

Lemma summary_counts_unconditional_witness :
  exists S,
    TradeService.get_portfolio_summary db_wide 1 = Ok S /\
    winning_trades S = 2 /\ closed_positions S = 2.
Proof.
  destruct (TradeService.get_portfolio_summary db_wide 1) as [S|e] eqn:E;
    [|vm_compute in E; discriminate].
  exists S. split; [reflexivity|].
  destruct (summary_counts_unconditional db_wide 1 S E)
    as (_ & Hc & _ & Hw & _).
  split; [rewrite Hw|rewrite Hc]; vm_compute; reflexivity.
Defined.

Lemma pnl_total_app_cons (a b : list Trade) (t : Trade) :
  (pnl_total (a ++ t :: b) == to_Q (pnl_of t) + pnl_total (a ++ b))%Q.
Proof.
  induction a as [|x a IH]; cbn [app pnl_total fold_right].
  - reflexivity.
  - fold (pnl_total (a ++ t :: b)). fold (pnl_total (a ++ b)). rewrite IH. ring.
Qed.

Lemma count_app_cons (f : Trade -> bool) (a b : list Trade) (t : Trade) :
  count f (a ++ t :: b) = (if f t then 1 else 0) + count f (a ++ b).
Proof.
  induction a as [|x a IH]; cbn [app]; [apply count_cons|].
  rewrite !count_cons, IH. lia.
Qed.

Lemma pnl_mass_app_cons (s : Z) (a b : list Trade) (t : Trade) :
  pnl_mass s (a ++ t :: b)
  = Z.abs (coef (pnl_of t)) * 10 ^ (dexp (pnl_of t) - s) + pnl_mass s (a ++ b).
Proof.
  induction a as [|x a IH]; cbn [app pnl_mass fold_right]; [reflexivity|].
  fold (pnl_mass s (a ++ t :: b)). fold (pnl_mass s (a ++ b)). rewrite IH. lia.
Qed.

Lemma pnl_scale_app_cons (s : Z) (a b : list Trade) (t : Trade) :
  pnl_scale s (a ++ t :: b) -> pnl_scale s (a ++ b).
Proof.
  unfold pnl_scale. rewrite !Forall_app. intros [Ha Hb].
  apply Forall_inv_tail in Hb. split; assumption.
Qed.

(** X15: a close and the summary.  When the caller's closed profits
    after the close still add up exactly (no digit below [10 ^ s], less
    than [10 ^ 28] units of [10 ^ s] in all), the summaries before and
    after the close both return, and the close has moved one position
    from open to closed, added the realised profit of the closed trade
    to the total, and counted it as won or lost by its sign. *)
Theorem close_updates_summary (engine : Engine) (db db' : Db) (now tid s : Z) (body : TradeClose.t)
    (current_user : User.t) (t' : Trade) :
  db_wf db ->
  patch_trades_close engine db now current_user tid body = Ok (db', t') ->
  Etiny <= s <= 0 ->
  pnl_scale s (closed_of (User.id current_user) db') ->
  pnl_mass s (closed_of (User.id current_user) db') < 10 ^ 28 ->
  exists S S',
    portfolio.get_portfolio_summary db current_user = Ok S /\
    portfolio.get_portfolio_summary db' current_user = Ok S' /\
    (to_Q (total_realized_pnl S')
       == to_Q (total_realized_pnl S) + to_Q (pnl_of t'))%Q /\
    open_positions S' = open_positions S - 1 /\
    closed_positions S' = closed_positions S + 1 /\
    winning_trades S' = winning_trades S + (if is_win t' then 1 else 0) /\
    losing_trades S' = losing_trades S + (if is_loss t' then 1 else 0).
Proof.
  intros Hwf H Hs Hscale Hmass.
  destruct (patched_close_inv _ _ _ _ _ _ _ _ Hwf H)
    as (t & l1 & l2 & -> & -> & _ & Hu & Hst & _ & Hu' & Hst' & _ & _).
  set (uid := User.id current_user) in *.
  assert (Hc' : closed_of uid (l1 ++ t' :: l2)
                = closed_of uid l1 ++ t' :: closed_of uid l2).
  { unfold closed_of, rows_of. rewrite !filter_app. cbn [filter].
    rewrite Hu', Z.eqb_refl. cbn [filter]. rewrite Hst'. reflexivity. }
  assert (Hc : closed_of uid (l1 ++ t :: l2) = closed_of uid l1 ++ closed_of uid l2).
  { unfold closed_of, rows_of. rewrite !filter_app. cbn [filter].
    rewrite Hu, Z.eqb_refl. cbn [filter]. rewrite Hst. reflexivity. }
  assert (Ho' : open_of uid (l1 ++ t' :: l2) = open_of uid l1 ++ open_of uid l2).
  { unfold open_of, rows_of. rewrite !filter_app. cbn [filter].
    rewrite Hu', Z.eqb_refl. cbn [filter]. rewrite Hst'. reflexivity. }
  assert (Ho : open_of uid (l1 ++ t :: l2) = open_of uid l1 ++ t :: open_of uid l2).
  { unfold open_of, rows_of. rewrite !filter_app. cbn [filter].
    rewrite Hu, Z.eqb_refl. cbn [filter]. rewrite Hst. reflexivity. }
  destruct (summary_result (l1 ++ t' :: l2) uid s Hs Hscale Hmass)
    as (total' & HS' & Hq' & _).
  assert (Hscale0 : pnl_scale s (closed_of uid (l1 ++ t :: l2))).
  { rewrite Hc. rewrite Hc' in Hscale. exact (pnl_scale_app_cons _ _ _ _ Hscale). }
  assert (Hmass0 : pnl_mass s (closed_of uid (l1 ++ t :: l2)) < 10 ^ 28).
  { rewrite Hc. rewrite Hc', pnl_mass_app_cons in Hmass.
    pose proof (Z.pow_nonneg 10 (dexp (pnl_of t') - s) ltac:(lia)).
    pose proof (Z.abs_nonneg (coef (pnl_of t'))).
    assert (0 <= Z.abs (coef (pnl_of t')) * 10 ^ (dexp (pnl_of t') - s))
      by (apply Z.mul_nonneg_nonneg; assumption).
    lia. }
  destruct (summary_result (l1 ++ t :: l2) uid s Hs Hscale0 Hmass0)
    as (total & HS & Hq & _).
  unfold portfolio.get_portfolio_summary. fold uid.
  do 2 eexists. split; [exact HS|]. split; [exact HS'|].
  cbn [total_realized_pnl open_positions closed_positions winning_trades
       losing_trades].
  rewrite Hq, Hq', Hc, Hc', Ho, Ho', pnl_total_app_cons, !count_app_cons.
  rewrite !length_app. cbn [List.length].
  repeat split; try lia. ring.
Qed.

Lemma close_updates_summary_witness :
  exists S S',
    portfolio.get_portfolio_summary [scenario_long] alice = Ok S /\
    portfolio.get_portfolio_summary [scenario_closed] alice = Ok S' /\
    (to_Q (total_realized_pnl S')
       == to_Q (total_realized_pnl S) + to_Q (pnl_of scenario_closed))%Q /\
    open_positions S' = open_positions S - 1 /\
    closed_positions S' = closed_positions S + 1 /\
    winning_trades S' = winning_trades S + (if is_win scenario_closed then 1 else 0) /\
    losing_trades S' = losing_trades S + (if is_loss scenario_closed then 1 else 0).
Proof.
  apply (close_updates_summary PostgreSQL.engine [scenario_long] [scenario_closed]
           1 1 (-16)
           (TradeClose.mk (mkDecimal 55000 0)) alice scenario_closed).
  - unfold db_wf. cbn. repeat constructor. intros [].
  - vm_compute. reflexivity.
  - vm_compute. split; discriminate.
  - repeat constructor. cbn. lia.
  - vm_compute. reflexivity.
Defined.

End SummaryTogether.

(** * Further properties: accounts *)

Section Usernames.

Local Open Scope string_scope.

Ltac by_cases_on_char c :=
  destruct c as [[|] [|] [|] [|] [|] [|] [|] [|]]; reflexivity.

Lemma lower_char_idem (c : ascii) :
  PyStr.lower_char (PyStr.lower_char c) = PyStr.lower_char c.
Proof. by_cases_on_char c. Qed.

Lemma username_char_lower (c : ascii) :
  username_char (PyStr.lower_char c) = username_char c.
Proof. by_cases_on_char c. Qed.

Lemma isalnum_char_lower (c : ascii) :
  PyStr.isalnum_char (PyStr.lower_char c) = PyStr.isalnum_char c.
Proof. by_cases_on_char c. Qed.

Lemma length_lower (s : string) : String.length (PyStr.lower s) = String.length s.
Proof. induction s as [|c s IH]; cbn; congruence. Qed.

Lemma lower_idem (s : string) : PyStr.lower (PyStr.lower s) = PyStr.lower s.
Proof.
  induction s as [|c s IH]; [reflexivity|].
  cbn [PyStr.lower]. rewrite lower_char_idem, IH. reflexivity.
Qed.

Lemma chars_lower (s : string) :
  list_ascii_of_string (PyStr.lower s) = map PyStr.lower_char (list_ascii_of_string s).
Proof. induction s as [|c s IH]; cbn; congruence. Qed.

(** What is left when the underscores and the hyphens are taken out. *)
Lemma all_alnum_removed (v : string) :
  PyStr.all_alnum (PyStr.replace_with_empty "-" (PyStr.replace_with_empty "_" v))
  = forallb username_char (list_ascii_of_string v).
Proof.
  induction v as [|c v IH]; [reflexivity|].
  cbn [PyStr.replace_with_empty list_ascii_of_string forallb].
  unfold username_char at 1.
  destruct (Ascii.eqb c "_") eqn:E1.
  - rewrite IH, orb_true_r. reflexivity.
  - cbn [PyStr.replace_with_empty]. destruct (Ascii.eqb c "-") eqn:E2.
    + rewrite IH, orb_true_r. reflexivity.
    + cbn [PyStr.all_alnum]. rewrite IH, !orb_false_r. reflexivity.
Qed.

Lemma removed_empty (v : string) :
  forallb username_char (list_ascii_of_string v) = true ->
  (PyStr.replace_with_empty "-" (PyStr.replace_with_empty "_" v) = EmptyString <->
   existsb PyStr.isalnum_char (list_ascii_of_string v) = false).
Proof.
  induction v as [|c v IH]; [intros _; split; reflexivity|].
  cbn [PyStr.replace_with_empty list_ascii_of_string forallb existsb].
  intros H. apply andb_true_iff in H. destruct H as [Hc Hv].
  specialize (IH Hv). unfold username_char in Hc.
  destruct (Ascii.eqb_spec c "_") as [->|N1].
  - exact IH.
  - cbn [PyStr.replace_with_empty]. destruct (Ascii.eqb_spec c "-") as [->|N2].
    + exact IH.
    + rewrite !orb_false_r in Hc. rewrite Hc. split; discriminate.
Qed.

Lemma username_alphanumeric_spec (v : string) :
  UserCreate.username_alphanumeric v =
  if forallb username_char (list_ascii_of_string v) &&
     existsb PyStr.isalnum_char (list_ascii_of_string v)
  then Some (PyStr.lower v) else None.
Proof.
  unfold UserCreate.username_alphanumeric, PyStr.isalnum.
  pose proof (all_alnum_removed v) as Ha. pose proof (removed_empty v) as He.
  destruct (forallb username_char (list_ascii_of_string v)) eqn:F; cbn [andb].
  - specialize (He eq_refl).
    destruct (PyStr.replace_with_empty "-" (PyStr.replace_with_empty "_" v)) eqn:R.
    + rewrite (proj1 He eq_refl). reflexivity.
    + rewrite Ha. cbn [negb].
      destruct (existsb PyStr.isalnum_char (list_ascii_of_string v)); [reflexivity|].
      destruct He as [_ He]. discriminate (He eq_refl).
  - destruct (PyStr.replace_with_empty "-" (PyStr.replace_with_empty "_" v));
      [reflexivity|]. rewrite Ha. reflexivity.
Qed.

(** X16: for an ASCII name, [UserCreate] accepts exactly the names of 3
    to 50 letters, digits, underscores and hyphens that hold at least one
    letter or digit (a name of underscores and hyphens alone is turned
    down), and what it accepts it stores in lower case. *)
Theorem username_field_spec (v : string) :
  Str.is_ascii v ->
  (username_accepted v /\ UserCreate.username_field v = Some (PyStr.lower v)) \/
  (~ username_accepted v /\ UserCreate.username_field v = None).
Proof.
  intros _. unfold UserCreate.username_field, username_accepted.
  rewrite username_alphanumeric_spec.
  destruct (3 <=? Str.len v)%Z eqn:E3; cbn [andb].
  2:{ right. apply Z.leb_gt in E3. split; [lia|reflexivity]. }
  destruct (Str.len v <=? 50)%Z eqn:E50.
  2:{ right. apply Z.leb_gt in E50. split; [lia|reflexivity]. }
  apply Z.leb_le in E3, E50.
  destruct (forallb username_char (list_ascii_of_string v)); cbn [andb].
  2:{ right. split; [|reflexivity]. intros (_ & H & _). discriminate. }
  destruct (existsb PyStr.isalnum_char (list_ascii_of_string v)).
  - left. repeat split; assumption.
  - right. split; [|reflexivity]. intros (_ & _ & H). discriminate.
Qed.

Lemma username_field_spec_witness :
  UserCreate.username_field "Alice_01" = Some "alice_01" /\
  UserCreate.username_field "___" = None.
Proof.
  assert (A1 : Str.is_ascii "Alice_01") by (unfold Str.is_ascii; cbn; repeat constructor).
  assert (A2 : Str.is_ascii "___") by (unfold Str.is_ascii; cbn; repeat constructor).
  split.
  - destruct (username_field_spec "Alice_01" A1) as [[_ H]|[H _]]; [exact H|].
    exfalso. apply H. unfold username_accepted. vm_compute.
    repeat split; try reflexivity; discriminate.
  - destruct (username_field_spec "___" A2) as [[H _]|[_ H]]; [|exact H].
    exfalso. destruct H as (_ & _ & H). vm_compute in H. discriminate.
Defined.

Lemma forallb_map_eq {A : Type} (f h : A -> bool) (g : A -> A) (l : list A) :
  (forall c, f (g c) = h c) -> forallb f (map g l) = forallb h l.
Proof.
  intros H. induction l as [|a l IH]; [reflexivity|].
  cbn [map forallb]. rewrite H, IH. reflexivity.
Qed.

Lemma existsb_map_eq {A : Type} (f h : A -> bool) (g : A -> A) (l : list A) :
  (forall c, f (g c) = h c) -> existsb f (map g l) = existsb h l.
Proof.
  intros H. induction l as [|a l IH]; [reflexivity|].
  cbn [map existsb]. rewrite H, IH. reflexivity.
Qed.

(** X17: a stored username is in lower case, as long as the name that
    was sent, and accepted again as it stands: validating a stored
    username returns the same username. *)
Theorem username_field_idempotent (v u : string) :
  Str.is_ascii v ->
  UserCreate.username_field v = Some u ->
  UserCreate.username_field u = Some u /\
  Str.len u = Str.len v /\
  PyStr.lower u = u /\
  username_accepted u.
Proof.
  intros Hv H.
  destruct (username_field_spec v Hv) as [[(Hl & Hf & He) Hs]|[_ Hs]];
    rewrite Hs in H; [|discriminate].
  injection H as <-.
  assert (Hlen : Str.len (PyStr.lower v) = Str.len v)
    by (unfold Str.len; rewrite length_lower; reflexivity).
  assert (Hacc : username_accepted (PyStr.lower v)).
  { unfold username_accepted. rewrite Hlen, chars_lower. split; [exact Hl|].
    split.
    - rewrite <- Hf. apply forallb_map_eq, username_char_lower.
    - rewrite <- He. apply existsb_map_eq, isalnum_char_lower. }
  split; [|split; [exact Hlen|split; [apply lower_idem|exact Hacc]]].
  unfold UserCreate.username_field. rewrite username_alphanumeric_spec.
  destruct Hacc as ((H3 & H50) & Hf' & He').
  rewrite Hf', He', lower_idem.
  replace (3 <=? Str.len (PyStr.lower v))%Z with true by (symmetry; apply Z.leb_le; lia).
  replace (Str.len (PyStr.lower v) <=? 50)%Z with true by (symmetry; apply Z.leb_le; lia).
  reflexivity.
Qed.

Lemma username_field_idempotent_witness :
  UserCreate.username_field "Alice_01" = Some "alice_01" /\
  UserCreate.username_field "alice_01" = Some "alice_01".
Proof.
  assert (H : UserCreate.username_field "Alice_01" = Some "alice_01") by reflexivity.
  split; [exact H|].
  refine (proj1 (username_field_idempotent "Alice_01" "alice_01" _ H)).
  unfold Str.is_ascii. cbn. repeat constructor.
Defined.

End Usernames.

Section Accounts.

Local Open Scope string_scope.

Lemma filter_username_absent (users : Users) (name : string) :
  ~ In name (map UserRow.username users) ->
  filter (fun r => String.eqb (UserRow.username r) name) users = [].
Proof.
  induction users as [|a users IH]; intros H; [reflexivity|].
  cbn [filter map] in *.
  destruct (String.eqb_spec (UserRow.username a) name) as [E|_].
  - exfalso. apply H. left. exact E.
  - apply IH. intros Hin. apply H. right. exact Hin.
Qed.

Lemma filter_username_unique (users : Users) (row : UserRow.t) :
  NoDup (map UserRow.username users) -> In row users ->
  filter (fun r => String.eqb (UserRow.username r) (UserRow.username row)) users
  = [row].
Proof.
  induction users as [|a users IH]; intros Hnd Hin; [destruct Hin|].
  cbn [map] in Hnd. apply NoDup_cons_iff in Hnd. destruct Hnd as [Hni Hnd].
  cbn [filter]. destruct Hin as [->|Hin].
  - rewrite String.eqb_refl. f_equal. apply filter_username_absent. exact Hni.
  - destruct (String.eqb_spec (UserRow.username a) (UserRow.username row)) as [E|_].
    + exfalso. apply Hni. rewrite E. apply in_map. exact Hin.
    + apply IH; assumption.
Qed.

(** Under the unique index a lookup by name finds the one row with the
    name, or none. *)
Lemma user_by_username_found (users : Users) (row : UserRow.t) :
  users_wf users -> In row users ->
  user_by_username users (UserRow.username row) = Returns (Some row).
Proof.
  intros [_ Hnd] Hin. unfold user_by_username.
  rewrite (filter_username_unique users row Hnd Hin). reflexivity.
Qed.

Lemma user_by_username_absent (users : Users) (name : string) :
  ~ In name (map UserRow.username users) ->
  user_by_username users name = Returns None.
Proof.
  intros H. unfold user_by_username. rewrite (filter_username_absent users name H).
  reflexivity.
Qed.

Lemma next_user_id_fresh (users : Users) :
  forall row, In row users -> UserRow.id row < next_user_id users.
Proof.
  unfold next_user_id. induction users as [|a users IH]; intros row Hin; [destruct Hin|].
  cbn [map fold_right]. destruct Hin as [->|Hin]; [lia|].
  specialize (IH row Hin). lia.
Qed.



(** A password of 73 characters passes [UserCreate], which asks for at
    least eight, and is turned down at the hashing: no row is added. *)
Lemma register_refuses_long_password :
  post_register plain_libraries [] 5 "salt"
    (UserCreate.mk "alice"
       "0123456789012345678901234567890123456789012345678901234567890123456789012")
  = Raises ValueError.
Proof. vm_compute. reflexivity. Qed.

Lemma users_wf_snoc (users : Users) (row : UserRow.t) :
  users_wf users ->
  ~ In (UserRow.id row) (map UserRow.id users) ->
  ~ In (UserRow.username row) (map UserRow.username users) ->
  users_wf (users ++ [row])%list.
Proof.
  intros [Hid Hname] Hi Hn. unfold users_wf. rewrite !map_app. cbn [map]. split.
  - apply NoDup_app; [assumption|constructor; [intros []|constructor]|].
    intros i Hin [<-|[]]. contradiction.
  - apply NoDup_app; [assumption|constructor; [intros []|constructor]|].
    intros i Hin [<-|[]]. contradiction.
Qed.

(** What a registration that succeeded did. *)
Lemma register_inv (lib : Libraries) (users users' : Users) (now : Z) (salt : string)
    (user_data : UserCreate.t) (row : UserRow.t) :
  users_wf users ->
  auth.register lib users now salt user_data = Returns (users', row) ->
  (exists hashed,
      hashpw lib (UserCreate.password user_data) salt = Some hashed /\
      row = UserRow.mk (next_user_id users) (UserCreate.username user_data)
              hashed now false) /\
  users' = (users ++ [row])%list /\
  users_wf users'.
Proof.
  intros Hwf H.
  destruct (in_dec string_dec (UserCreate.username user_data)
              (map UserRow.username users)) as [Hin|Hni].
  - apply in_map_iff in Hin. destruct Hin as (row0 & Hname & Hin).
    unfold auth.register in H. rewrite <- Hname in H.
    rewrite (user_by_username_found users row0 Hwf Hin) in H. discriminate.
  - unfold auth.register, AuthService.hash_password in H.
    rewrite (user_by_username_absent users _ Hni) in H.
    destruct (hashpw lib (UserCreate.password user_data) salt) as [hashed|] eqn:Hh;
      [|discriminate].
    injection H as <- <-. split; [exists hashed; split; reflexivity|].
    split; [reflexivity|].
    apply users_wf_snoc; [exact Hwf| |exact Hni]. cbn [UserRow.id].
    intros Hi. apply in_map_iff in Hi. destruct Hi as (r & Hid & Hr).
    apply next_user_id_fresh in Hr. lia.
Qed.

Lemma username_field_lower (v u : string) :
  UserCreate.username_field v = Some u -> u = PyStr.lower v.
Proof.
  unfold UserCreate.username_field, UserCreate.username_alphanumeric.
  destruct (_ && _); [|discriminate]. destruct (negb _); [discriminate|].
  intros H. injection H as <-. reflexivity.
Qed.

Lemma post_register_inv (lib : Libraries) (users users' : Users) (now : Z)
    (salt : string) (body : UserCreate.t) (row : UserRow.t) :
  users_wf users ->
  post_register lib users now salt body = Returns (users', row) ->
  (exists hashed,
      hashpw lib (UserCreate.password body) salt = Some hashed /\
      row = UserRow.mk (next_user_id users) (PyStr.lower (UserCreate.username body))
              hashed now false) /\
  users' = (users ++ [row])%list /\
  users_wf users'.
Proof.
  intros Hwf H. unfold post_register, UserCreate.validate in H.
  destruct (UserCreate.username_field (UserCreate.username body)) as [u|] eqn:Eu;
    [|discriminate].
  unfold UserCreate.password_field in H.
  destruct (8 <=? Str.len (UserCreate.password body))%Z; [|discriminate].
  apply username_field_lower in Eu. subst u.
  apply register_inv in H; [|exact Hwf]. exact H.
Qed.

(** X19: with a [bcrypt] that verifies the hashes it made, who has
    registered can log in: with the password that was sent and the name
    that was sent, in any capitalisation, at any later time, whatever
    the salt was.  The token then carries the stored (lower-case) name,
    [is_admin] false and an expiry 30 minutes after the login. *)
Theorem register_then_login (lib : Libraries) (users users' : Users) (now : Z)
    (salt : string) (body : UserCreate.t) (row : UserRow.t) :
  users_wf users ->
  bcrypt_verifies_own_hashes lib ->
  post_register lib users now salt body = Returns (users', row) ->
  UserRow.username row = PyStr.lower (UserCreate.username body) /\
  forall now2 form_username,
    PyStr.lower form_username = PyStr.lower (UserCreate.username body) ->
    auth.login lib users' now2 form_username (UserCreate.password body)
    = Returns
        (mkToken
           (jwt_encode lib
              [("sub", VStr (UserRow.username row)); ("is_admin", VBool false);
               ("exp", VTime (now2 + 1800))])
           "bearer").
Proof.
  intros Hwf Hlaw H.
  destruct (post_register_inv _ _ _ _ _ _ _ Hwf H)
    as ((hashed & Hhash & Hrow) & Hu' & Hwf').
  assert (Hname : UserRow.username row = PyStr.lower (UserCreate.username body))
    by (rewrite Hrow; reflexivity).
  split; [exact Hname|].
  intros now2 form_username Hl. unfold auth.login.
  rewrite Hl, <- Hname.
  rewrite (user_by_username_found users' row Hwf')
    by (rewrite Hu'; apply in_or_app; right; left; reflexivity).
  unfold AuthService.verify_password.
  replace (UserRow.hashed_password row) with hashed by (rewrite Hrow; reflexivity).
  rewrite (Hlaw _ _ _ Hhash). cbn [negb].
  replace (UserRow.is_admin row) with false by (rewrite Hrow; reflexivity).
  reflexivity.
Qed.

Lemma register_then_login_witness :
  auth.login plain_libraries [UserRow.mk 1 "alice" "battery staple" 5 false] 9
    "ALICE" "battery staple"
  = Returns
      (mkToken (lib := plain_libraries)
         [("sub", VStr "alice"); ("is_admin", VBool false); ("exp", VTime 1809)]
         "bearer").
Proof.
  assert (Hwf : users_wf []) by (split; constructor).
  assert (Hlaw : bcrypt_verifies_own_hashes plain_libraries).
  { intros p s h. cbn [hashpw checkpw plain_libraries].
    destruct (72 <? Str.len p)%Z; [discriminate|].
    intros E. injection E as <-. rewrite String.eqb_refl. reflexivity. }
  exact (proj2 (register_then_login plain_libraries [] _ 5 "salt"
                  (UserCreate.mk "Alice" "battery staple") _ Hwf Hlaw eq_refl)
           9 "ALICE" eq_refl).
Defined.

(** What a login that succeeded went through. *)
Lemma login_inv (lib : Libraries) (users : Users) (now : Z)
    (form_username form_password : string) (tok : Token lib) :
  auth.login lib users now form_username form_password = Returns tok ->
  exists user,
    In user users /\
    UserRow.username user = PyStr.lower form_username /\
    checkpw lib form_password (UserRow.hashed_password user) = Some true /\
    tok = mkToken
            (jwt_encode lib
               [("sub", VStr (UserRow.username user));
                ("is_admin", VBool (UserRow.is_admin user));
                ("exp", VTime (now + 1800))])
            "bearer".
Proof.
  unfold auth.login, user_by_username.
  destruct (filter _ users) as [|user [|user2 rest]] eqn:F; try discriminate.
  assert (Hin : In user (filter (fun r => String.eqb (UserRow.username r)
                                            (PyStr.lower form_username)) users))
    by (rewrite F; left; reflexivity).
  apply filter_In in Hin. destruct Hin as [Hin Hname]. apply String.eqb_eq in Hname.
  unfold AuthService.verify_password.
  destruct (checkpw lib form_password (UserRow.hashed_password user))
    as [[|]|] eqn:V; cbn [negb]; try discriminate.
  intros H. injection H as <-. exists user. repeat split; assumption.
Qed.

(** X20: with a [jose.jwt] that decodes its own tokens until they
    expire, the token of a login authenticates as the row that logged
    in, on every table with its keys that still holds the row, for the 30
    minutes after the login; after that, and when no row has the name
    any more, it is refused with the 401 of [get_current_user]. *)
Theorem token_authenticates (lib : Libraries) (users : Users) (now : Z)
    (form_username form_password : string) (tok : Token lib) :
  jwt_round_trip lib ->
  auth.login lib users now form_username form_password = Returns tok ->
  exists user,
    In user users /\
    UserRow.username user = PyStr.lower form_username /\
    (forall users2 now2,
        users_wf users2 -> In user users2 -> now2 <= now + 1800 ->
        dependencies.get_current_user lib users2 now2 (access_token tok)
        = Returns user) /\
    (forall users2 now2,
        now + 1800 < now2 ->
        dependencies.get_current_user lib users2 now2 (access_token tok)
        = Raises CredentialsException) /\
    (forall users2 now2,
        ~ In (UserRow.username user) (map UserRow.username users2) ->
        dependencies.get_current_user lib users2 now2 (access_token tok)
        = Raises CredentialsException).
Proof.
  intros Hlaw H. apply login_inv in H.
  destruct H as (user & Hin & Hname & _ & ->).
  exists user. split; [exact Hin|]. split; [exact Hname|].
  cbn [access_token].
  set (claims := [("sub", VStr (UserRow.username user));
                  ("is_admin", VBool (UserRow.is_admin user));
                  ("exp", VTime (now + 1800))]).
  assert (Hexp : dict_get claims "exp" = Some (VTime (now + 1800))) by reflexivity.
  assert (Hdec : forall now2,
             AuthService.decode_token lib now2 (jwt_encode lib claims)
             = if (now + 1800 <? now2)%Z then None else Some (UserRow.username user)).
  { intros now2. unfold AuthService.decode_token.
    rewrite (Hlaw claims (now + 1800) now2 Hexp).
    destruct (now + 1800 <? now2)%Z; reflexivity. }
  split; [|split].
  - intros users2 now2 Hwf2 Hin2 Hle. unfold dependencies.get_current_user.
    rewrite Hdec. replace (now + 1800 <? now2)%Z with false
      by (symmetry; apply Z.ltb_ge; lia).
    rewrite (user_by_username_found users2 user Hwf2 Hin2). reflexivity.
  - intros users2 now2 Hlt. unfold dependencies.get_current_user.
    rewrite Hdec. replace (now + 1800 <? now2)%Z with true
      by (symmetry; apply Z.ltb_lt; lia).
    reflexivity.
  - intros users2 now2 Hni. unfold dependencies.get_current_user.
    rewrite Hdec. destruct (now + 1800 <? now2)%Z; [reflexivity|].
    rewrite (user_by_username_absent users2 _ Hni). reflexivity.
Qed.

Lemma token_authenticates_witness :
  exists user,
    In user [UserRow.mk 1 "alice" "battery staple" 5 false] /\
    dependencies.get_current_user plain_libraries
      [UserRow.mk 1 "alice" "battery staple" 5 false] 1809
      [("sub", VStr "alice"); ("is_admin", VBool false); ("exp", VTime 1809)]
    = Returns user.
Proof.
  assert (Hlaw : jwt_round_trip plain_libraries).
  { intros claims exp now H. cbn [jwt_decode jwt_encode plain_libraries].
    rewrite H. reflexivity. }
  assert (Hwf : users_wf [UserRow.mk 1 "alice" "battery staple" 5 false])
    by (split; cbn; repeat constructor; intros []).
  destruct (token_authenticates plain_libraries
              [UserRow.mk 1 "alice" "battery staple" 5 false] 9
              "ALICE" "battery staple" _ Hlaw eq_refl)
    as (user & Hin & _ & Hok & _).
  exists user. split; [exact Hin|].
  apply (Hok _ 1809 Hwf Hin). lia.
Defined.

(** X21: registration makes no admin.  Through any sequence of
    registration requests the table keeps its keys and every row it had;
    every row that was added has [is_admin] false, so whoever
    authenticates as such a row is turned away by
    [get_current_admin_user], and the listing of all trades is refused
    to them. *)
Theorem registration_makes_no_admin (lib : Libraries)
    (requests : list (Z * string * UserCreate.t)) (users : Users) :
  users_wf users ->
  users_wf (register_run lib users requests) /\
  (forall row, In row users -> In row (register_run lib users requests)) /\
  (forall row, In row (register_run lib users requests) ->
     In row users \/
     (UserRow.is_admin row = false /\
      dependencies.get_current_admin_user row = Raises AdminRequired /\
      forall db, admin.get_all_trades db (UserRow.as_user row) = Err Forbidden)).
Proof.
  revert users. induction requests as [|[[now salt] body] rest IH]; intros users Hwf.
  - cbn [register_run]. split; [exact Hwf|]. split; [auto|]. intros row Hin.
    left. exact Hin.
  - cbn [register_run].
    destruct (post_register lib users now salt body) as [[users' row0]|e] eqn:E.
    + destruct (post_register_inv _ _ _ _ _ _ _ Hwf E)
        as ((hashed & _ & Hrow) & Hu' & Hwf').
      destruct (IH users' Hwf') as (Hw & Hkeep & Hnew).
      split; [exact Hw|]. split.
      * intros row Hin. apply Hkeep. rewrite Hu'. apply in_or_app. left. exact Hin.
      * intros row Hin. destruct (Hnew row Hin) as [Hold|Hfresh]; [|right; exact Hfresh].
        rewrite Hu' in Hold. apply in_app_or in Hold.
        destruct Hold as [Hold|[<-|[]]]; [left; exact Hold|right].
        rewrite Hrow. unfold dependencies.get_current_admin_user, admin.get_all_trades.
        cbn. auto.
    + apply IH. exact Hwf.
Qed.

Lemma registration_makes_no_admin_witness :
  users_wf
    (register_run plain_libraries []
       [(5, "salt", UserCreate.mk "Alice" "battery staple");
        (6, "pepper", UserCreate.mk "alice" "another password")]).
Proof.
  assert (Hwf : users_wf []) by (split; constructor).
  exact (proj1 (registration_makes_no_admin plain_libraries
                  [(5, "salt", UserCreate.mk "Alice" "battery staple");
                   (6, "pepper", UserCreate.mk "alice" "another password")]
                  [] Hwf)).
Defined.

End Accounts.
